(** * LED optical-centre detection: a shallow embedding of the detectors

    The development follows the source files of the repository:
    - [led_detector_final.py]  (modules [Final], [FinalVideo]):  candidate
      fusion, identity tracking across frames, the per-frame [detect], the
      loop of [VideoProcessor.process] and the offline IQR statistics of
      [VideoProcessor.calculate_error_statistics];
    - [etapa2_kalman_parpadeo/led_detector_estricto.py] (modules
      [Estricto], [EstrictoVideo]): the geometric validator, the
      best-triplet search, its [detect], and [process] and [save_results]
      of its [VideoProcessor];
    - [led_detector_video_output.py] (module [VideoOutput]): the id
      assignment, the histories and the report of [VideoMarker];
    - [etapa2_kalman_parpadeo/generar_video_parpadeo.py] (module
      [Parpadeo]) and [etapa2_kalman_parpadeo/generar_video_marcado.py]
      (module [Marcado]): the blink schedule, the darkened frame, and the
      trajectories and counters of the marked video.

    Python [float]s are IEEE-754 binary64 values, so they are embedded as
    Rocq's primitive floats: every definition of the model runs under
    [vm_compute].
    Image processing (OpenCV blob extraction, the OpenCV Kalman filter) is
    outside the repository: a frame enters the model as the list of candidate
    points the extractors returned for it.  Of the methods that draw on a
    frame or write a file, the model keeps the updates of the state and the
    divisions that can raise; the rendering calls of OpenCV are left out. *)

From Stdlib Require Import Floats ZArith Uint63 String.
From stdpp Require Import base option list gmap.

Set Warnings "-inexact-float".

(** ** Python and numpy primitives used by the detectors *)

Module Py.

(** [a > b], [a >= b] of Python, on floats. *)
Definition gt (a b : float) : bool := PrimFloat.ltb b a.
Definition ge (a b : float) : bool := PrimFloat.leb b a.
Definition lt (a b : float) : bool := PrimFloat.ltb a b.
Definition le (a b : float) : bool := PrimFloat.leb a b.

(** [float(n)] for a list length or a loop index. *)
Definition float_of_nat (n : nat) : float :=
  PrimFloat.of_uint63 (Uint63.of_Z (Z.of_nat n)).

(** [x ** 2] on a float. *)
Definition sq (x : float) : float := (x * x)%float.

(** [enumerate(l)]. *)
Definition enumerate {A} (l : list A) : list (nat * A) :=
  zip (seq 0 (length l)) l.

(** [sorted(l, key=key, reverse=reverse)]: Python's sort is stable and only
    compares keys with [<].  [insort] puts [x], which stood before every
    element of [l] in the input, in front of the first element that need
    not precede it. *)
Fixpoint insort {A} (key : A -> float) (reverse : bool) (x : A) (l : list A)
  : list A :=
  match l with
  | [] => [x]
  | y :: l' =>
      if (if reverse then lt (key x) (key y) else lt (key y) (key x))
      then y :: insort key reverse x l'
      else x :: l
  end.

Definition sorted {A} (key : A -> float) (reverse : bool) (l : list A)
  : list A :=
  foldr (insort key reverse) [] l.

(** [np.sum]: numpy accumulates arrays of fewer than 8 elements from left
    to right (longer ones pairwise; no claim depends on the order). *)
Definition np_sum (l : list float) : float :=
  foldl PrimFloat.add 0%float l.

(** [np.mean]. *)
Definition np_mean (l : list float) : float :=
  (np_sum l / float_of_nat (length l))%float.

(** [np.std]: the population standard deviation. *)
Definition np_std (l : list float) : float :=
  let m := np_mean l in
  PrimFloat.sqrt (np_mean ((fun x => sq (PrimFloat.abs (x - m))) <$> l)).

(** [np.minimum] and [np.maximum] propagate nan; [np.min], [np.max] reduce
    with them from the first element. *)
Definition minimum (a b : float) : float :=
  if lt a b || PrimFloat.is_nan a then a else b.
Definition maximum (a b : float) : float :=
  if gt a b || PrimFloat.is_nan a then a else b.
Definition np_min (l : list float) : float :=
  match l with [] => nan | a :: l' => foldl minimum a l' end.
Definition np_max (l : list float) : float :=
  match l with [] => nan | a :: l' => foldl maximum a l' end.

(** [np.sqrt((x1 - x2) ** 2 + (y1 - y2) ** 2)]. *)
Definition dist (x1 y1 x2 y2 : float) : float :=
  PrimFloat.sqrt (sq (x1 - x2) + sq (y1 - y2)).

(** [itertools.combinations(l, k)], in the order itertools yields them. *)
Fixpoint combinations {A} (k : nat) (l : list A) : list (list A) :=
  match k with
  | O => [[]]
  | S k' =>
      match l with
      | [] => []
      | x :: l' => ((x ::.) <$> combinations k' l') ++ combinations (S k') l'
      end
  end.

(** A loop whose body may raise: the fold stops at the first [None]. *)
Fixpoint foldlM {A B} (f : B -> A -> option B) (b : B) (l : list A)
  : option B :=
  match l with
  | [] => Some b
  | a :: l' => b' ← f b a; foldlM f b' l'
  end.

(** numpy's default [np.percentile] (method 'linear') for an integer
    percentage: the virtual index [q / 100 * (n - 1)] is split into its
    floor and its fraction, and the two neighbouring order statistics are
    interpolated the way numpy's [_lerp] does. *)
Definition lerp (a b t : float) : float :=
  if ge t 0.5 then (b - (b - a) * (1 - t))%float
  else (a + (b - a) * t)%float.

Definition percentile_linear (l : list float) (q : nat) : float :=
  let arr := sorted id false l in
  let n := length arr in
  let previous := (q * (n - 1) / 100)%nat in
  let gamma := (float_of_nat (q * (n - 1) mod 100) / 100)%float in
  let next := Nat.min (previous + 1) (n - 1) in
  lerp (nth previous arr nan) (nth next arr nan) gamma.

End Py.

(** ** led_detector_final.py *)

Module Final.
Import Py.

(** A candidate or fused point: the tuple [(x, y, confidence)]. *)
Definition Det : Type := float * float * float.

Definition det_x (d : Det) : float := d.1.1.
Definition det_y (d : Det) : float := d.1.2.
Definition det_conf (d : Det) : float := d.2.

Record LEDDetection := {
  x : float;
  y : float;
  confidence : float;
  method : string
}.

(** [led_ids] holds what [_assign_led_ids_robust] returned: an entry is
    [None] where the source list still holds Python's [None]. *)
Record FrameResult := {
  frame_idx : nat;
  timestamp : float;
  leds_detected : list LEDDetection;
  success : bool;
  num_leds : nat;
  led_ids : list (option nat)
}.

(** The attributes of [RobustLEDDetector] that the tracker reads or
    writes.  [led_trajectory] is the dict [{0: [], 1: [], 2: []}]. *)
Record RobustLEDDetector := {
  expected_leds : nat;
  last_positions : option (list Det);
  led_trajectory : gmap nat (list (float * float));
  frame_count : nat
}.

(** [RobustLEDDetector.__init__]. *)
Definition init (expected : nat) : RobustLEDDetector :=
  {| expected_leds := expected;
     last_positions := None;
     led_trajectory := {[ 0 := []; 1 := []; 2 := [] ]};
     frame_count := 0 |}.

(** [RobustLEDDetector()]: the detector [VideoProcessor] builds. *)
Definition default : RobustLEDDetector := init 3.

(** *** _merge_detections *)

Definition distance_threshold : float := 20.

(** The body of the inner loop of [_merge_detections] for the seed at
    index [i], on the candidate at index [j]. *)
Definition absorb_step (i : nat) (seed : Det)
    (acc : list Det * gset nat) (cand : nat * Det) : list Det * gset nat :=
  let '(cluster, used) := acc in
  let '(j, d2) := cand in
  if (j <=? i)%nat || bool_decide (j ∈ used) then (cluster, used)
  else if lt (dist (det_x seed) (det_y seed) (det_x d2) (det_y d2))
             distance_threshold
       then (cluster ++ [d2], {[j]} ∪ used)
       else (cluster, used).

(** The inner loop: the cluster of the seed and the enlarged [used] set. *)
Definition absorb (i : nat) (seed : Det) (all_detections : list Det)
    (used : gset nat) : list Det * gset nat :=
  foldl (absorb_step i seed) ([seed], used) (enumerate all_detections).

(** The fused point of one cluster: positions weighted by confidence,
    confidence averaged with [np.mean]. *)
Definition fuse (cluster : list Det) : Det :=
  let xs := det_x <$> cluster in
  let ys := det_y <$> cluster in
  let confs := det_conf <$> cluster in
  let total := np_sum confs in
  let weights := (fun c => (c / total)%float) <$> confs in
  let avg_x := np_sum (zip_with PrimFloat.mul xs weights) in
  let avg_y := np_sum (zip_with PrimFloat.mul ys weights) in
  let avg_conf := np_mean confs in
  (avg_x, avg_y, avg_conf).

(** The body of the outer loop for the candidate at index [i]. *)
Definition merge_step (all_detections : list Det)
    (acc : list Det * gset nat) (cand : nat * Det) : list Det * gset nat :=
  let '(merged, used) := acc in
  let '(i, seed) := cand in
  if bool_decide (i ∈ used) then (merged, used)
  else
    let '(cluster, used) := absorb i seed all_detections used in
    (merged ++ [fuse cluster], {[i]} ∪ used).

(** The outer loop, on the list already sorted by confidence. *)
Definition merge_sorted (all_detections : list Det) : list Det :=
  (foldl (merge_step all_detections) ([], ∅) (enumerate all_detections)).1.

Definition _merge_detections (detections_list : list (list Det)) : list Det :=
  let all_detections := concat detections_list in
  match all_detections with
  | [] => []
  | _ => merge_sorted (sorted det_conf true all_detections)
  end.

(** *** _assign_led_ids_robust *)

Definition max_jump_dist : float := 150.

(** [self.led_trajectory[i].append(p)]; [None] is Python's [KeyError]. *)
Definition traj_append (i : nat) (p : float * float)
    (traj : gmap nat (list (float * float)))
  : option (gmap nat (list (float * float))) :=
  l ← traj !! i; Some (<[i := l ++ [p]]> traj).

(** The body of the inner loop for the previous position
    [(x_old, y_old)] on the detection at [new_idx].  The index [-1] of the
    source is [None]. *)
Definition nearest_step (x_old y_old : float) (used : gset nat)
    (best : option nat * float) (cand : nat * Det) : option nat * float :=
  let '(best_new_idx, best_dist) := best in
  let '(new_idx, d) := cand in
  if bool_decide (new_idx ∈ used) then (best_new_idx, best_dist)
  else
    let dist := dist x_old y_old (det_x d) (det_y d) in
    if gt dist max_jump_dist then (best_new_idx, best_dist)
    else if lt dist best_dist then (Some new_idx, dist)
         else (best_new_idx, best_dist).

(** The inner loop: the nearest detection that is not yet claimed and not
    farther than [max_jump_dist], with its distance. *)
Definition nearest_unused (x_old y_old : float) (detections : list Det)
    (used : gset nat) : option nat * float :=
  foldl (nearest_step x_old y_old used) (None, infinity)
        (enumerate detections).

(** The body of the loop over the previous positions.  [assignment] is
    the dict [old_idx -> new_idx] in insertion order (each key is inserted
    once). *)
Definition match_step (detections : list Det)
    (acc : list (nat * nat) * gset nat) (slot : nat * Det)
  : list (nat * nat) * gset nat :=
  let '(assignment, used) := acc in
  let '(old_idx, d_old) := slot in
  match (nearest_unused (det_x d_old) (det_y d_old) detections used).1 with
  | Some best_new_idx =>
      (assignment ++ [(old_idx, best_new_idx)], {[best_new_idx]} ∪ used)
  | None => (assignment, used)
  end.

Definition match_slots (last : list Det) (detections : list Det)
  : list (nat * nat) * gset nat :=
  foldl (match_step detections) ([], ∅) (enumerate last).

(** The three pieces of state the two result loops update. *)
Definition Slots : Type :=
  list (option Det) * list (option nat) * gmap nat (list (float * float)).

(** One iteration of either result loop: detection [det_idx] receives
    [led_id] and is appended to that id's trajectory. *)
Definition give_id (detections : list Det) (s : Slots) (led_id det_idx : nat)
  : option Slots :=
  let '(assigned_detections, assigned_ids, traj) := s in
  d ← detections !! det_idx;
  traj' ← traj_append led_id (det_x d, det_y d) traj;
  Some (<[det_idx := Some d]> assigned_detections,
        <[det_idx := Some led_id]> assigned_ids,
        traj').

Definition unassigned_ids (expected : nat) (assignment : list (nat * nat))
  : list nat :=
  let assigned_indices : gset nat :=
    list_to_set (List.filter (fun old_idx => (old_idx <? 3)%nat) assignment.*1) in
  List.filter (fun i => negb (bool_decide (i ∈ assigned_indices))) (seq 0 expected).

Definition unassigned_dets (assigned_detections : list (option Det)) : list nat :=
  (List.filter (fun '(_, d) => match d with None => true | Some _ => false end)
               (enumerate assigned_detections)).*1.

Definition iota_ids (n : nat) : list (option nat) := Some <$> seq 0 n.

Definition _assign_led_ids_robust (detections : list Det)
    (self : RobustLEDDetector)
  : option (list (option Det) * list (option nat) * RobustLEDDetector) :=
  let detections := sorted det_x false detections in
  if negb (length detections =? expected_leds self)%nat then
    Some (Some <$> detections, iota_ids (length detections), self)
  else
    match last_positions self with
    | None =>
        traj ← foldlM (fun traj '(i, d) => traj_append i (det_x d, det_y d) traj)
                      (led_trajectory self) (enumerate detections);
        Some (Some <$> detections, iota_ids (length detections),
              {| expected_leds := expected_leds self;
                 last_positions := Some detections;
                 led_trajectory := traj;
                 frame_count := frame_count self |})
    | Some last =>
        let assignment := (match_slots last detections).1 in
        let n := length detections in
        s ← foldlM (fun s '(old_idx, new_idx) => give_id detections s old_idx new_idx)
                   (replicate n None, replicate n None, led_trajectory self)
                   assignment;
        s ← foldlM (fun s '(det_idx, led_id) => give_id detections s led_id det_idx)
                   s
                   (zip (unassigned_dets s.1.1)
                        (unassigned_ids (expected_leds self) assignment));
        Some (s.1.1, s.1.2,
              {| expected_leds := expected_leds self;
                 last_positions := Some detections;
                 led_trajectory := s.2;
                 frame_count := frame_count self |})
    end.

(** *** detect *)

(** The detection list after the cap of [detect]. *)
Definition cap (expected : nat) (detections : list Det) : list Det :=
  if (expected <? length detections)%nat then take expected detections
  else detections.

(** [detect], from the candidate lists of the four extractors on.  The
    comprehension that builds [leds] unpacks every entry, so an entry that
    is still [None] raises. *)
Definition detect (detections_list : list (list Det)) (self : RobustLEDDetector)
  : option (bool * list LEDDetection * list (option nat) * RobustLEDDetector) :=
  let detections := _merge_detections detections_list in
  let detections := cap (expected_leds self) detections in
  '(detections, led_ids, self) ← _assign_led_ids_robust detections self;
  leds ← mapM (fun d : option Det =>
                 d ← d;
                 Some {| x := det_x d; y := det_y d; confidence := det_conf d;
                         method := "Combinado" |})
              detections;
  let success := (length leds =? expected_leds self)%nat in
  Some (success, leds, led_ids,
        {| expected_leds := expected_leds self;
           last_positions := last_positions self;
           led_trajectory := led_trajectory self;
           frame_count := frame_count self + 1 |}).

(** *** VideoProcessor *)

Record VideoProcessor := {
  detector : RobustLEDDetector;
  results : list FrameResult;
  vp_frame_count : nat
}.

(** [VideoProcessor.__init__]. *)
Definition new_processor : VideoProcessor :=
  {| detector := default; results := []; vp_frame_count := 0 |}.

(** The body of the loop of [process] for one decoded frame: [detect],
    then the [FrameResult] appended to [self.results]. *)
Definition process_frame (fps : float) (idx : nat) (frame : list (list Det))
    (self : VideoProcessor) : option VideoProcessor :=
  '(ok, leds, ids, det) ← detect frame (detector self);
  let result :=
    {| frame_idx := idx;
       timestamp := (float_of_nat idx / fps)%float;
       leds_detected := leds;
       success := ok;
       num_leds := length leds;
       led_ids := ids |} in
  Some {| detector := det;
          results := results self ++ [result];
          vp_frame_count := vp_frame_count self |}.

(** [process] over the frames the video yields ([max_frames] of 0 or
    [None] means no limit). *)
Definition process (fps : float) (max_frames : option nat)
    (frames : list (list (list Det))) (self : VideoProcessor)
  : option VideoProcessor :=
  let frames :=
    match max_frames with
    | Some (S m) => take (S m) frames
    | _ => frames
    end in
  self ← foldlM (fun self '(idx, frame) => process_frame fps idx frame self)
                self (enumerate frames);
  Some {| detector := detector self;
          results := results self;
          vp_frame_count := length frames |}.

(** *** calculate_error_statistics *)

(** One entry of [stats['leds']]; a field is [None] where the source
    stores [None] or leaves the key out. *)
Record LedStats := {
  detected_frames : nat;
  mean_position : option (float * float);
  std_deviation : option float;
  std_x : option float;
  std_y : option float;
  min_x : option float;
  max_x : option float;
  min_y : option float;
  max_y : option float;
  range_x : option float;
  range_y : option float
}.

(** The returned dict: [{}] when there are no results. *)
Inductive Stats :=
| NoStats
| MkStats (total_frames successful_frames : nat) (leds : gmap nat LedStats).

(** The positions of each id over the successful frames.  The test
    [led_id < 3] raises on an id that is still [None]. *)
Definition led_positions (results : list FrameResult)
  : option (gmap nat (list (float * float))) :=
  foldlM
    (fun acc result =>
       if success result then
         foldlM
           (fun acc '(led, led_id) =>
              led_id ← led_id;
              if (led_id <? 3)%nat then traj_append led_id (x led, y led) acc
              else Some acc)
           acc (zip (leds_detected result) (led_ids result))
       else Some acc)
    ({[ 0 := []; 1 := []; 2 := [] ]} : gmap nat (list (float * float)))
    results.

Section Percentile.

(** [np.percentile(a, q)] of numpy, for an integer [q]. *)
Variable np_percentile : list float -> nat -> float.

(** The bounds [(lo_x, hi_x, lo_y, hi_y)] of the mask. *)
Definition iqr_bounds (positions : list (float * float))
  : float * float * float * float :=
  let xs := fst <$> positions in
  let ys := snd <$> positions in
  let q1_x := np_percentile xs 25 in
  let q3_x := np_percentile xs 75 in
  let q1_y := np_percentile ys 25 in
  let q3_y := np_percentile ys 75 in
  let iqr_x := (q3_x - q1_x)%float in
  let iqr_y := (q3_y - q1_y)%float in
  ((q1_x - 3 * iqr_x)%float, (q3_x + 3 * iqr_x)%float,
   (q1_y - 3 * iqr_y)%float, (q3_y + 3 * iqr_y)%float).

(** [valid_mask] at one sample. *)
Definition valid_mask (bounds : float * float * float * float)
    (p : float * float) : bool :=
  let '(lo_x, hi_x, lo_y, hi_y) := bounds in
  ge p.1 lo_x && le p.1 hi_x && ge p.2 lo_y && le p.2 hi_y.

(** [led_positions_filtered[led_idx]]. *)
Definition filter_outliers (positions : list (float * float))
  : list (float * float) :=
  match positions with
  | [] => []
  | _ => List.filter (valid_mask (iqr_bounds positions)) positions
  end.

(** [stats['leds'][led_idx]] from the filtered positions. *)
Definition led_stats (positions : list (float * float)) : LedStats :=
  match positions with
  | [] =>
      {| detected_frames := 0; mean_position := None;
         std_deviation := None; std_x := None; std_y := None;
         min_x := None; max_x := None; min_y := None; max_y := None;
         range_x := None; range_y := None |}
  | _ =>
      let xs := fst <$> positions in
      let ys := snd <$> positions in
      let mean_pos := (np_mean xs, np_mean ys) in
      let deviations :=
        (fun p => PrimFloat.sqrt (sq (p.1 - mean_pos.1) + sq (p.2 - mean_pos.2)))
          <$> positions in
      {| detected_frames := length positions;
         mean_position := Some mean_pos;
         std_deviation := Some (np_std deviations);
         std_x := Some (np_std xs);
         std_y := Some (np_std ys);
         min_x := Some (np_min xs);
         max_x := Some (np_max xs);
         min_y := Some (np_min ys);
         max_y := Some (np_max ys);
         range_x := Some (np_max xs - np_min xs)%float;
         range_y := Some (np_max ys - np_min ys)%float |}
  end.

Definition calculate_error_statistics (self : VideoProcessor)
  : option Stats :=
  match results self with
  | [] => Some NoStats
  | _ =>
      positions ← led_positions (results self);
      let led_positions_filtered := filter_outliers <$> positions in
      Some (MkStats (vp_frame_count self)
                    (length (List.filter success (results self)))
                    (led_stats <$> led_positions_filtered))
  end.

End Percentile.

End Final.

(** ** etapa2_kalman_parpadeo/led_detector_estricto.py *)

Module Estricto.
Import Py.

(** A bright blob: the tuple [(cx, cy, confidence)]. *)
Definition Blob : Type := float * float * float.

Definition blob_x (b : Blob) : float := b.1.1.
Definition blob_y (b : Blob) : float := b.1.2.
Definition blob_conf (b : Blob) : float := b.2.

Record LEDDetection := {
  x : float;
  y : float;
  confidence : float;
  led_id : nat
}.

Record FrameResult := {
  frame_idx : nat;
  timestamp : float;
  leds : list LEDDetection;
  success : bool;
  geometry_error : float;
  spacing_ratio : float
}.

(** The interface of the class [KalmanTracker], which wraps OpenCV's
    [cv2.KalmanFilter]: the constructor and [update], which returns the
    tracker after the call and the corrected position. *)
Class KalmanTracker (K : Type) := {
  kalman_init : float -> float -> K;
  kalman_update : K -> float -> float -> K * (float * float)
}.

Record StrictLEDDetector (K : Type) := {
  max_collinearity_error : float;
  spacing_tolerance : float;
  min_led_distance : float;
  max_led_distance : float;
  trackers : gmap nat K;
  frame_count : nat;
  last_valid_detection : option (list LEDDetection)
}.
Arguments max_collinearity_error {K}.
Arguments spacing_tolerance {K}.
Arguments min_led_distance {K}.
Arguments max_led_distance {K}.
Arguments trackers {K}.
Arguments frame_count {K}.
Arguments last_valid_detection {K}.

(** [StrictLEDDetector()] with the default arguments of [__init__]. *)
Definition default {K} : StrictLEDDetector K :=
  {| max_collinearity_error := 5.0;
     spacing_tolerance := 0.10;
     min_led_distance := 50.0;
     max_led_distance := 400.0;
     trackers := ∅;
     frame_count := 0;
     last_valid_detection := None |}.

(** [np.linalg.norm] and [np.dot] on the 2-vectors of the source. *)
Definition norm (v : float * float) : float :=
  PrimFloat.sqrt (v.1 * v.1 + v.2 * v.2).
Definition dot (u v : float * float) : float :=
  (u.1 * v.1 + u.2 * v.2)%float.
Definition vsub (u v : float * float) : float * float :=
  ((u.1 - v.1)%float, (u.2 - v.2)%float).
Definition vadd (u v : float * float) : float * float :=
  ((u.1 + v.1)%float, (u.2 + v.2)%float).
Definition vscale (t : float) (v : float * float) : float * float :=
  ((t * v.1)%float, (t * v.2)%float).

(** [_calculate_geometry]: [(collinearity_error, spacing_ratio, d12, d23)].
    [None] is the [IndexError] of [sorted_t[2]] on fewer than 3 points. *)
Definition _calculate_geometry (triplet : list Blob)
  : option (float * float * float * float) :=
  match sorted blob_x false triplet with
  | s0 :: s1 :: s2 :: _ =>
      let p1 := (blob_x s0, blob_y s0) in
      let p2 := (blob_x s1, blob_y s1) in
      let p3 := (blob_x s2, blob_y s2) in
      let d12 := norm (vsub p2 p1) in
      let d23 := norm (vsub p3 p2) in
      if lt d12 1 || lt d23 1 then Some (infinity, infinity, 0, 0)%float
      else
        let spacing_ratio := (d12 / d23)%float in
        let line_vec := vsub p3 p1 in
        let line_len := norm line_vec in
        if lt line_len 1 then Some (infinity, infinity, 0, 0)%float
        else
          let t := (dot (vsub p2 p1) line_vec / sq line_len)%float in
          let closest_point := vadd p1 (vscale t line_vec) in
          let collinearity_error := norm (vsub p2 closest_point) in
          Some (collinearity_error, spacing_ratio, d12, d23)
  | _ => None
  end.

Section Detector.
Context {K : Type} `{KalmanTracker K}.

Definition _validate_triplet (self : StrictLEDDetector K)
    (triplet : list Blob) : option bool :=
  '(col_error, spacing_ratio, d12, d23) ← _calculate_geometry triplet;
  if gt col_error (max_collinearity_error self) then Some false
  else if lt spacing_ratio (1 - spacing_tolerance self)
          || gt spacing_ratio (1 + spacing_tolerance self) then Some false
  else if lt d12 (min_led_distance self) || gt d12 (max_led_distance self)
  then Some false
  else if lt d23 (min_led_distance self) || gt d23 (max_led_distance self)
  then Some false
  else Some true.

(** [score] of a triplet, as the loop of [_find_best_triplet] computes it. *)
Definition score (triplet : list Blob) : option float :=
  '(col_error, spacing_ratio, _, _) ← _calculate_geometry triplet;
  Some (col_error + PrimFloat.abs (spacing_ratio - 1.0) * 10)%float.

(** One iteration of the loop over [combinations(blobs, 3)]. *)
Definition best_step (self : StrictLEDDetector K)
    (acc : option (list Blob) * float) (triplet : list Blob)
  : option (option (list Blob) * float) :=
  let '(best_triplet, best_score) := acc in
  valid ← _validate_triplet self triplet;
  if negb valid then Some (best_triplet, best_score)
  else
    score ← score triplet;
    if lt score best_score then Some (Some triplet, score)
    else Some (best_triplet, best_score).

(** [_find_best_triplet]: the outer [option] is an exception, the inner
    one Python's [None]. *)
Definition _find_best_triplet (self : StrictLEDDetector K)
    (blobs : list Blob) : option (option (list Blob)) :=
  if (length blobs <? 3)%nat then Some None
  else
    acc ← foldlM (best_step self) (None, infinity) (combinations 3 blobs);
    Some acc.1.

(** The body of the smoothing loop of [detect] for the point at
    index [i] of the x-sorted triplet. *)
Definition smooth_step (acc : gmap nat K * list LEDDetection)
    (point : nat * Blob) : gmap nat K * list LEDDetection :=
  let '(trk, leds) := acc in
  let '(i, b) := point in
  match trk !! i with
  | None =>
      (<[i := kalman_init (blob_x b) (blob_y b)]> trk,
       leds ++ [{| x := blob_x b; y := blob_y b;
                   confidence := blob_conf b; led_id := i |}])
  | Some k =>
      let '(k', (smoothed_x, smoothed_y)) :=
        kalman_update k (blob_x b) (blob_y b) in
      (<[i := k']> trk,
       leds ++ [{| x := smoothed_x; y := smoothed_y;
                   confidence := blob_conf b; led_id := i |}])
  end.

Definition smooth (trk : gmap nat K) (sorted_triplet : list Blob)
  : gmap nat K * list LEDDetection :=
  foldl smooth_step (trk, []) (enumerate sorted_triplet).

(** [detect], from the blobs [_find_bright_blobs] returned on:
    [(success, leds, geometry_error, spacing_ratio)] and the detector
    after the call. *)
Definition detect (blobs : list Blob) (self : StrictLEDDetector K)
  : option (bool * list LEDDetection * float * float * StrictLEDDetector K) :=
  triplet ← _find_best_triplet self blobs;
  match triplet with
  | None =>
      Some (false, [], infinity, infinity,
            {| max_collinearity_error := max_collinearity_error self;
               spacing_tolerance := spacing_tolerance self;
               min_led_distance := min_led_distance self;
               max_led_distance := max_led_distance self;
               trackers := trackers self;
               frame_count := frame_count self + 1;
               last_valid_detection := last_valid_detection self |})
  | Some triplet =>
      '(col_error, spacing_ratio, _, _) ← _calculate_geometry triplet;
      let sorted_triplet := sorted blob_x false triplet in
      let '(trk, leds) := smooth (trackers self) sorted_triplet in
      Some (true, leds, col_error, spacing_ratio,
            {| max_collinearity_error := max_collinearity_error self;
               spacing_tolerance := spacing_tolerance self;
               min_led_distance := min_led_distance self;
               max_led_distance := max_led_distance self;
               trackers := trk;
               frame_count := frame_count self + 1;
               last_valid_detection := Some leds |})
  end.

(** The [FrameResult] that [VideoProcessor.process] builds from the
    value of [detect] for frame [idx]. *)
Definition frame_result (fps : float) (idx : nat) (blobs : list Blob)
    (self : StrictLEDDetector K)
  : option (FrameResult * StrictLEDDetector K) :=
  '(ok, detected, col_error, ratio, self') ← detect blobs self;
  Some ({| frame_idx := idx;
           timestamp := (float_of_nat idx / fps)%float;
           leds := detected;
           success := ok;
           geometry_error := if ok then col_error else infinity;
           spacing_ratio := if ok then ratio else infinity |},
        self').

End Detector.

(** A tracker that applies no smoothing: it returns each measurement
    unchanged.  It serves to run [detect] on concrete frames. *)
#[export] Instance raw_tracker : KalmanTracker (float * float) := {
  kalman_init x y := (x, y);
  kalman_update _ x y := ((x, y), (x, y))
}.

End Estricto.

(** ** Python numbers: true division, [int()] and the [uint8] cast *)

Module PyNum.

(** [float(z)] for an [int] below [2 ** 53] in absolute value, where the
    conversion is exact. *)
Definition float_of_Z (z : Z) : float :=
  match z with
  | Z0 => 0%float
  | Zpos _ => PrimFloat.of_uint63 (Uint63.of_Z z)
  | Zneg p => (- PrimFloat.of_uint63 (Uint63.of_Z (Zpos p)))%float
  end.

(** [a / b] on two [int]s below [2 ** 53]: [None] is the
    [ZeroDivisionError]. *)
Definition truediv (a b : Z) : option float :=
  if (b =? 0)%Z then None else Some (float_of_Z a / float_of_Z b)%float.

(** [a / b] on two [float]s: [None] is the [ZeroDivisionError], raised for
    a divisor equal to zero of either sign. *)
Definition fdiv (a b : float) : option float :=
  if PrimFloat.eqb b 0 then None else Some (a / b)%float.

(** [int(x)] on a [float]: truncation towards zero; [None] is the
    [OverflowError] on an infinity or the [ValueError] on nan. *)
Definition int_of_float (x : float) : option Z :=
  match Prim2SF x with
  | S754_zero _ => Some 0%Z
  | S754_finite s m e =>
      let a := if (0 <=? e)%Z then (Zpos m * 2 ^ e)%Z
               else (Zpos m / 2 ^ (- e))%Z in
      Some (if s then (- a)%Z else a)
  | S754_infinity _ => None
  | S754_nan => None
  end.

(** [x.astype(np.uint8)] on a float64 within the range of [uint8]. *)
Definition uint8_of_float (x : float) : Z :=
  (from_option id 0 (int_of_float x) mod 256)%Z.

End PyNum.

(** ** led_detector_final.py: the loop of VideoProcessor.process *)

Module FinalVideo.
Import Py Final.

(** The loop of [process], with its two ways out besides the end of the
    video: the limit [max_frames] and the key q read while the frame is
    displayed.  A frame is the candidate lists of the four extractors and
    whether q is read on it.  The value is the processor, [frame_idx] and
    [successful_detections] when the loop is left.  With the display off
    the loop is the fold of [Final.process] ([process_agrees] below). *)
Fixpoint run (fps : float) (max_frames : option nat) (display : bool)
    (frames : list (list (list Det) * bool)) (self : VideoProcessor)
    (idx successful_detections : nat)
  : option (VideoProcessor * nat * nat) :=
  match frames with
  | [] => Some (self, idx, successful_detections)
  | (frame, key_q) :: rest =>
      if match max_frames with
         | Some (S m) => (S m <=? idx)%nat
         | _ => false
         end
      then Some (self, idx, successful_detections)
      else
        timestamp ← PyNum.fdiv (float_of_nat idx) fps;
        '(ok, leds, ids, det) ← detect frame (detector self);
        let result :=
          {| frame_idx := idx;
             timestamp := timestamp;
             leds_detected := leds;
             success := ok;
             num_leds := length leds;
             led_ids := ids |} in
        let self :=
          {| detector := det;
             results := results self ++ [result];
             vp_frame_count := vp_frame_count self |} in
        let successful_detections :=
          if ok : bool then successful_detections + 1
          else successful_detections in
        if display && key_q then Some (self, idx, successful_detections)
        else run fps max_frames display rest self (idx + 1)
                 successful_detections
  end.

(** [process]: the processor afterwards, whose [results] are the list
    returned, and the success rate of the summary, which divides by
    [self.frame_count]. *)
Definition process (fps : float) (max_frames : option nat) (display : bool)
    (frames : list (list (list Det) * bool)) (self : VideoProcessor)
  : option (VideoProcessor * float) :=
  '(self, idx, successful_detections) ←
    run fps max_frames display frames self 0 0;
  let self :=
    {| detector := detector self;
       results := results self;
       vp_frame_count := idx |} in
  rate ← PyNum.truediv (Z.of_nat successful_detections)
                       (Z.of_nat (vp_frame_count self));
  Some (self, (rate * 100)%float).

End FinalVideo.

(** ** etapa2_kalman_parpadeo/led_detector_estricto.py: VideoProcessor *)

Module EstrictoVideo.
Import Py Estricto.

(** One entry of the [jitter] dictionary of [save_results]. *)
Record Jitter := {
  jitter_mean : float;
  jitter_std : float;
  jitter_max : float
}.

(** The dictionary [save_results] returns. *)
Record Stats := {
  total_frames : nat;
  valid_frames : nat;
  success_rate : float;
  collinearity_mean : option float;
  collinearity_max : option float;
  spacing_ratio_mean : option float;
  spacing_ratio_std : option float;
  jitter : gmap nat Jitter
}.

(** [np.diff(positions, axis=0)] followed by
    [np.linalg.norm(diffs, axis=1)]. *)
Fixpoint step_distances (positions : list (float * float)) : list float :=
  match positions with
  | p :: (q :: _) as rest => norm (vsub q p) :: step_distances rest
  | _ => []
  end.

Section Processor.
Context {K : Type} `{KalmanTracker K}.

Record VideoProcessor := {
  detector : StrictLEDDetector K;
  results : list FrameResult
}.

(** [VideoProcessor.__init__]. *)
Definition new_processor : VideoProcessor :=
  {| detector := default; results := [] |}.

(** One iteration of the loop of [process], on the frame at [frame_idx]
    given by the blobs [_find_bright_blobs] returns on it: [detect], then
    the [FrameResult], whose [frame_idx / fps] raises for [fps] zero.  The
    frames saved under [save_frames] are rendering. *)
Definition process_step (fps : float) (acc : VideoProcessor * nat)
    (frame : nat * list Blob) : option (VideoProcessor * nat) :=
  let '(self, success_count) := acc in
  let '(frame_idx, blobs) := frame in
  '(result, det) ← frame_result fps frame_idx blobs (detector self);
  _ ← PyNum.fdiv (float_of_nat frame_idx) fps;
  Some ({| detector := det; results := results self ++ [result] |},
        if success result then success_count + 1 else success_count).

(** [process] over the frames the video yields ([max_frames] of 0 or
    [None] means no limit): the processor afterwards, whose [results] are
    the list returned, and the rate of the summary. *)
Definition process (fps : float) (max_frames : option nat)
    (frames : list (list Blob)) (self : VideoProcessor)
  : option (VideoProcessor * float) :=
  let frames :=
    match max_frames with
    | Some (S m) => take (S m) frames
    | _ => frames
    end in
  '(self, success_count) ←
    foldlM (process_step fps) (self, 0) (enumerate frames);
  let total := length frames in
  rate ← (if (0 <? total)%nat
          then PyNum.truediv (100 * Z.of_nat success_count) (Z.of_nat total)
          else Some 0%float);
  Some (self, rate).

Section Numpy.

(** [np.mean] and [np.std] on a one-dimensional array of any length (numpy
    sums arrays of 8 elements or more pairwise). *)
Variables np_mean np_std : list float -> float.

(** The loop that fills [led_positions]; [None] is the [KeyError] of
    [led_positions[led.led_id]]. *)
Definition collect_leds (acc : gmap nat (list (float * float)))
    (r : FrameResult) : option (gmap nat (list (float * float))) :=
  foldlM (fun acc led => Final.traj_append (led_id led) (x led, y led) acc)
         acc (leds r).

(** The entry of [jitter] for one id, if [len(positions) > 1]. *)
Definition jitter_of (positions : list (float * float)) : option Jitter :=
  if (1 <? length positions)%nat then
    let distances := step_distances positions in
    Some {| jitter_mean := np_mean distances;
            jitter_std := np_std distances;
            jitter_max := np_max distances |}
  else None.

(** The loop that fills [jitter] from [led_positions]. *)
Definition jitter_table (led_positions : gmap nat (list (float * float)))
  : gmap nat Jitter :=
  omap jitter_of led_positions.

(** [save_results]: the statistics it computes and returns. *)
Definition save_results (self : VideoProcessor) : option Stats :=
  let valid_results := filter (fun r => success r = true) (results self) in
  jitter ←
    match valid_results return option (gmap nat Jitter) with
    | [] => Some ∅
    | _ =>
        led_positions ←
          foldlM collect_leds
            ({[ 0 := []; 1 := []; 2 := [] ]} : gmap nat (list (float * float)))
            valid_results;
        Some (jitter_table led_positions)
    end;
  let col_errors := geometry_error <$> valid_results in
  let ratios := spacing_ratio <$> valid_results in
  rate ← match results self with
         | [] => Some 0%float
         | _ => PyNum.truediv (Z.of_nat (length valid_results))
                              (Z.of_nat (length (results self)))
         end;
  Some {| total_frames := length (results self);
          valid_frames := length valid_results;
          success_rate := rate;
          collinearity_mean :=
            match col_errors with [] => None | _ => Some (np_mean col_errors) end;
          collinearity_max :=
            match col_errors with [] => None | _ => Some (np_max col_errors) end;
          spacing_ratio_mean :=
            match ratios with [] => None | _ => Some (np_mean ratios) end;
          spacing_ratio_std :=
            match ratios with [] => None | _ => Some (np_std ratios) end;
          jitter := jitter |}.

End Numpy.

End Processor.

End EstrictoVideo.

(** ** led_detector_video_output.py *)

Module VideoOutput.
Import Py.

(** A detection [(x, y, confidence)] and an assigned detection
    [(led_id, x, y, confidence)]. *)
Definition Det : Type := float * float * float.
Definition Assigned : Type := nat * float * float * float.

Definition assigned_id (a : Assigned) : nat := a.1.1.1.
Definition assigned_point (a : Assigned) : Det := (a.1.1.2, a.1.2, a.2).

(** [self.expected_leds = 3] is fixed by [__init__]. *)
Definition expected_leds : nat := 3.
Definition max_jump_dist : float := 150.

(** The attributes of [VideoMarker] that tracking and statistics use. *)
Record VideoMarker := {
  led_positions : gmap nat (list (float * float));
  last_positions : option (list Det);
  frame_count : nat
}.

(** [VideoMarker.__init__]. *)
Definition init : VideoMarker :=
  {| led_positions := {[ 0 := []; 1 := []; 2 := [] ]};
     last_positions := None;
     frame_count := 0 |}.

(** The body of the inner loop of [_assign_led_ids] for the detection at
    [(x_new, y_new)], on the previous position [old_id].  The id [-1] of
    the source is [None]. *)
Definition nearest_old_step (x_new y_new : float) (used_ids : gset nat)
    (best : option nat * float) (old : nat * Det) : option nat * float :=
  let '(best_id, best_dist) := best in
  let '(old_id, d_old) := old in
  if bool_decide (old_id ∈ used_ids) then (best_id, best_dist)
  else
    let dist := dist d_old.1.1 d_old.1.2 x_new y_new in
    if lt dist max_jump_dist && lt dist best_dist then (Some old_id, dist)
    else (best_id, best_dist).

Definition nearest_old (x_new y_new : float) (last : list Det)
    (used_ids : gset nat) : option nat * float :=
  foldl (nearest_old_step x_new y_new used_ids) (None, infinity)
        (enumerate last).

(** The [for led_id in range(self.expected_leds)] loop with its [break]:
    the first id that is not used yet. *)
Definition first_unused (used_ids : gset nat) : option nat :=
  List.find (fun led_id => negb (bool_decide (led_id ∈ used_ids)))
            (seq 0 expected_leds).

(** The body of the loop over the detections. *)
Definition assign_step (last : list Det)
    (acc : list Assigned * gset nat) (d : Det) : list Assigned * gset nat :=
  let '(assigned, used_ids) := acc in
  let '(x_new, y_new, conf_new) := d in
  match (nearest_old x_new y_new last used_ids).1 with
  | Some best_id =>
      (assigned ++ [(best_id, x_new, y_new, conf_new)], {[best_id]} ∪ used_ids)
  | None =>
      match first_unused used_ids with
      | Some led_id =>
          (assigned ++ [(led_id, x_new, y_new, conf_new)], {[led_id]} ∪ used_ids)
      | None => (assigned, used_ids)
      end
  end.

(** [_assign_led_ids]: the assigned detections and the marker after the
    call. *)
Definition _assign_led_ids (detections : list Det) (self : VideoMarker)
  : list Assigned * VideoMarker :=
  let detections := sorted (fun d : Det => d.1.1) false detections in
  let reseed :=
    ((fun '(i, (x, y, c)) => (i, x, y, c)) <$> enumerate detections,
     {| led_positions := led_positions self;
        last_positions := Some detections;
        frame_count := frame_count self |}) in
  match detections with
  | [] => ([], self)
  | _ =>
      match last_positions self with
      | None => reseed
      | Some last =>
          if negb (length last =? length detections)%nat then reseed
          else
            let assigned := (foldl (assign_step last) ([], ∅) detections).1 in
            (assigned,
             {| led_positions := led_positions self;
                last_positions := Some (assigned_point <$> assigned);
                frame_count := frame_count self |})
      end
  end.

(** The state change of [_draw_markers]: the position of every assigned
    detection whose id is below [expected_leds] is appended to the history
    of that id. *)
Definition record_positions (assigned : list Assigned)
    (positions : gmap nat (list (float * float)))
  : option (gmap nat (list (float * float))) :=
  foldlM (fun acc a =>
            if (assigned_id a <? expected_leds)%nat
            then Final.traj_append (assigned_id a) (a.1.1.2, a.1.2) acc
            else Some acc)
         positions assigned.

(** The body of the loop of [process_video] for one frame, from the
    detections [_detect_leds] returned on: the marker after the frame and
    whether the frame counts as a successful detection.  Of
    [_draw_markers] only the histories are kept. *)
Definition process_frame (detections : list Det) (self : VideoMarker)
  : option (VideoMarker * bool) :=
  let self :=
    {| led_positions := led_positions self;
       last_positions := last_positions self;
       frame_count := frame_count self + 1 |} in
  let '(assigned, self) := _assign_led_ids detections self in
  positions ← record_positions assigned (led_positions self);
  Some ({| led_positions := positions;
           last_positions := last_positions self;
           frame_count := frame_count self |},
        (length assigned =? expected_leds)%nat).

(** The progress line printed every 30 frames: two divisions, the first by
    the frame count the container announces. *)
Definition progress_report (total_frames : Z) (successful : nat)
    (self : VideoMarker) : option unit :=
  if (frame_count self mod 30 =? 0)%nat then
    _ ← PyNum.truediv (Z.of_nat (frame_count self)) total_frames;
    _ ← PyNum.truediv (Z.of_nat successful) (Z.of_nat (frame_count self));
    Some ()
  else Some ().

(** One iteration of the loop of [process_video]. *)
Definition process_step (total_frames : Z) (acc : VideoMarker * nat)
    (detections : list Det) : option (VideoMarker * nat) :=
  let '(self, successful) := acc in
  '(self, ok) ← process_frame detections self;
  let successful := if ok : bool then successful + 1 else successful in
  _ ← progress_report total_frames successful self;
  Some (self, successful).

(** The result of [_calculate_statistics]. *)
Record Statistics := {
  mean_x : float;
  mean_y : float;
  std_total : float;
  count : nat
}.

(** What [process_video] reports once the video is read. *)
Record Report := {
  successful_detections : nat;
  success_rate : float;
  final_statistics : list Statistics
}.

Section Statistics.

(** [np.std] on a one-dimensional array of any length (numpy sums arrays
    of 8 elements or more pairwise). *)
Variable np_std : list float -> float.

(** [_calculate_statistics]; [None] is the [KeyError] of
    [self.led_positions[led_id]].  [np.mean(positions, axis=0)] adds the
    rows from first to last. *)
Definition _calculate_statistics (led_id : nat) (self : VideoMarker)
  : option Statistics :=
  positions ← led_positions self !! led_id;
  match positions with
  | [] => Some {| mean_x := 0; mean_y := 0; std_total := 0; count := 0 |}
  | [p] => Some {| mean_x := p.1; mean_y := p.2; std_total := 0; count := 1 |}
  | _ =>
      let mean_pos := (np_mean positions.*1, np_mean positions.*2) in
      let deviations :=
        (fun p => PrimFloat.sqrt (sq (p.1 - mean_pos.1) + sq (p.2 - mean_pos.2)))
          <$> positions in
      Some {| mean_x := mean_pos.1; mean_y := mean_pos.2;
              std_total := np_std deviations; count := length positions |}
  end.

(** [process_video] on the frames of the video, each given by the
    detections [_detect_leds] returns on it; [total_frames] is
    [CAP_PROP_FRAME_COUNT]. *)
Definition process_video (total_frames : Z) (frames : list (list Det))
    (self : VideoMarker) : option (VideoMarker * Report) :=
  '(self, successful) ← foldlM (process_step total_frames) (self, 0) frames;
  rate ← PyNum.truediv (Z.of_nat successful) (Z.of_nat (frame_count self));
  stats ← mapM (fun led_id => _calculate_statistics led_id self)
               (seq 0 expected_leds);
  Some (self, {| successful_detections := successful;
                 success_rate := rate * 100;
                 final_statistics := stats |}).

End Statistics.

End VideoOutput.

(** ** etapa2_kalman_parpadeo/generar_video_parpadeo.py *)

Module Parpadeo.
Import Py.

(** A BGR pixel and a frame, as rows of [uint8] channels. *)
Definition Pixel : Type := Z * Z * Z.
Definition Frame : Type := list Pixel.

Inductive Estado := ON | OFF.

(** [frames_on] and [frames_off]: both are [int(frames_por_ciclo / 2)]. *)
Definition patron (fps frecuencia_hz : float) : option (Z * Z) :=
  frames_por_ciclo ← PyNum.fdiv fps frecuencia_hz;
  frames_on ← PyNum.int_of_float (frames_por_ciclo / 2);
  frames_off ← PyNum.int_of_float (frames_por_ciclo / 2);
  Some (frames_on, frames_off).

Definition estado (frames_on ciclo_pos : Z) : Estado :=
  if (ciclo_pos <? frames_on)%Z then ON else OFF.

(** The update of [ciclo_pos] at the end of an iteration. *)
Definition avanzar (frames_on frames_off ciclo_pos : Z) : Z :=
  let ciclo_pos := (ciclo_pos + 1)%Z in
  if (frames_on + frames_off <=? ciclo_pos)%Z then 0%Z else ciclo_pos.

(** One channel of [(frame * 0.1).astype(np.uint8)]. *)
Definition oscurecer (v : Z) : Z :=
  PyNum.uint8_of_float (PyNum.float_of_Z v * 0.1).

Section Video.

(** [cv2.cvtColor(frame, cv2.COLOR_BGR2GRAY)] on one pixel. *)
Variable bgr2gray : Pixel -> Z.

(** One pixel of the OFF frame: kept where the threshold mask at 200 is
    set, darkened elsewhere. *)
Definition pixel_off (p : Pixel) : Pixel :=
  if (200 <? bgr2gray p)%Z then p
  else (oscurecer p.1.1, oscurecer p.1.2, oscurecer p.2).

Definition frame_salida (e : Estado) (frame : Frame) : Frame :=
  match e with
  | ON => frame
  | OFF => pixel_off <$> frame
  end.

(** One iteration of the loop of [simular_parpadeo]: the frames written so
    far, [ciclo_pos] and [frame_count]. *)
Definition paso (total_frames frames_on frames_off : Z)
    (acc : list Frame * Z * nat) (frame : Frame)
  : option (list Frame * Z * nat) :=
  let '(escritos, ciclo_pos, frame_count) := acc in
  let salida := frame_salida (estado frames_on ciclo_pos) frame in
  let ciclo_pos := avanzar frames_on frames_off ciclo_pos in
  let frame_count := frame_count + 1 in
  avance ← PyNum.truediv (Z.of_nat frame_count) total_frames;
  _ ← PyNum.int_of_float (avance * 50);
  Some (escritos ++ [salida], ciclo_pos, frame_count).

(** [simular_parpadeo] on the frames of the input video: the frames written
    to the output video. *)
Definition simular_parpadeo (fps : float) (total_frames : Z)
    (frames : list Frame) (frecuencia_hz : float) : option (list Frame) :=
  '(frames_on, frames_off) ← patron fps frecuencia_hz;
  '(escritos, _, _) ←
    foldlM (paso total_frames frames_on frames_off) ([], 0%Z, 0) frames;
  Some escritos.

End Video.

End Parpadeo.

(** ** etapa2_kalman_parpadeo/generar_video_marcado.py *)

Module Marcado.
Import Py Estricto.

(** [d.append(x)] on a [deque(maxlen=maxlen)]: the element is appended and,
    if the deque then exceeds [maxlen], its first element is dropped. *)
Definition deque_append {A} (maxlen : nat) (d : list A) (x : A) : list A :=
  let d := d ++ [x] in
  if (maxlen <? length d)%nat then drop 1 d else d.

Section Marker.
Context {K : Type} `{KalmanTracker K}.

Record VideoMarker := {
  detector : StrictLEDDetector K;
  trajectory_length : nat;
  trajectories : gmap nat (list (float * float));
  total_frames : nat;
  valid_frames : nat
}.

(** [VideoMarker(trajectory_length=trajectory_length)]. *)
Definition init (trajectory_length : nat) : VideoMarker :=
  {| detector := default;
     trajectory_length := trajectory_length;
     trajectories := {[ 0 := []; 1 := []; 2 := [] ]};
     total_frames := 0;
     valid_frames := 0 |}.

(** The body of the loop that updates the trajectories; [None] is the
    [KeyError] of [self.trajectories[led.led_id]]. *)
Definition registrar (maxlen : nat) (traj : gmap nat (list (float * float)))
    (led : LEDDetection) : option (gmap nat (list (float * float))) :=
  d ← traj !! led_id led;
  Some (<[led_id led := deque_append maxlen d (x led, y led)]> traj).

(** The state change of [_draw_detection]: the trajectories. *)
Definition _draw_detection (leds : list LEDDetection) (success : bool)
    (self : VideoMarker) : option VideoMarker :=
  if success && (length leds =? 3)%nat then
    traj ← foldlM (registrar (trajectory_length self)) (trajectories self) leds;
    Some {| detector := detector self;
            trajectory_length := trajectory_length self;
            trajectories := traj;
            total_frames := total_frames self;
            valid_frames := valid_frames self |}
  else Some self.

(** The loop of [process_video].  A frame is the blobs
    [_find_bright_blobs] returns on it and whether the key q is read while
    its preview is shown. *)
Fixpoint run (max_frames : option nat) (show_preview : bool)
    (frames : list (list Blob * bool)) (self : VideoMarker)
  : option VideoMarker :=
  match frames with
  | [] => Some self
  | (blobs, key_q) :: rest =>
      if match max_frames with
         | Some (S m) => (S m <=? total_frames self)%nat
         | _ => false
         end
      then Some self
      else
        '(success, leds, _, _, det) ← detect blobs (detector self);
        let self :=
          {| detector := det;
             trajectory_length := trajectory_length self;
             trajectories := trajectories self;
             total_frames := total_frames self;
             valid_frames :=
               if success : bool then valid_frames self + 1
               else valid_frames self |} in
        self ← _draw_detection leds success self;
        if show_preview && key_q then Some self
        else
          run max_frames show_preview rest
            {| detector := detector self;
               trajectory_length := trajectory_length self;
               trajectories := trajectories self;
               total_frames := total_frames self + 1;
               valid_frames := valid_frames self |}
  end.

(** [process_video]: the marker afterwards and the [success_rate] of the
    dictionary returned. *)
Definition process_video (max_frames : option nat) (show_preview : bool)
    (frames : list (list Blob * bool)) (self : VideoMarker)
  : option (VideoMarker * float) :=
  let self :=
    {| detector := detector self;
       trajectory_length := trajectory_length self;
       trajectories := trajectories self;
       total_frames := 0;
       valid_frames := 0 |} in
  self ← run max_frames show_preview frames self;
  rate ← (if (0 <? total_frames self)%nat
          then PyNum.truediv (100 * Z.of_nat (valid_frames self))
                             (Z.of_nat (total_frames self))
          else Some 0%float);
  Some (self, rate).

End Marker.

End Marcado.

(** * Specifications *)

(** ** Vocabulary of the statements *)

Section Order.
Context {A : Type}.

(** Ascending order as Python's [<] sees it: no element is below its
    predecessor. *)
Definition ascending (key : A -> float) (l : list A) : Prop :=
  forall i a b, l !! i = Some a -> l !! S i = Some b ->
                Py.lt (key b) (key a) = false.

End Order.

Section RobustSpec.
Import Final.

(** The Euclidean distance of two points, as the source computes it
    (between a previous position and a detection, or between a cluster
    seed and a candidate). *)
Definition jump (old d : Det) : float :=
  Py.dist (det_x old) (det_y old) (det_x d) (det_y d).

(** What the inner loop leaves in [(best_new_idx, best_dist)] after the
    candidates [pairs]. *)
Definition nearest_spec (old : Det) (used : gset nat)
    (pairs : list (nat * Det)) (r : option nat * float) : Prop :=
  match r.1 with
  | Some j =>
      (j ∉ used) /\
      Py.gt r.2 max_jump_dist = false /\
      Py.lt r.2 infinity = true /\
      (forall j' d', (j', d') ∈ pairs -> j' ∉ used ->
                     Py.gt (jump old d') max_jump_dist = false ->
                     Py.lt (jump old d') r.2 = false) /\
      exists d, (j, d) ∈ pairs /\ r.2 = jump old d
  | None =>
      r.2 = infinity /\
      forall j' d', (j', d') ∈ pairs -> j' ∉ used ->
                    Py.gt (jump old d') max_jump_dist = true \/
                    Py.lt (jump old d') infinity = false
  end.

(** What [match_slots] guarantees about the proximity assignment [a] of
    the slots [last] to the detections [dets]. *)
Record match_spec (last dets : list Det) (a : list (nat * nat)) : Prop := {
  (** no slot claims two detections, no detection is claimed twice *)
  match_olds : NoDup a.*1;
  match_news : NoDup a.*2;
  (** a claimed detection lies within the maximum jump of the slot, and
      nothing the earlier slots left unclaimed is nearer *)
  match_near : forall o n, (o, n) ∈ a ->
    exists l d, last !! o = Some l /\ dets !! n = Some d /\
      Py.gt (jump l d) max_jump_dist = false /\
      Py.lt (jump l d) infinity = true /\
      forall n' d', dets !! n' = Some d' ->
        (forall o', (o', n') ∈ a -> o <= o') ->
        Py.gt (jump l d') max_jump_dist = false ->
        Py.lt (jump l d') (jump l d) = false;
  (** a slot that claims nothing has no unclaimed detection in reach *)
  match_none : forall o l, last !! o = Some l -> o ∉ a.*1 ->
    forall n' d', dets !! n' = Some d' -> n' ∉ a.*2 ->
      Py.gt (jump l d') max_jump_dist = true \/
      Py.lt (jump l d') infinity = false
}.

(** The trajectory dict still has its three keys. *)
Definition keys3 (traj : gmap nat (list (float * float))) : Prop :=
  forall i, i < 3 -> is_Some (traj !! i).

(** The invariant of a detector built by [RobustLEDDetector()]: it holds
    of every reachable state ([reachable_wf] below). *)
Definition wf (self : RobustLEDDetector) : Prop :=
  expected_leds self = 3 /\
  (forall last, last_positions self = Some last -> length last = 3) /\
  keys3 (led_trajectory self).

(** The states a detector built by [RobustLEDDetector()] goes through:
    [detect] is its only method that is called from outside. *)
Inductive reachable : RobustLEDDetector -> Prop :=
| reach_init : reachable default
| reach_detect frame self r :
    reachable self -> detect frame self = Some r -> reachable r.2.

(** What either loop writes into the two result lists. *)
Definition put (dets : list Det)
    (s : list (option Det) * list (option nat)) (led_id det_idx : nat)
  : list (option Det) * list (option nat) :=
  (<[det_idx := dets !! det_idx]> s.1, <[det_idx := Some led_id]> s.2).

(** Every outcome of the proximity loop over the slots [slots]: each slot
    claims nothing or one of the three detections not yet in [used]. *)
Fixpoint assignments_from (slots : list nat) (a : list (nat * nat))
    (used : list nat) : list (list (nat * nat)) :=
  match slots with
  | [] => [a]
  | o :: slots' =>
      assignments_from slots' a used ++
      mjoin ((fun j => if bool_decide (j ∈ used) then []
                       else assignments_from slots' (a ++ [(o, j)]) (j :: used))
               <$> [0; 1; 2])
  end.

Definition all_assignments : list (list (nat * nat)) :=
  assignments_from [0; 1; 2] [] [].

(** What the returned id list owes to the proximity assignment [a]. *)
Definition ids_spec (a : list (nat * nat)) (ids : list (option nat)) : Prop :=
  ids ≡ₚ [Some 0; Some 1; Some 2] /\
  (forall o n, (o, n) ∈ a -> ids !! n = Some (Some o)) /\
  (forall n k, ids !! n = Some (Some k) -> (k, n) ∉ a ->
               (k ∉ a.*1) /\ (n ∉ a.*2)).

Definition with_tracking (self : RobustLEDDetector) (last : list Det)
    (traj : gmap nat (list (float * float))) : RobustLEDDetector :=
  {| expected_leds := expected_leds self;
     last_positions := Some last;
     led_trajectory := traj;
     frame_count := frame_count self |}.

(** The [LEDDetection] that [detect] builds from a tuple. *)
Definition to_led (d : Det) : LEDDetection :=
  {| x := det_x d; y := det_y d; confidence := det_conf d;
     method := "Combinado" |}.

Definition tick (self : RobustLEDDetector) : RobustLEDDetector :=
  {| expected_leds := expected_leds self;
     last_positions := last_positions self;
     led_trajectory := led_trajectory self;
     frame_count := frame_count self + 1 |}.

(** The candidate a cluster grew from. *)
Definition seed_of (cluster : list Det) : option Det := head cluster.

(** The distance of each sample to the mean position, whose standard
    deviation is reported as [std_deviation]. *)
Definition deviations (positions : list (float * float)) : list float :=
  let mean_x := Py.np_mean positions.*1 in
  let mean_y := Py.np_mean positions.*2 in
  (fun p => PrimFloat.sqrt (Py.sq (p.1 - mean_x) + Py.sq (p.2 - mean_y)))
    <$> positions.

End RobustSpec.

Section StrictSpec.
Import Estricto.

(** The triplet of the perpendicular-offset test: p1 = (0, 0),
    p3 = (200, 0) and p2 = (100, D), with any confidences. *)
Definition offset_triplet (D c1 c2 c3 : float) : list Blob :=
  [(0, 0, c1); (200, 0, c3); (100, D, c2)]%float.

Definition collinearity_error_of (triplet : list Blob) : option float :=
  (fun g : float * float * float * float => g.1.1.1)
    <$> _calculate_geometry triplet.

Context {K : Type}.
Implicit Types (self : StrictLEDDetector K).

(** What the loop of [_find_best_triplet] holds in
    [(best_triplet, best_score)] after the combinations [seen]. *)
Definition best_spec self (seen : list (list Blob))
    (acc : option (list Blob) * float) : Prop :=
  match acc.1 with
  | Some best =>
      best ∈ seen /\ _validate_triplet self best = Some true /\
      score best = Some acc.2 /\ Py.lt acc.2 infinity = true /\
      forall t s, t ∈ seen -> _validate_triplet self t = Some true ->
                  score t = Some s -> Py.lt s acc.2 = false
  | None =>
      acc.2 = infinity /\
      forall t s, t ∈ seen -> _validate_triplet self t = Some true ->
                  score t = Some s -> Py.lt s infinity = false
  end.

End StrictSpec.

(** ** Frames used to run the robust detector *)

Module Frames.
Import Final.
Local Open Scope float_scope.

(** Three LEDs 100 px apart; the same pattern 60 px further left; three
    LEDs 200 px apart whose left one stands at (110, 95). *)
Definition frame_a : list Det := [(0, 0, 0.5); (100, 0, 0.5); (200, 0, 0.5)].
Definition frame_b : list Det := [(-60, 0, 0.5); (40, 0, 0.5); (140, 0, 0.5)].
Definition frame_c : list Det := [(110, 95, 0.5); (300, 100, 0.5); (500, 100, 0.5)].

(** Only two LEDs visible. *)
Definition frame_two : list Det := [(100, 0, 0.5); (0, 0, 0.5)].

(** The detector after [frame_a], and one whose slot 0 was last seen at
    (100, 100). *)
Definition tracked_a : RobustLEDDetector :=
  {| expected_leds := 3;
     last_positions := Some frame_a;
     led_trajectory :=
       {[ 0%nat := [(0, 0)]; 1%nat := [(100, 0)]; 2%nat := [(200, 0)] ]};
     frame_count := 1 |}.

Definition tracked_c : RobustLEDDetector :=
  {| expected_leds := 3;
     last_positions := Some [(100, 100, 0.5); (300, 100, 0.5); (500, 100, 0.5)];
     led_trajectory :=
       {[ 0%nat := [(100, 100)]; 1%nat := [(300, 100)]; 2%nat := [(500, 100)] ]};
     frame_count := 1 |}.

(** Two candidates 15 px apart, and two 25 px apart. *)
Definition pair_15 : list (list Det) := [[(0, 0, 0.75)]; [(15, 0, 0.25)]].
Definition pair_25 : list (list Det) := [[(0, 0, 0.75)]; [(25, 0, 0.25)]].

(** Four LEDs' worth of candidates; a second extractor reports the first
    one again, 10 px away and with low confidence. *)
Definition crowded : list (list Det) :=
  [[(0, 0, 0.875); (100, 0, 0.75); (200, 0, 0.625); (300, 0, 0.5625)];
   [(10, 0, 0.125)]].

End Frames.

Module Blobs.
Import Estricto.
Local Open Scope float_scope.

(** Two blobs on the same spot and a third one. *)
Definition doubled : list Blob := [(100, 300, 0.9); (100, 300, 0.8); (300, 300, 0.9)].

(** The three fused candidates of the end-to-end scenario, and a fourth
    blob 2 px under the first. *)
Definition scenario : list Blob :=
  [(100, 300, 0.9); (200, 300, 0.92); (300, 300, 0.88)].
Definition scenario_extra : list Blob := scenario ++ [(100, 302, 0.5)].

End Blobs.

Module Drift.
Import Final.
Local Open Scope float_scope.

(** Eight frames in which the three LEDs drift by 1 px per frame, then a
    frame in which they are detected 5000 px away. *)
Definition drift (k : float) : list (list Det) :=
  [[(k, 0, 0.5); (100 + k, 0, 0.5); (200 + k, 0, 0.5)]].
Definition drifting_frames : list (list (list Det)) :=
  (drift <$> [0; 1; 2; 3; 4; 5; 6; 7]) ++
  [[[(5000, 5000, 0.5); (5100, 5000, 0.5); (5200, 5000, 0.5)]]].

Definition processed : VideoProcessor :=
  from_option id new_processor (process 24 None drifting_frames new_processor).

Definition processed_by_id : gmap nat (list (float * float)) :=
  from_option id ∅ (led_positions (results processed)).

Definition processed_led0 : list (float * float) :=
  from_option id [] (processed_by_id !! 0%nat).

End Drift.

(** ** Vocabulary of the statements on the video tools *)

(** The frames [process] reads under [max_frames]. *)
Definition frames_read {A} (max_frames : option nat) (frames : list A)
  : list A :=
  match max_frames with
  | Some (S m) => take (S m) frames
  | _ => frames
  end.

(** The frames the loop still reads when [total] frames are counted. *)
Definition por_leer (max_frames : option nat) (total n : nat) : nat :=
  match max_frames with
  | Some (S m) => Nat.min (S m - total) n
  | _ => n
  end.

Section VideoOutputSpec.
Import VideoOutput.

(** What the loop of [_assign_led_ids] holds after the detections [seen]. *)
Record assign_inv (last seen : list Det)
    (acc : list Assigned * gset nat) : Prop := {
  inv_used : acc.2 = list_to_set (assigned_id <$> acc.1);
  inv_nodup : NoDup (assigned_id <$> acc.1);
  inv_points : assigned_point <$> acc.1 `sublist_of` seen;
  inv_bound : forall a, a ∈ acc.1 ->
                assigned_id a < Nat.max (length last) expected_leds;
  inv_full : length seen <= expected_leds -> length acc.1 = length seen
}.

(** The positions [_draw_markers] adds to the history of the id [k]. *)
Definition recorded (k : nat) (assigned : list Assigned)
  : list (float * float) :=
  (fun a : Assigned => (a.1.1.2, a.1.2))
    <$> filter (fun a => assigned_id a = k) assigned.

(** The histories of a marker hold the ids 0, 1, 2, each with at most one
    position per frame read. *)
Definition marker_ok (self : VideoMarker) : Prop :=
  forall k, k < expected_leds ->
    exists l, led_positions self !! k = Some l /\ length l <= frame_count self.

(** What the loop of [process_video] holds after [n] frames. *)
Definition loop_ok (n : nat) (acc : VideoMarker * nat) : Prop :=
  marker_ok acc.1 /\ frame_count acc.1 = n /\ acc.2 <= n.

End VideoOutputSpec.

Section StrictVideoSpec.
Import Estricto EstrictoVideo.
Context {K : Type} `{KalmanTracker K}.
Implicit Types (self : StrictLEDDetector K).

(** The position a detection reports. *)
Definition led_point (led : LEDDetection) : float * float := (x led, y led).
Definition blob_point (b : Blob) : float * float := (blob_x b, blob_y b).


(** A [FrameResult] as [process] builds it: three detections with the ids
    0, 1, 2 on a success, none and infinite errors otherwise. *)
Definition result_ok (r : FrameResult) : Prop :=
  if success r then led_id <$> leds r = [0; 1; 2]
  else leds r = [] /\ geometry_error r = infinity /\
       spacing_ratio r = infinity.

(** What the loop of [process] holds after [n] frames. *)
Definition strict_loop_ok (n : nat) (acc : VideoProcessor (K := K) * nat)
  : Prop :=
  frame_idx <$> results acc.1 = seq 0 n /\
  Forall result_ok (results acc.1) /\
  frame_count (detector acc.1) = n /\
  acc.2 = length (filter (fun r => success r = true) (results acc.1)).

End StrictVideoSpec.

Section BlinkSpec.
Import Parpadeo.
Variable bgr2gray : Pixel -> Z.
Local Open Scope Z_scope.

(** The position in the cycle after [n] frames. *)
Definition posicion (frames_on : Z) (n : nat) : Z :=
  if 0 <? frames_on then Z.of_nat n mod (2 * frames_on) else 0.

(** The frame written for the frame at index [k]. *)
Definition escrito (frames_on : Z) (k : nat) (frame : Frame) : Frame :=
  if (0 <? frames_on) && (Z.of_nat k mod (2 * frames_on) <? frames_on)
  then frame else pixel_off bgr2gray <$> frame.

End BlinkSpec.

Section MarkedVideoSpec.
Import Estricto Marcado.
Context {K : Type} `{KalmanTracker K}.
Implicit Types (self : VideoMarker (K := K)).

(** Each of the three trajectories holds one position per valid frame, up
    to [trajectory_length]. *)
Definition trajectories_ok self : Prop :=
  forall k, k < 3 ->
    exists d, trajectories self !! k = Some d /\
              length d = Nat.min (trajectory_length self) (valid_frames self).

End MarkedVideoSpec.

Section RobustVideoSpec.
Import Final.

(** A [FrameResult] as [process] builds it. *)
Definition robust_result_ok (r : FrameResult) : Prop :=
  num_leds r = length (leds_detected r) /\
  length (led_ids r) = length (leds_detected r) /\
  (success r = true <-> length (leds_detected r) = 3) /\
  Forall is_Some (led_ids r) /\
  (success r = true -> led_ids r ≡ₚ [Some 0; Some 1; Some 2]).

(** The body of the inner loop of [led_positions]. *)
Definition collect_step (acc : gmap nat (list (float * float)))
    (pair : LEDDetection * option nat)
  : option (gmap nat (list (float * float))) :=
  let '(led, led_id) := pair in
  led_id ← led_id;
  if (led_id <? 3)%nat then traj_append led_id (x led, y led) acc
  else Some acc.



End RobustVideoSpec.

(** ** Videos used to run the processors *)

Module Runs.
Import Estricto.
Local Open Scope float_scope.

(** Three frames for [led_detector_video_output.py]: the pattern, the
    pattern 60 px further left, and only two LEDs. *)
Definition marker_frames : list (list VideoOutput.Det) :=
  [Frames.frame_a; Frames.frame_b; Frames.frame_two].

Definition marker_run : VideoOutput.VideoMarker * VideoOutput.Report :=
  from_option id
    (VideoOutput.init,
     {| VideoOutput.successful_detections := 0;
        VideoOutput.success_rate := 0;
        VideoOutput.final_statistics := [] |})
    (VideoOutput.process_video Py.np_std 3 marker_frames VideoOutput.init).

(** The detection of the strict detector on the scenario with an extra
    blob. *)
Definition strict_detection
  : bool * list Estricto.LEDDetection * float * float
    * Estricto.StrictLEDDetector (float * float) :=
  from_option id (false, [], 0, 0, Estricto.default)
    (Estricto.detect Blobs.scenario_extra Estricto.default).

(** Three frames for the strict processor: the scenario, an empty frame
    and the scenario with an extra blob. *)
Definition strict_frames : list (list Estricto.Blob) :=
  [Blobs.scenario; []; Blobs.scenario_extra].

Definition strict_run
  : EstrictoVideo.VideoProcessor (K := float * float) * float :=
  from_option id (EstrictoVideo.new_processor, 0)
    (EstrictoVideo.process 30 None strict_frames EstrictoVideo.new_processor).

(** Four one-pixel frames at 30 frames per second, blinking at 10 Hz; the
    green channel stands for the grey level. *)
Definition blink_gray (p : Parpadeo.Pixel) : Z := p.1.2.
Definition blink_frames : list Parpadeo.Frame :=
  [[(10, 20, 30)]; [(250, 250, 250)]; [(100, 100, 100)]; [(7, 201, 99)]]%Z.
Definition blink_run : list Parpadeo.Frame :=
  from_option id []
    (Parpadeo.simular_parpadeo blink_gray 30 4 blink_frames 10).

(** The frames of [strict_frames] for the marked-video generator, no key
    read, with trajectories of length 1. *)
Definition marked_frames : list (list Estricto.Blob * bool) :=
  (fun blobs => (blobs, false)) <$> strict_frames.
Definition marked_run : Marcado.VideoMarker (K := float * float) * float :=
  from_option id (Marcado.init 1, 0)
    (Marcado.process_video None false marked_frames (Marcado.init 1)).

(** Three drifting frames for the robust processor; q is read on the
    third. *)
Definition robust_frames : list (list (list Final.Det) * bool) :=
  [(Drift.drift 0, false); (Drift.drift 1, false); (Drift.drift 2, true)].
Definition robust_run : Final.VideoProcessor * float :=
  from_option id (Final.new_processor, 0)
    (FinalVideo.process 24 None true robust_frames Final.new_processor).

End Runs.

(** * Properties *)

(** ** The order of binary64 *)

Section FloatOrder.

Lemma SFltb_trans a b c :
  SFltb a b = true -> SFltb b c = true -> SFltb a c = true.
Proof.
  unfold SFltb, SFcompare.
  destruct a as [sa|sa| |sa ma ea], b as [sb|sb| |sb mb eb],
           c as [sc|sc| |sc mc ec];
    try discriminate; try reflexivity;
    repeat match goal with s : bool |- _ => destruct s end;
    try discriminate; try reflexivity.
  all: change (PosDef.Pos.compare_cont Eq) with Pos.compare.
  all: destruct (Z.compare_spec ea eb), (Z.compare_spec eb ec);
    try discriminate; subst.
  all: rewrite ?Z.compare_refl.
  all: try (replace (ea ?= ec)%Z with Lt
             by (symmetry; apply Z.compare_lt_iff; lia)).
  all: try (replace (ea ?= ec)%Z with Gt
             by (symmetry; apply Z.compare_gt_iff; lia)).
  all: try reflexivity.
  all: try (replace (eb ?= ec)%Z with Lt
             by (symmetry; apply Z.compare_lt_iff; lia)).
  all: try (replace (eb ?= ec)%Z with Gt
             by (symmetry; apply Z.compare_gt_iff; lia)).
  all: try (replace (ea ?= eb)%Z with Lt
             by (symmetry; apply Z.compare_lt_iff; lia)).
  all: try (replace (ea ?= eb)%Z with Gt
             by (symmetry; apply Z.compare_gt_iff; lia)).
  all: try reflexivity.
  all: destruct (Pos.compare_spec ma mb), (Pos.compare_spec mb mc);
    simpl; try discriminate; subst; intros _ _.
  all: try (replace (ma ?= mc)%positive with Lt
             by (symmetry; apply Pos.compare_lt_iff; lia)).
  all: try (replace (ma ?= mc)%positive with Gt
             by (symmetry; apply Pos.compare_gt_iff; lia)).
  all: reflexivity.
Qed.

Lemma SFltb_irrefl a : SFltb a a = false.
Proof.
  unfold SFltb, SFcompare.
  destruct a as [s|s| |s m e]; try destruct s; try reflexivity.
  all: change (PosDef.Pos.compare_cont Eq) with Pos.compare.
  all: rewrite Z.compare_refl, Pos.compare_refl; reflexivity.
Qed.

(** [<] on floats is a strict partial order (nan is incomparable). *)
Lemma lt_trans a b c :
  Py.lt a b = true -> Py.lt b c = true -> Py.lt a c = true.
Proof. unfold Py.lt. rewrite !FloatAxioms.ltb_spec. apply SFltb_trans. Qed.

Lemma lt_irrefl a : Py.lt a a = false.
Proof. unfold Py.lt. rewrite FloatAxioms.ltb_spec. apply SFltb_irrefl. Qed.

Lemma lt_asym a b : Py.lt a b = true -> Py.lt b a = false.
Proof.
  intros Hab. destruct (Py.lt b a) eqn:Hba; [|done].
  by rewrite <- (lt_irrefl a), (lt_trans a b a).
Qed.

(** If [c] is not below [b], it is not below anything under [b] either. *)
Lemma not_lt_below a b c :
  Py.lt a b = true -> Py.lt c b = false -> Py.lt c a = false.
Proof.
  intros Hab Hcb. destruct (Py.lt c a) eqn:Hca; [|done].
  by rewrite <- Hcb, (lt_trans c a b).
Qed.

End FloatOrder.

(** ** Loops, [enumerate], [sorted], [combinations] *)

Section PyFacts.
Context {A B : Type}.
Implicit Types (l : list A).

(** A loop invariant for [foldl]. *)
Lemma foldl_inv (P : B -> Prop) (f : B -> A -> B) l b :
  P b -> (forall b a, a ∈ l -> P b -> P (f b a)) -> P (foldl f b l).
Proof.
  revert b. induction l as [|a l IH]; intros b Hb Hf; simpl; [done|].
  apply IH.
  - apply Hf; [left | done].
  - intros b' a' Ha'. apply Hf. by right.
Qed.

(** The same for a loop that may raise. *)
Lemma foldlM_inv (P : B -> Prop) (f : B -> A -> option B) l b r :
  P b -> (forall b a b', a ∈ l -> P b -> f b a = Some b' -> P b') ->
  Py.foldlM f b l = Some r -> P r.
Proof.
  revert b. induction l as [|a l IH]; intros b Hb Hf; simpl.
  - by intros [= <-].
  - destruct (f b a) as [b'|] eqn:Hfa; simpl; [|done].
    apply IH.
    + eapply Hf; [left | done | done].
    + intros b0 a0 b1 Ha0. apply Hf. by right.
Qed.

(** A loop whose body never raises under the invariant runs to its end. *)
Lemma foldlM_total (P : B -> Prop) (f : B -> A -> option B) l b :
  P b -> (forall b a, a ∈ l -> P b -> exists b', f b a = Some b' /\ P b') ->
  exists r, Py.foldlM f b l = Some r /\ P r.
Proof.
  revert b. induction l as [|a l IH]; intros b Hb Hf; simpl; [by eauto|].
  destruct (Hf b a) as (b' & -> & Hb'); [left | done |]. simpl.
  apply IH; [done|]. intros b0 a0 Ha0. apply Hf. by right.
Qed.

Lemma enumerate_from_lookup (k : nat) l i a :
  (i, a) ∈ zip (seq k (length l)) l <-> (k <= i /\ l !! (i - k) = Some a).
Proof.
  revert k. induction l as [|x l IH]; intros k; simpl.
  - split; [by intros ?%elem_of_nil | by intros [_ ?]].
  - rewrite elem_of_cons, IH. split.
    + intros [[= -> ->]|[Hk Hl]].
      * by rewrite Nat.sub_diag.
      * split; [lia|]. by replace (i - k) with (S (i - S k)) by lia.
    + intros [Hk Hl]. destruct (decide (i = k)) as [->|Hne].
      * rewrite Nat.sub_diag in Hl. left. by injection Hl as ->.
      * right. split; [lia|].
        by replace (i - k) with (S (i - S k)) in Hl by lia.
Qed.

(** [enumerate] pairs every element with its index. *)
Lemma elem_of_enumerate l i a :
  (i, a) ∈ Py.enumerate l <-> l !! i = Some a.
Proof.
  unfold Py.enumerate. rewrite enumerate_from_lookup, Nat.sub_0_r.
  split; [by intros [_ ?] | intros; split; [lia | done]].
Qed.

Lemma insort_perm (key : A -> float) rev x l :
  Py.insort key rev x l ≡ₚ x :: l.
Proof.
  induction l as [|y l IH]; simpl; [done|].
  destruct (if rev then _ else _); [|done].
  by rewrite IH, Permutation_swap.
Qed.

(** [sorted] returns a rearrangement of its argument. *)
Lemma sorted_perm (key : A -> float) rev l : Py.sorted key rev l ≡ₚ l.
Proof.
  induction l as [|x l IH]; simpl; [done|].
  by rewrite insort_perm, IH.
Qed.

Lemma length_sorted (key : A -> float) rev l :
  length (Py.sorted key rev l) = length l.
Proof. by rewrite sorted_perm. Qed.

Lemma insort_ascending (key : A -> float) x l :
  ascending key l -> ascending key (Py.insort key false x l).
Proof.
  induction l as [|y l IH]; intros Hl; simpl.
  - intros [|i] a b; simpl; [by intros _ ?|done].
  - destruct (Py.lt (key y) (key x)) eqn:Hyx.
    + assert (Htl : ascending key l).
      { intros i a b Ha Hb. by apply (Hl (S i) a b). }
      specialize (IH Htl). intros [|i] a b; simpl.
      * intros [= <-] Hb. destruct l as [|z l]; simpl in Hb.
        -- injection Hb as <-. by apply lt_asym.
        -- destruct (Py.lt (key z) (key x)); injection Hb as <-.
           ++ by apply (Hl 0 y z).
           ++ by apply lt_asym.
      * apply IH.
    + intros [|i] a b; simpl.
      * by intros [= <-] [= <-].
      * apply Hl.
Qed.

Lemma sorted_ascending (key : A -> float) l :
  ascending key (Py.sorted key false l).
Proof.
  induction l as [|x l IH]; simpl.
  - by intros i a b Ha.
  - by apply insort_ascending.
Qed.

(** Every combination of [k] elements has [k] elements. *)
Lemma length_combinations (k : nat) l c :
  c ∈ Py.combinations k l -> length c = k.
Proof.
  revert k c. induction l as [|x l IH]; intros [|k] c; simpl.
  - by intros ->%list_elem_of_singleton.
  - by intros ?%elem_of_nil.
  - by intros ->%list_elem_of_singleton.
  - rewrite elem_of_app, list_elem_of_fmap.
    intros [(c' & -> & Hc')|Hc]; simpl; [|by apply IH].
    f_equal. by apply IH.
Qed.

Lemma combinations_short (k : nat) l :
  length l < k -> Py.combinations k l = [].
Proof.
  revert k. induction l as [|x l IH]; intros [|k]; simpl; try lia; [done|].
  intros Hk. rewrite (IH k), (IH (S k)) by lia. done.
Qed.

End PyFacts.

(** ** The identity tracker *)

Section Tracker.
Import Final.

Lemma nearest_fold_spec old used pairs :
  nearest_spec old used pairs
    (foldl (nearest_step (det_x old) (det_y old) used) (None, infinity) pairs).
Proof.
  induction pairs as [|[j d] pairs IH] using rev_ind.
  - split; [done|]. by intros j' d' ?%elem_of_nil.
  - rewrite foldl_app. simpl.
    destruct (foldl _ _ pairs) as [best bd]. unfold nearest_step at 1.
    change (Py.dist (det_x old) (det_y old) (det_x d) (det_y d))
      with (jump old d).
    unfold nearest_spec in *. simpl in *.
    assert (Hkeep :
      (bool_decide (j ∈ used) = true \/
       Py.gt (jump old d) max_jump_dist = true \/
       Py.lt (jump old d) bd = false) ->
      match best with
      | Some j0 =>
          (j0 ∉ used) /\ Py.gt bd max_jump_dist = false /\
          Py.lt bd infinity = true /\
          (forall j' d', (j', d') ∈ pairs ++ [(j, d)] -> j' ∉ used ->
                         Py.gt (jump old d') max_jump_dist = false ->
                         Py.lt (jump old d') bd = false) /\
          exists d0, (j0, d0) ∈ pairs ++ [(j, d)] /\ bd = jump old d0
      | None =>
          bd = infinity /\
          forall j' d', (j', d') ∈ pairs ++ [(j, d)] -> j' ∉ used ->
                        Py.gt (jump old d') max_jump_dist = true \/
                        Py.lt (jump old d') infinity = false
      end).
    { intros Hskip. destruct best as [b|].
      - destruct IH as (Hb & Hmax & Hinf & Hmin & d0 & Hin & Hbd).
        repeat split; try done.
        + intros j' d' [Hin'|[= -> ->]%list_elem_of_singleton]%elem_of_app Hj' Hle.
          * by eapply Hmin.
          * destruct Hskip as [Hu|[Hg|Hl]]; [|congruence|done].
            by apply bool_decide_eq_true in Hu.
        + exists d0. split; [|done]. apply elem_of_app. by left.
      - destruct IH as (-> & Hall). split; [done|].
        intros j' d' [Hin'|[= -> ->]%list_elem_of_singleton]%elem_of_app Hj'.
        + by eapply Hall.
        + destruct Hskip as [Hu|[Hg|Hl]]; [|by left|by right].
          by apply bool_decide_eq_true in Hu. }
    case_bool_decide as Hused; [apply Hkeep; by left|].
    destruct (Py.gt (jump old d) max_jump_dist) eqn:Hgt;
      [apply Hkeep; right; by left|].
    destruct (Py.lt (jump old d) bd) eqn:Hlt;
      [|apply Hkeep; right; by right].
    clear Hkeep. simpl.
    assert (Hinf' : Py.lt (jump old d) infinity = true).
    { destruct best as [b|].
      - destruct IH as (_ & _ & Hinf & _). by eapply lt_trans.
      - by destruct IH as (-> & _). }
    repeat split; try done.
    + intros j' d' [Hin'|[= -> ->]%list_elem_of_singleton]%elem_of_app Hj' Hle.
      * destruct best as [b|].
        -- destruct IH as (_ & _ & _ & Hmin & _).
           eapply not_lt_below; [exact Hlt|]. by eapply Hmin.
        -- destruct IH as (-> & Hall).
           destruct (Hall j' d' Hin' Hj') as [?|Hn]; [congruence|].
           by eapply not_lt_below.
      * apply lt_irrefl.
    + exists d. split; [|done]. apply elem_of_app. right. by left.
Qed.

(** The inner loop finds a nearest unclaimed detection within the
    maximum jump, and finds none only if there is none. *)
Lemma nearest_unused_spec old dets used :
  nearest_spec old used (Py.enumerate dets)
    (nearest_unused (det_x old) (det_y old) dets used).
Proof. apply nearest_fold_spec. Qed.

(** *** The loop over the previous positions *)

Lemma enumerate_snoc {A} (l : list A) (x : A) :
  Py.enumerate (l ++ [x]) = Py.enumerate l ++ [(length l, x)].
Proof.
  unfold Py.enumerate. rewrite length_app, seq_app. simpl.
  rewrite zip_with_app by apply length_seq. done.
Qed.

Lemma match_slots_inv last dets :
  let r := match_slots last dets in
  match_spec last dets r.1 /\
  (forall n, n ∈ r.2 <-> n ∈ r.1.*2) /\
  (forall o n, (o, n) ∈ r.1 -> o < length last).
Proof.
  unfold match_slots.
  induction last as [|l last IH] using rev_ind; simpl.
  - split; [|split]; [split|..]; simpl; try by constructor.
    all: try (by intros o n ?%elem_of_nil).
    intros n. set_solver.
  - rewrite enumerate_snoc, foldl_app. simpl.
    destruct (foldl _ _ (Py.enumerate last)) as [a used]. simpl in IH.
    destruct IH as ([Holds Hnews Hnear Hnone] & Hused & Hlt).
    unfold match_step.
    pose proof (nearest_unused_spec l dets used) as Hn.
    unfold nearest_spec in Hn.
    destruct (nearest_unused _ _ dets used) as [[j|] bd]; simpl in *.
    + destruct Hn as (Hj & Hmax & Hinf & Hmin & d & Hd%elem_of_enumerate & ->).
      assert (Hfresh : length last ∉ a.*1).
      { intros ((o & n) & Heq & Hin)%list_elem_of_fmap. simpl in *.
        apply Hlt in Hin. lia. }
      split; [|split]; [split|..].
      * rewrite fmap_app. simpl. apply NoDup_app. split; [done|].
        split; [|apply NoDup_singleton].
        intros o Ho ->%list_elem_of_singleton. done.
      * rewrite fmap_app. simpl. apply NoDup_app. split; [done|].
        split; [|apply NoDup_singleton].
        intros n Hin ->%list_elem_of_singleton. by apply Hj, Hused.
      * intros o n [Hin|[= -> ->]%list_elem_of_singleton]%elem_of_app.
        -- destruct (Hnear o n Hin) as (l0 & d0 & Hl0 & Hd0 & ? & ? & Hm).
           exists l0, d0. rewrite lookup_app_l by (by eapply lookup_lt_Some).
           repeat split; try done.
           intros n' d' Hd' Hearlier Hgt. apply (Hm n' d'); [done| |done].
           intros o' Ho'. apply Hearlier, elem_of_app. by left.
        -- exists l, d. rewrite list_lookup_middle by done.
           repeat split; try done.
           intros n' d' Hd' Hearlier. apply (Hmin n' d').
           ++ by apply elem_of_enumerate.
           ++ intros ((o' & n0) & -> & Hin)%Hused%list_elem_of_fmap.
              simpl in *. pose proof (Hlt _ _ Hin).
              assert (length last <= o'); [|lia].
              apply Hearlier, elem_of_app. by left.
      * intros o l0 Hl0 Ho n' d' Hd' Hn'.
        rewrite fmap_app, not_elem_of_app in Ho, Hn'. simpl in *.
        destruct Ho as [Ho Hne], Hn' as [Hn' _].
        rewrite list_elem_of_singleton in Hne.
        apply lookup_app_Some in Hl0 as [Hl0|[Hge Hl0]].
        -- by eapply Hnone.
        -- destruct (o - length last) as [|k] eqn:Hk; [lia|].
           by destruct k.
      * intros n. rewrite fmap_app, elem_of_app, elem_of_union, Hused.
        simpl. rewrite elem_of_singleton, list_elem_of_singleton. tauto.
      * intros o n [Hin|[= -> ->]%list_elem_of_singleton]%elem_of_app;
          rewrite length_app; simpl; [apply Hlt in Hin|]; lia.
    + destruct Hn as (-> & Hall).
      split; [|split]; [split|..]; try done.
      * intros o n Hin.
        destruct (Hnear o n Hin) as (l0 & d0 & Hl0 & Hd0 & ? & ? & Hm).
        exists l0, d0. rewrite lookup_app_l by (by eapply lookup_lt_Some).
        done.
      * intros o l0 Hl0 Ho n' d' Hd' Hn'.
        apply lookup_app_Some in Hl0 as [Hl0|[Hge Hl0]].
        -- by eapply Hnone.
        -- destruct (o - length last) as [|k] eqn:Hk; [|by destruct k].
           injection Hl0 as <-. eapply Hall.
           ++ by apply elem_of_enumerate.
           ++ by rewrite Hused.
      * intros o n Hin. rewrite length_app. apply Hlt in Hin. lia.
Qed.

Lemma match_slots_spec last dets :
  match_spec last dets (match_slots last dets).1.
Proof. apply match_slots_inv. Qed.

(** *** The two result loops *)

Lemma wf_default : wf default.
Proof.
  split; [done|]. split; [done|].
  intros [|[|[|i]]] Hi; try lia; by eexists.
Qed.

Lemma traj_append_keys3 i p traj traj' :
  traj_append i p traj = Some traj' -> keys3 traj -> keys3 traj'.
Proof.
  unfold traj_append. destruct (traj !! i) as [l|] eqn:Hl; [|done].
  intros [= <-] Hk j Hj. destruct (decide (i = j)) as [->|Hne].
  - rewrite lookup_insert_eq. by eexists.
  - rewrite lookup_insert_ne by done. by apply Hk.
Qed.

Lemma traj_append_total i p traj :
  i < 3 -> keys3 traj -> exists traj', traj_append i p traj = Some traj'.
Proof.
  intros Hi Hk. destruct (Hk i Hi) as [l Hl]. unfold traj_append.
  rewrite Hl. by eexists.
Qed.

(** One iteration within range does not raise, and fills the result
    lists as [put] does. *)
Lemma give_id_put dets s traj led_id det_idx :
  led_id < 3 -> det_idx < length dets -> keys3 traj ->
  exists traj',
    give_id dets (s, traj) led_id det_idx
    = Some (put dets s led_id det_idx, traj') /\ keys3 traj'.
Proof.
  intros Hled Hdet Hk. destruct s as [ad ai].
  apply lookup_lt_is_Some in Hdet as [d Hd].
  destruct (traj_append_total led_id (det_x d, det_y d) traj Hled Hk)
    as [traj1 Ht1].
  exists traj1. split; [|by eapply traj_append_keys3].
  unfold give_id, put. simpl. rewrite Hd. simpl. by rewrite Ht1.
Qed.

(** The first result loop, over the proximity assignment. *)
Lemma claimed_loop_total dets (a : list (nat * nat)) s traj :
  (forall o n, (o, n) ∈ a -> o < 3 /\ n < length dets) -> keys3 traj ->
  exists traj',
    Py.foldlM (fun s '(old_idx, new_idx) => give_id dets s old_idx new_idx)
              (s, traj) a
    = Some (foldl (fun s '(o, n) => put dets s o n) s a, traj') /\
    keys3 traj'.
Proof.
  revert s traj. induction a as [|[o n] a IH]; intros s traj Ha Hk.
  - by exists traj.
  - destruct (Ha o n) as [Ho Hn]; [left|].
    destruct (give_id_put dets s traj o n Ho Hn Hk) as (traj1 & Hg & Hk1).
    destruct (IH (put dets s o n) traj1) as (traj' & Hf & Hk'); [|done|].
    { intros o' n' Hin. apply Ha. by right. }
    exists traj'. split; [|done]. cbn [Py.foldlM]. rewrite Hg. simpl. by rewrite Hf.
Qed.

(** The second result loop, over the unassigned detections and ids. *)
Lemma fill_loop_total dets (pairs : list (nat * nat)) s traj :
  (forall n k, (n, k) ∈ pairs -> k < 3 /\ n < length dets) -> keys3 traj ->
  exists traj',
    Py.foldlM (fun s '(det_idx, led_id) => give_id dets s led_id det_idx)
              (s, traj) pairs
    = Some (foldl (fun s '(n, k) => put dets s k n) s pairs, traj') /\
    keys3 traj'.
Proof.
  revert s traj. induction pairs as [|[n k] a IH]; intros s traj Ha Hk.
  - by exists traj.
  - destruct (Ha n k) as [Ho Hn]; [left|].
    destruct (give_id_put dets s traj k n Ho Hn Hk) as (traj1 & Hg & Hk1).
    destruct (IH (put dets s k n) traj1) as (traj' & Hf & Hk'); [|done|].
    { intros o' n' Hin. apply Ha. by right. }
    exists traj'. split; [|done]. cbn [Py.foldlM]. rewrite Hg. simpl. by rewrite Hf.
Qed.

(** *** The assignments three slots can produce *)

Lemma match_fold_cases dets slots a (used : gset nat) (used_l : list nat) :
  length dets = 3 ->
  (forall j, j ∈ used <-> j ∈ used_l) ->
  (foldl (match_step dets) (a, used) slots).1
  ∈ assignments_from slots.*1 a used_l.
Proof.
  intros Hlen. revert a used used_l.
  induction slots as [|[o l] slots IH]; intros a used used_l Hused; simpl.
  - by left.
  - pose proof (nearest_unused_spec l dets used) as Hn.
    unfold nearest_spec in Hn.
    destruct (nearest_unused _ _ dets used) as [[j|] bd]; simpl in *.
    + destruct Hn as (Hj & _ & _ & _ & d & Hd%elem_of_enumerate & _).
      apply lookup_lt_Some in Hd as Hlt. rewrite Hlen in Hlt.
      apply elem_of_app. right.
      assert (Hin : (foldl (match_step dets) (a ++ [(o, j)], {[j]} ∪ used) slots).1
                    ∈ assignments_from slots.*1 (a ++ [(o, j)]) (j :: used_l)).
      { apply IH. intros k. rewrite elem_of_union, elem_of_singleton,
          elem_of_cons, Hused. done. }
      rewrite Hused in Hj.
      assert (Hb : bool_decide (j ∈ used_l) = false)
        by (by apply bool_decide_eq_false_2).
      destruct j as [|[|[|j]]]; [| | |lia]; simpl; rewrite Hb;
        rewrite ?elem_of_app; eauto.
    + apply elem_of_app. left. by apply IH.
Qed.

Lemma match_slots_cases last dets :
  length last = 3 -> length dets = 3 ->
  (match_slots last dets).1 ∈ all_assignments.
Proof.
  intros Hlast Hdets. unfold match_slots, all_assignments.
  replace [0; 1; 2] with (Py.enumerate last).*1.
  - apply match_fold_cases; [done|]. intros j. set_solver.
  - destruct last as [|? [|? [|? [|]]]]; done.
Qed.

(** *** Three detections against three previous positions *)

Ltac compute_unassigned :=
  match goal with
  | |- context [unassigned_ids ?e ?a] =>
      let v := eval vm_compute in (unassigned_ids e a) in
      change (unassigned_ids e a) with v
  end.

Ltac solve_ids_spec :=
  split; [by apply (bool_decide_unpack _); vm_compute|];
  split;
  [ intros o n Hin;
    repeat (apply elem_of_cons in Hin as [[= -> ->]|Hin]); try done;
    by apply elem_of_nil in Hin
  | intros [|[|[|n]]] k Hl Hnot; simpl in Hl; try done;
    injection Hl as <-;
    first [ by (exfalso; apply Hnot; apply (bool_decide_unpack _); vm_compute)
          | by (split; apply (bool_decide_unpack _); vm_compute) ] ].

Opaque Py.foldlM.

Lemma assign_three_aux (d0 d1 d2 : Det) (e fc : nat) a traj :
  a ∈ all_assignments -> keys3 traj ->
  exists ids traj',
    (s ← Py.foldlM (fun s '(old_idx, new_idx) =>
                      give_id [d0; d1; d2] s old_idx new_idx)
                   (replicate 3 None, replicate 3 None, traj) a;
     s ← Py.foldlM (fun s '(det_idx, led_id) =>
                      give_id [d0; d1; d2] s led_id det_idx)
                   s (zip (unassigned_dets s.1.1) (unassigned_ids 3 a));
     Some (s.1.1, s.1.2,
           {| expected_leds := e; last_positions := Some [d0; d1; d2];
              led_trajectory := s.2; frame_count := fc |}))
    = Some (Some <$> [d0; d1; d2], ids,
            {| expected_leds := e; last_positions := Some [d0; d1; d2];
               led_trajectory := traj'; frame_count := fc |}) /\
    keys3 traj' /\ ids_spec a ids.
Proof.
  intros Hin Hk.
  assert (Hrange : forall o n, (o, n) ∈ a -> o < 3 /\ n < 3).
  { revert Hin. unfold all_assignments.
    let v := eval vm_compute in (assignments_from [0; 1; 2] [] []) in
    change (assignments_from [0; 1; 2] [] []) with v.
    intros Hin o n Hon.
    repeat (apply elem_of_cons in Hin as [->|Hin]);
      [..|by apply elem_of_nil in Hin];
      repeat (apply elem_of_cons in Hon as [[= -> ->]|Hon]);
      try (by apply elem_of_nil in Hon); lia. }
  destruct (claimed_loop_total [d0; d1; d2] a
              (replicate 3 None, replicate 3 None) traj)
    as (traj1 & -> & Hk1); [done|done|].
  revert Hin. unfold all_assignments.
  let v := eval vm_compute in (assignments_from [0; 1; 2] [] []) in
  change (assignments_from [0; 1; 2] [] []) with v.
  intros Hin.
  repeat (apply elem_of_cons in Hin as [->|Hin]);
    [..|by apply elem_of_nil in Hin].
  all: compute_unassigned; simpl.
  all: match goal with
       | Hk1 : keys3 ?t |- context [Py.foldlM _ (?s, ?t) ?pairs] =>
           destruct (fill_loop_total [d0; d1; d2] pairs s t)
             as (traj2 & -> & Hk2);
           [ intros n k Hnk;
             repeat (apply elem_of_cons in Hnk as [[= -> ->]|Hnk]);
             try (by apply elem_of_nil in Hnk); simpl; lia
           | done | ]
       end.
  all: simpl; eexists _, traj2; split; [reflexivity|]; split; [done|].
  all: solve_ids_spec.
Qed.

Transparent Py.foldlM.

(** *** _assign_led_ids_robust on a detector that satisfies [wf] *)

(** Another number of detections than expected: the early return. *)
Lemma assign_other_count self dets :
  length dets <> expected_leds self ->
  _assign_led_ids_robust dets self
  = Some (Some <$> Py.sorted det_x false dets, iota_ids (length dets), self).
Proof.
  intros Hne. unfold _assign_led_ids_robust.
  rewrite !length_sorted.
  by destruct (Nat.eqb_spec (length dets) (expected_leds self)).
Qed.

(** The first frame with three detections: ids in x order. *)
Lemma assign_first self dets :
  wf self -> last_positions self = None -> length dets = 3 ->
  exists traj',
    _assign_led_ids_robust dets self
    = Some (Some <$> Py.sorted det_x false dets, iota_ids 3,
            with_tracking self (Py.sorted det_x false dets) traj') /\
    keys3 traj'.
Proof.
  intros (He & _ & Hk) Hlast Hlen. unfold _assign_led_ids_robust.
  rewrite !length_sorted, He, Hlen, Hlast. simpl.
  pose proof (length_sorted det_x false dets) as Hs. rewrite Hlen in Hs.
  destruct (Py.sorted det_x false dets) as [|d0 [|d1 [|d2 [|]]]]; try done.
  cbn [Py.enumerate length seq zip zip_with Py.foldlM].
  destruct (traj_append_total 0 (det_x d0, det_y d0) _ ltac:(lia) Hk)
    as [t0 H0].
  pose proof (traj_append_keys3 _ _ _ _ H0 Hk) as Hk0.
  destruct (traj_append_total 1 (det_x d1, det_y d1) _ ltac:(lia) Hk0)
    as [t1 H1].
  pose proof (traj_append_keys3 _ _ _ _ H1 Hk0) as Hk1.
  destruct (traj_append_total 2 (det_x d2, det_y d2) _ ltac:(lia) Hk1)
    as [t2 H2].
  pose proof (traj_append_keys3 _ _ _ _ H2 Hk1) as Hk2.
  rewrite H0. simpl. rewrite H1. simpl. rewrite H2. simpl.
  exists t2. unfold with_tracking. by rewrite He.
Qed.

(** A later frame with three detections. *)
Lemma assign_three self last dets :
  wf self -> last_positions self = Some last -> length dets = 3 ->
  exists ids traj',
    _assign_led_ids_robust dets self
    = Some (Some <$> Py.sorted det_x false dets, ids,
            with_tracking self (Py.sorted det_x false dets) traj') /\
    keys3 traj' /\
    ids_spec (match_slots last (Py.sorted det_x false dets)).1 ids.
Proof.
  intros (He & Hl & Hk) Hlast Hlen. unfold _assign_led_ids_robust.
  rewrite !length_sorted, He, Hlen, Hlast. simpl.
  pose proof (length_sorted det_x false dets) as Hs. rewrite Hlen in Hs.
  pose proof (match_slots_cases last (Py.sorted det_x false dets)
                (Hl _ Hlast) Hs) as Hin.
  destruct (Py.sorted det_x false dets) as [|d0 [|d1 [|d2 [|]]]]; try done.
  destruct (assign_three_aux d0 d1 d2 3 (frame_count self) _
              (led_trajectory self) Hin Hk) as (ids & traj' & Heq & ? & ?).
  exists ids, traj'. split; [|done].
  unfold with_tracking. rewrite He. exact Heq.
Qed.

Lemma iota_ids_NoDup n : NoDup (iota_ids n).
Proof.
  unfold iota_ids. apply NoDup_fmap_2; [by intros ?? [= ->]|].
  apply NoDup_seq.
Qed.

(** [_assign_led_ids_robust] never raises on a [wf] detector: it returns
    the detections in x order, an id for each, no id twice, and a [wf]
    detector. *)
Lemma assign_total self dets :
  wf self ->
  exists ids self',
    _assign_led_ids_robust dets self
    = Some (Some <$> Py.sorted det_x false dets, ids, self') /\
    length ids = length dets /\ Forall is_Some ids /\ NoDup ids /\
    (length dets = 3 -> ids ≡ₚ [Some 0; Some 1; Some 2]) /\
    wf self'.
Proof.
  intros Hwf. pose proof Hwf as (He & Hl & Hk).
  pose proof (length_sorted det_x false dets) as Hs.
  destruct (decide (length dets = 3)) as [Hlen|Hlen].
  - assert (Hperm : forall ids, ids ≡ₚ [Some 0; Some 1; Some 2] ->
              length ids = length dets /\ Forall is_Some ids /\ NoDup ids).
    { intros ids Hp. rewrite Hp, Hlen. split; [done|].
      split; [by repeat constructor|].
      by apply (bool_decide_unpack _). }
    destruct (last_positions self) as [last|] eqn:Hlast.
    + destruct (assign_three self last dets Hwf Hlast Hlen)
        as (ids & traj' & -> & Hk' & Hp & _).
      destruct (Hperm ids Hp) as (? & ? & ?).
      eexists _, _. split; [done|]. repeat split; try done.
      simpl. intros ? [= <-]. by rewrite Hs.
    + destruct (assign_first self dets Hwf Hlast Hlen) as (traj' & -> & Hk').
      destruct (Hperm (iota_ids 3)) as (? & ? & ?); [done|].
      eexists _, _. split; [done|]. repeat split; try done.
      simpl. intros ? [= <-]. by rewrite Hs.
  - rewrite assign_other_count by (by rewrite He).
    eexists _, _. split; [done|]. unfold iota_ids.
    rewrite length_fmap, length_seq. repeat split; try done.
    + apply Forall_fmap, Forall_true. by eexists.
    + apply iota_ids_NoDup.
Qed.

End Tracker.

(** ** detect of the robust detector *)

Section RobustDetect.
Import Final.

Lemma unpack_all (dets : list Det) :
  mapM (fun d : option Det =>
          d ← d;
          Some {| x := det_x d; y := det_y d; confidence := det_conf d;
                  method := "Combinado" |})
       (Some <$> dets)
  = Some (to_led <$> dets).
Proof.
  apply mapM_Some.
  induction dets as [|d dets IH]; simpl; by constructor.
Qed.

Lemma wf_tick self : wf self -> wf (tick self).
Proof. by intros (? & ? & ?). Qed.

(** [detect] in terms of [_assign_led_ids_robust], once the latter has
    returned every detection. *)
Lemma detect_assign frame self dets ids self' :
  _assign_led_ids_robust (cap (expected_leds self) (_merge_detections frame)) self
  = Some (Some <$> dets, ids, self') ->
  detect frame self
  = Some ((length dets =? expected_leds self')%nat, to_led <$> dets, ids,
          tick self').
Proof.
  intros Ha. unfold detect. rewrite Ha. simpl.
  rewrite unpack_all. simpl. by rewrite length_fmap.
Qed.

Lemma assign_keeps_expected self dets r :
  _assign_led_ids_robust dets self = Some r ->
  expected_leds r.2 = expected_leds self.
Proof.
  unfold _assign_led_ids_robust.
  destruct (negb _); [by intros [= <-]|].
  destruct (last_positions self).
  - destruct (Py.foldlM _ _ _) as [s|]; simpl; [|done].
    destruct (Py.foldlM _ _ _) as [s'|]; simpl; [|done]. by intros [= <-].
  - destruct (Py.foldlM _ _ _) as [s|]; simpl; [|done]. by intros [= <-].
Qed.

(** [detect] never raises on a [wf] detector; [success] says whether three
    detections came back. *)
Lemma detect_total frame self :
  wf self ->
  let dets := Py.sorted det_x false (cap 3 (_merge_detections frame)) in
  exists ids self',
    detect frame self
    = Some ((length dets =? 3)%nat, to_led <$> dets, ids, self') /\
    length ids = length dets /\ wf self'.
Proof.
  intros Hwf dets. subst dets. pose proof Hwf as (He & _).
  destruct (assign_total self (cap 3 (_merge_detections frame)) Hwf)
    as (ids & self' & Ha & Hlen & _ & _ & _ & Hwf').
  exists ids, (tick self'). rewrite <- He in Ha.
  rewrite (detect_assign _ _ _ _ _ Ha).
  apply assign_keeps_expected in Ha. simpl in Ha. rewrite Ha, He.
  split; [done|]. split; [|by apply wf_tick].
  by rewrite Hlen, length_sorted.
Qed.

(** Every reachable detector satisfies the invariant. *)
Lemma reachable_wf self : reachable self -> wf self.
Proof.
  induction 1 as [|frame self r _ IH Hd]; [apply wf_default|].
  destruct (detect_total frame self IH) as (ids & self' & Hd' & _ & Hwf).
  rewrite Hd in Hd'. by injection Hd' as ->.
Qed.

End RobustDetect.

Section RobustExamples.
Import Final Frames.

Example detect_frame_a :
  detect [frame_a] default
  = Some (true, to_led <$> frame_a, [Some 0; Some 1; Some 2], tracked_a).
Proof. vm_compute. reflexivity. Qed.

(** [tracked_a] and [tracked_c] are states the detector reaches after one
    frame. *)
Lemma reachable_tracked_a : reachable tracked_a.
Proof.
  exact (reach_detect [frame_a] default _ reach_init detect_frame_a).
Qed.



Lemma wf_tracked_a : wf tracked_a.
Proof. exact (reachable_wf _ reachable_tracked_a). Qed.


(** The pattern moved 60 px to the left: every LED is handed another id. *)
Example assign_frame_b :
  (r ← _assign_led_ids_robust frame_b tracked_a; Some (r.1.1, r.1.2))
  = Some (Some <$> frame_b, [Some 2; Some 0; Some 1]).
Proof. vm_compute. reflexivity. Qed.

(** Slot 0 follows its LED from (100, 100) to (110, 95). *)
Example assign_frame_c :
  (r ← _assign_led_ids_robust frame_c tracked_c; Some (r.1.1, r.1.2))
  = Some (Some <$> frame_c, [Some 0; Some 1; Some 2]).
Proof. vm_compute. reflexivity. Qed.

Example merge_pair_15 : _merge_detections pair_15 = [(3.75, 0, 0.5)%float].
Proof. vm_compute. reflexivity. Qed.

Example merge_pair_25 :
  _merge_detections pair_25 = [(0, 0, 0.75)%float; (25, 0, 0.25)%float].
Proof. vm_compute. reflexivity. Qed.

End RobustExamples.

(** ** Results on the robust detector *)

Section RobustResults.
Import Final Frames.

(** C10: whenever the number of fused detections differs from the expected
    count 3, [_assign_led_ids_robust] takes the early return: it hands back
    the detections sorted by ascending x (a rearrangement of the input in
    which no element is below its predecessor) with the ids 0..n-1 in that
    order, whatever the previous positions are, and leaves the detector,
    hence [last_positions] and the trajectories, as it was. *)
Theorem assign_bypass_other_count (self : RobustLEDDetector) (dets : list Det) :
  expected_leds self = 3 -> length dets <> 3 ->
  _assign_led_ids_robust dets self
  = Some (Some <$> Py.sorted det_x false dets,
          Some <$> seq 0 (length dets), self) /\
  Py.sorted det_x false dets ≡ₚ dets /\
  ascending det_x (Py.sorted det_x false dets).
Proof.
  intros He Hlen. split; [|split].
  - apply assign_other_count. by rewrite He.
  - apply sorted_perm.
  - apply sorted_ascending.
Qed.

Lemma assign_bypass_other_count_witness :
  _assign_led_ids_robust frame_two tracked_a
  = Some (Some <$> Py.sorted det_x false frame_two,
          Some <$> seq 0 (length frame_two), tracked_a) /\
  Py.sorted det_x false frame_two ≡ₚ frame_two /\
  ascending det_x (Py.sorted det_x false frame_two).
Proof.
  apply (assign_bypass_other_count tracked_a frame_two); [reflexivity|].
  simpl. lia.
Defined.

(** C6: in [_assign_led_ids_robust] the assignment of a frame is mutually
    exclusive.  On a detector built by [RobustLEDDetector()] the call
    returns every detection with an id and no id twice; in the proximity
    assignment no slot claims two detections and no detection is claimed by
    two slots, and a claimed detection carries the id of its slot; with
    exactly 3 detections the ids are a permutation of 0, 1, 2 with no
    entry left unassigned. *)
Theorem assign_mutually_exclusive (self : RobustLEDDetector) (dets : list Det) :
  wf self ->
  exists ids self',
    _assign_led_ids_robust dets self
    = Some (Some <$> Py.sorted det_x false dets, ids, self') /\
    Forall is_Some ids /\ NoDup ids /\
    (length dets = 3 -> ids ≡ₚ [Some 0; Some 1; Some 2]) /\
    (forall last, last_positions self = Some last -> length dets = 3 ->
       let a := (match_slots last (Py.sorted det_x false dets)).1 in
       NoDup a.*1 /\ NoDup a.*2 /\
       forall o n, (o, n) ∈ a -> ids !! n = Some (Some o)).
Proof.
  intros Hwf.
  destruct (assign_total self dets Hwf)
    as (ids & self' & Ha & _ & Hsome & Hnd & Hperm & _).
  exists ids, self'. do 4 (split; [done|]).
  intros last Hlast Hlen a. subst a.
  split; [apply match_slots_spec|]. split; [apply match_slots_spec|].
  intros o n Hon.
  destruct (assign_three self last dets Hwf Hlast Hlen)
    as (ids' & traj' & Ha' & _ & _ & Hclaimed & _).
  rewrite Ha in Ha'. injection Ha' as -> _. by apply Hclaimed.
Qed.

Lemma assign_mutually_exclusive_witness :
  exists ids self',
    _assign_led_ids_robust frame_b tracked_a
    = Some (Some <$> Py.sorted det_x false frame_b, ids, self') /\
    Forall is_Some ids /\ NoDup ids /\
    (length frame_b = 3 -> ids ≡ₚ [Some 0; Some 1; Some 2]) /\
    (forall last, last_positions tracked_a = Some last -> length frame_b = 3 ->
       let a := (match_slots last (Py.sorted det_x false frame_b)).1 in
       NoDup a.*1 /\ NoDup a.*2 /\
       forall o n, (o, n) ∈ a -> ids !! n = Some (Some o)).
Proof. exact (assign_mutually_exclusive tracked_a frame_b wf_tracked_a). Defined.




End RobustResults.

(** ** Fusion and the cap of detect *)

Section Fusion.
Import Final Frames.

Lemma absorb_seed i seed all_detections used :
  seed_of (absorb i seed all_detections used).1 = Some seed.
Proof.
  unfold absorb.
  apply (foldl_inv (fun acc => seed_of acc.1 = Some seed)); [done|].
  intros [cluster u] [j d2] _ Hc. unfold absorb_step.
  destruct (_ || _); [done|]. destruct (Py.lt _ _); [|done].
  simpl in *. by destruct cluster.
Qed.

(** The fused points come out in the order of their seeds in the
    confidence-sorted candidate list. *)
Lemma merge_sorted_seeds all_detections :
  exists clusters seeds,
    merge_sorted all_detections = fuse <$> clusters /\
    Forall2 (fun c s => seed_of c = Some s) clusters seeds /\
    seeds `sublist_of` all_detections.
Proof.
  unfold merge_sorted.
  assert (Hgen : forall pre,
    exists clusters seeds,
      (foldl (merge_step all_detections) ([], ∅) (Py.enumerate pre)).1
      = fuse <$> clusters /\
      Forall2 (fun c s => seed_of c = Some s) clusters seeds /\
      seeds `sublist_of` pre).
  { induction pre as [|d pre IH] using rev_ind.
    - exists [], []. simpl. repeat split; constructor.
    - destruct IH as (clusters & seeds & Hm & Hs & Hsub).
      rewrite enumerate_snoc, foldl_app. simpl.
      destruct (foldl _ _ (Py.enumerate pre)) as [merged used]. simpl in Hm.
      unfold merge_step. case_bool_decide.
      + exists clusters, seeds. split; [done|]. split; [done|].
        by apply sublist_inserts_r.
      + pose proof (absorb_seed (length pre) d all_detections used) as Hseed.
        destruct (absorb _ _ _ _) as [cluster used']. simpl in *.
        exists (clusters ++ [cluster]), (seeds ++ [d]).
        rewrite fmap_app, Hm. split; [done|]. split.
        * apply Forall2_app; [done|]. by constructor.
        * by apply sublist_app. }
  apply Hgen.
Qed.





(** C8, as the code has it: when fusion yields more than 3 points,
    [detect] passes on exactly the first 3 in the order fusion emitted them
    (they come back sorted by x); that order is the order of the clusters'
    seeds in the candidate list sorted by descending confidence, and the
    confidences of the fused points themselves are not compared. *)
Theorem detect_caps_to_first_three (frame : list (list Det))
    (self : RobustLEDDetector) :
  wf self -> 3 < length (_merge_detections frame) ->
  let kept := take 3 (_merge_detections frame) in
  length kept = 3 /\
  cap (expected_leds self) (_merge_detections frame) = kept /\
  (exists ids self',
     detect frame self
     = Some (true, to_led <$> Py.sorted det_x false kept, ids, self')) /\
  (exists clusters seeds,
     _merge_detections frame = fuse <$> clusters /\
     Forall2 (fun c s => seed_of c = Some s) clusters seeds /\
     seeds `sublist_of` Py.sorted det_conf true (concat frame)).
Proof.
  intros Hwf Hlen kept. pose proof Hwf as (He & _).
  assert (Hcap : cap 3 (_merge_detections frame) = kept).
  { unfold cap. by destruct (Nat.ltb_spec 3 (length (_merge_detections frame)));
      [|lia]. }
  assert (Hk : length kept = 3).
  { unfold kept. rewrite length_take. lia. }
  split; [done|]. split; [by rewrite He|]. split.
  - destruct (detect_total frame self Hwf) as (ids & self' & Hd & _).
    rewrite Hcap, length_sorted, Hk in Hd. by exists ids, self'.
  - unfold _merge_detections in *.
    destruct (concat frame) as [|d l] eqn:Hc; [simpl in Hlen; lia|].
    destruct (merge_sorted_seeds (Py.sorted det_conf true (d :: l)))
      as (clusters & seeds & Hm & Hs & Hsub).
    by exists clusters, seeds.
Qed.

Lemma detect_caps_to_first_three_witness :
  exists ids self',
    detect crowded default
    = Some (true,
            to_led <$> Py.sorted det_x false (take 3 (_merge_detections crowded)),
            ids, self').
Proof.
  apply (detect_caps_to_first_three crowded default wf_default).
  vm_compute. lia.
Defined.

(** C8 as stated fails on [crowded]: fusion yields four points, the cap
    keeps the first three, among them the one of confidence 0.5, and drops
    the fourth, whose confidence 0.5625 is higher. *)
Lemma cap_drops_higher_confidence_counterexample :
  _merge_detections crowded
  = [(1.25, 0, 0.5); (100, 0, 0.75); (200, 0, 0.625); (300, 0, 0.5625)]%float /\
  cap 3 (_merge_detections crowded)
  = [(1.25, 0, 0.5); (100, 0, 0.75); (200, 0, 0.625)]%float /\
  (r ← detect crowded default; Some r.1.1.2)
  = Some (to_led <$> [(1.25, 0, 0.5); (100, 0, 0.75); (200, 0, 0.625)]%float) /\
  Py.lt 0.5 0.5625 = true.
Proof. vm_compute. auto. Qed.

End Fusion.

(** ** The strict detector *)

Section Strict.
Import Estricto.
Context {K : Type} `{KalmanTracker K}.
Implicit Types (self : StrictLEDDetector K) (triplet : list Blob).

Lemma foldlM_snoc {A B} (f : B -> A -> option B) b l a :
  Py.foldlM f b (l ++ [a]) = b' ← Py.foldlM f b l; f b' a.
Proof.
  revert b. induction l as [|x l IH]; intros b; simpl.
  - by destruct (f b a).
  - destruct (f b x); simpl; [apply IH | done].
Qed.

(** On three points or more the geometry is computed without an
    [IndexError]. *)
Lemma calculate_geometry_total triplet :
  3 <= length triplet -> is_Some (_calculate_geometry triplet).
Proof.
  intros Hlen. unfold _calculate_geometry.
  pose proof (length_sorted blob_x false triplet) as Hs.
  destruct (Py.sorted blob_x false triplet) as [|s0 [|s1 [|s2 rest]]];
    simpl in Hs; try lia.
  destruct (_ || _); [by eexists|]. destruct (Py.lt _ 1); by eexists.
Qed.

Lemma validate_total self triplet :
  3 <= length triplet -> is_Some (_validate_triplet self triplet).
Proof.
  intros [[[[c r] d12] d23] Hg]%calculate_geometry_total.
  unfold _validate_triplet. rewrite Hg. simpl.
  repeat (destruct (_ : bool); [by eexists|]). by eexists.
Qed.

Lemma score_total triplet : 3 <= length triplet -> is_Some (score triplet).
Proof.
  intros [[[[c r] d12] d23] Hg]%calculate_geometry_total.
  unfold score. rewrite Hg. by eexists.
Qed.

Lemma best_fold_spec self (seen : list (list Blob)) :
  Forall (fun t => 3 <= length t) seen ->
  exists acc, Py.foldlM (best_step self) (None, infinity) seen = Some acc /\
              best_spec self seen acc.
Proof.
  induction seen as [|t seen IH] using rev_ind; intros Hlen.
  - exists (None, infinity). split; [done|]. split; [done|].
    by intros t s ?%elem_of_nil.
  - apply Forall_app in Hlen as [Hseen Ht]. apply Forall_inv in Ht.
    destruct (IH Hseen) as ([best bs] & Hf & Hspec). clear IH.
    rewrite foldlM_snoc, Hf. simpl.
    destruct (validate_total self t Ht) as [v Hv].
    destruct (score_total t Ht) as [s Hs].
    unfold best_step. rewrite Hv. simpl.
    unfold best_spec in *. simpl in *.
    assert (Hkeep : v = false \/ Py.lt s bs = false ->
      match best with
      | Some b =>
          b ∈ seen ++ [t] /\ _validate_triplet self b = Some true /\
          score b = Some bs /\ Py.lt bs infinity = true /\
          forall t0 s0, t0 ∈ seen ++ [t] ->
            _validate_triplet self t0 = Some true ->
            score t0 = Some s0 -> Py.lt s0 bs = false
      | None =>
          bs = infinity /\
          forall t0 s0, t0 ∈ seen ++ [t] ->
            _validate_triplet self t0 = Some true ->
            score t0 = Some s0 -> Py.lt s0 infinity = false
      end).
    { intros Hskip. destruct best as [b|].
      - destruct Hspec as (Hin & Hvb & Hsb & Hinf & Hmin).
        repeat split; try done; [apply elem_of_app; by left|].
        intros t0 s0 [Hin0| ->%list_elem_of_singleton]%elem_of_app Hv0 Hs0.
        + by eapply Hmin.
        + destruct Hskip as [->|Hlt]; congruence.
      - destruct Hspec as (-> & Hall). split; [done|].
        intros t0 s0 [Hin0| ->%list_elem_of_singleton]%elem_of_app Hv0 Hs0.
        + by eapply Hall.
        + destruct Hskip as [->|Hlt]; congruence. }
    destruct v; simpl; [|eexists; split; [done|]; apply Hkeep; by left].
    rewrite Hs. simpl.
    destruct (Py.lt s bs) eqn:Hlt;
      [|eexists; split; [done|]; apply Hkeep; by right].
    clear Hkeep. eexists. split; [done|]. simpl.
    assert (Hinf : Py.lt s infinity = true).
    { destruct best as [b|].
      - destruct Hspec as (_ & _ & _ & Hinf & _). by eapply lt_trans.
      - by destruct Hspec as (-> & _). }
    repeat split; try done; [apply elem_of_app; right; by left|].
    intros t0 s0 [Hin0| ->%list_elem_of_singleton]%elem_of_app Hv0 Hs0.
    + destruct best as [b|].
      * destruct Hspec as (_ & _ & _ & _ & Hmin).
        eapply not_lt_below; [exact Hlt|]. by eapply Hmin.
      * destruct Hspec as (-> & Hall).
        eapply not_lt_below; [exact Hinf|]. by eapply Hall.
    + rewrite Hs in Hs0. injection Hs0 as <-. apply lt_irrefl.
Qed.

(** [_find_best_triplet] never raises, and what it returns is described by
    [best_spec] over all combinations of three blobs. *)
Lemma find_best_triplet_spec self blobs :
  exists best bs,
    _find_best_triplet self blobs = Some best /\
    best_spec self (Py.combinations 3 blobs) (best, bs).
Proof.
  unfold _find_best_triplet.
  destruct (Nat.ltb_spec (length blobs) 3) as [Hlt|Hge].
  - exists None, infinity. split; [done|].
    rewrite combinations_short by done. split; [done|].
    by intros t s ?%elem_of_nil.
  - destruct (best_fold_spec self (Py.combinations 3 blobs))
      as ([best bs] & -> & Hspec).
    { apply Forall_forall. intros t Ht.
      by rewrite (length_combinations 3 blobs t Ht). }
    by exists best, bs.
Qed.



End Strict.

(** ** Results on the strict detector *)

Section StrictResults.
Import Estricto.

(** C2: for p1 = (0, 0), p3 = (200, 0), p2 = (100, D) the computed
    collinearity error is D, for D = 0, 3 and 10; with the default
    tolerances the triplet is accepted for D = 3 (and D = 0) and rejected
    for D = 10. *)
Theorem perpendicular_offset (K : Type) (c1 c2 c3 : float) :
  collinearity_error_of (offset_triplet 0 c1 c2 c3) = Some 0%float /\
  collinearity_error_of (offset_triplet 3 c1 c2 c3) = Some 3%float /\
  collinearity_error_of (offset_triplet 10 c1 c2 c3) = Some 10%float /\
  _validate_triplet (K := K) default (offset_triplet 0 c1 c2 c3) = Some true /\
  _validate_triplet (K := K) default (offset_triplet 3 c1 c2 c3) = Some true /\
  _validate_triplet (K := K) default (offset_triplet 10 c1 c2 c3) = Some false.
Proof. vm_compute. auto 10. Qed.

Context {K : Type} `{KalmanTracker K}.
Implicit Types (self : StrictLEDDetector K).


(** C4: when the x-sorted points of a triplet are degenerate (d12, d23
    or the p1-p3 baseline below 1 px), [_calculate_geometry] returns the
    sentinel (inf, inf, 0, 0) instead of dividing; under any finite
    collinearity tolerance the triplet fails validation and is never the
    triplet [_find_best_triplet] returns. *)
Theorem degenerate_triplet_rejected self (triplet : list Blob)
    (s1 s2 s3 : Blob) (rest : list Blob) :
  Py.lt (max_collinearity_error self) infinity = true ->
  Py.sorted blob_x false triplet = s1 :: s2 :: s3 :: rest ->
  let p1 := (blob_x s1, blob_y s1) in
  let p2 := (blob_x s2, blob_y s2) in
  let p3 := (blob_x s3, blob_y s3) in
  Py.lt (norm (vsub p2 p1)) 1 = true \/
  Py.lt (norm (vsub p3 p2)) 1 = true \/
  Py.lt (norm (vsub p3 p1)) 1 = true ->
  _calculate_geometry triplet = Some (infinity, infinity, 0, 0)%float /\
  _validate_triplet self triplet = Some false /\
  forall blobs, _find_best_triplet self blobs <> Some (Some triplet).
Proof.
  intros Hfin Hs p1 p2 p3 Hdeg.
  assert (Hg : _calculate_geometry triplet
               = Some (infinity, infinity, 0, 0)%float).
  { unfold _calculate_geometry. rewrite Hs. fold p1 p2 p3.
    destruct (Py.lt (norm (vsub p2 p1)) 1) eqn:H12; [done|].
    destruct (Py.lt (norm (vsub p3 p2)) 1) eqn:H23; [done|]. simpl.
    destruct Hdeg as [Hd|[Hd|Hd]]; [congruence|congruence|].
    by rewrite Hd. }
  assert (Hv : _validate_triplet self triplet = Some false).
  { unfold _validate_triplet. rewrite Hg. simpl.
    unfold Py.gt. unfold Py.lt in Hfin. by rewrite Hfin. }
  split; [done|]. split; [done|].
  intros blobs Hbest.
  destruct (find_best_triplet_spec self blobs) as (best & bs & Hf & Hspec).
  rewrite Hbest in Hf. injection Hf as <-.
  destruct Hspec as (_ & Hv' & _). congruence.
Qed.

End StrictResults.

Section StrictExamples.
Import Estricto Blobs.
Local Open Scope float_scope.

Lemma degenerate_triplet_rejected_witness :
  _calculate_geometry doubled = Some (infinity, infinity, 0, 0) /\
  _validate_triplet (K := float * float) default doubled = Some false /\
  forall blobs,
    _find_best_triplet (K := float * float) default blobs <> Some (Some doubled).
Proof.
  apply (degenerate_triplet_rejected (K := float * float) default doubled
           (100, 300, 0.9) (100, 300, 0.8) (300, 300, 0.9) []);
    [reflexivity | reflexivity | left; reflexivity].
Defined.

Example detect_scenario :
  (r ← detect scenario (default (K := float * float));
   Some (r.1.1.1.1, length r.1.1.1.2, r.1.1.2, r.1.2))
  = Some (true, 3%nat, 0, 1).
Proof. vm_compute. reflexivity. Qed.

(** With the extra blob two combinations pass; the collinear one wins. *)
Example best_of_scenario_extra :
  _find_best_triplet (default (K := float * float)) scenario_extra
  = Some (Some scenario).
Proof. vm_compute. reflexivity. Qed.


Example detect_empty :
  (r ← detect [] (default (K := float * float)); Some (r.1.1.1.1, r.1.1.1.2))
  = Some (false, []).
Proof. vm_compute. reflexivity. Qed.

End StrictExamples.

(** ** The success flag of a frame *)

Section Success.





Example process_frame_a :
  (vp ← Final.process_frame 24 0 [Frames.frame_a] Final.new_processor;
   Some ((fun r => (Final.success r, Final.num_leds r, Final.led_ids r))
           <$> Final.results vp))
  = Some [(true, 3, [Some 0; Some 1; Some 2])].
Proof. vm_compute. reflexivity. Qed.

Example process_frame_two :
  (vp ← Final.process_frame 24 0 [Frames.frame_two] Final.new_processor;
   Some ((fun r => (Final.success r, Final.num_leds r, Final.led_ids r))
           <$> Final.results vp))
  = Some [(false, 2, [Some 0; Some 1])].
Proof. vm_compute. reflexivity. Qed.

End Success.

(** ** The outlier filter of calculate_error_statistics *)

Section OutlierFilter.
Import Final.
Variable np_percentile : list float -> nat -> float.


Lemma filter_outliers_sublist positions :
  filter_outliers np_percentile positions `sublist_of` positions.
Proof.
  unfold filter_outliers. destruct positions as [|p l]; [done|].
  generalize (valid_mask (iqr_bounds np_percentile (p :: l))). intros f.
  induction (p :: l) as [|q l' IH]; simpl; [done|].
  destruct (f q); by constructor.
Qed.




End OutlierFilter.

Section OutlierExample.
Import Final Drift.
Local Open Scope float_scope.

Example processed_led0_value :
  processed_led0
  = [(0, 0); (1, 0); (2, 0); (3, 0); (4, 0); (5, 0); (6, 0); (7, 0);
     (5000, 5000)].
Proof. vm_compute. reflexivity. Qed.

(** The sample at (5000, 5000) is the only one dropped; the statistics
    are those of the other eight. *)
Example processed_led0_filtered :
  filter_outliers Py.percentile_linear processed_led0
  = [(0, 0); (1, 0); (2, 0); (3, 0); (4, 0); (5, 0); (6, 0); (7, 0)] /\
  (s ← calculate_error_statistics Py.percentile_linear processed;
   match s with
   | NoStats => None
   | MkStats _ _ leds =>
       st ← leds !! 0%nat; Some (detected_frames st, mean_position st)
   end) = Some (8%nat, Some (3.5, 0)).
Proof. vm_compute. auto. Qed.


End OutlierExample.

(** ** The tracker of led_detector_video_output.py *)

Section VideoOutputFacts.
Import VideoOutput.

Lemma nearest_old_spec x_new y_new last used_ids j :
  (nearest_old x_new y_new last used_ids).1 = Some j ->
  (j ∉ used_ids) /\ j < length last.
Proof.
  unfold nearest_old.
  apply (foldl_inv (fun acc : option nat * float =>
           acc.1 = Some j -> (j ∉ used_ids) /\ j < length last)); [done|].
  intros [best bd] [old_id d_old] Hin IH. unfold nearest_old_step.
  case_bool_decide as Hused; [done|].
  destruct (_ && _); [|done]. simpl. intros [= <-]. split; [done|].
  apply elem_of_enumerate in Hin. by eapply lookup_lt_Some.
Qed.

Lemma first_unused_Some used_ids i :
  first_unused used_ids = Some i -> (i ∉ used_ids) /\ i < expected_leds.
Proof.
  unfold first_unused. intros Hf. apply find_some in Hf as [Hin Hb].
  apply negb_true_iff, bool_decide_eq_false in Hb. split; [done|].
  apply in_seq in Hin. simpl in Hin. lia.
Qed.

Lemma first_unused_None used_ids :
  first_unused used_ids = None -> expected_leds <= size used_ids.
Proof.
  unfold first_unused. intros Hf.
  assert (Hsub : ({[0; 1; 2]} : gset nat) ⊆ used_ids).
  { intros i Hi.
    assert (Hin : In i (seq 0 expected_leds)).
    { apply in_seq. unfold expected_leds. set_unfold in Hi. lia. }
    pose proof (find_none _ _ Hf i Hin) as Hb.
    by apply negb_false_iff, bool_decide_eq_true in Hb. }
  apply subseteq_size in Hsub. by vm_compute in Hsub |- *.
Qed.

Lemma assign_fold_inv last detections :
  assign_inv last detections (foldl (assign_step last) ([], ∅) detections).
Proof.
  induction detections as [|d seen IH] using rev_ind.
  - split; simpl; try done; [constructor | by intros a ?%elem_of_nil].
  - rewrite foldl_app. simpl.
    destruct (foldl _ _ seen) as [assigned used_ids].
    destruct IH as [Hused Hnd Hpts Hbound Hfull]. simpl in *.
    destruct d as [[x_new y_new] conf_new]. unfold assign_step.
    assert (Hadd : forall i, i ∉ used_ids ->
              i < Nat.max (length last) expected_leds ->
              assign_inv last (seen ++ [(x_new, y_new, conf_new)])
                (assigned ++ [(i, x_new, y_new, conf_new)], {[i]} ∪ used_ids)).
    { intros i Hi Hlt. split; simpl.
      - rewrite fmap_app, list_to_set_app_L, <- Hused. simpl.
        apply set_eq. intros z. set_unfold. tauto.
      - rewrite fmap_app. apply NoDup_app. split; [done|].
        split; [|apply NoDup_singleton].
        intros k Hk ->%list_elem_of_singleton.
        apply Hi. rewrite Hused. by apply elem_of_list_to_set.
      - rewrite fmap_app. by apply sublist_app.
      - intros a [Ha| ->%list_elem_of_singleton]%elem_of_app;
          [by apply Hbound | done].
      - rewrite !length_app. simpl. intros Hle. rewrite Hfull; lia. }
    destruct (nearest_old x_new y_new last used_ids) as [[j|] bd] eqn:Hn;
      simpl.
    + destruct (nearest_old_spec x_new y_new last used_ids j) as [Hj Hlt];
        [by rewrite Hn|].
      apply Hadd; [done|lia].
    + destruct (first_unused used_ids) as [i|] eqn:Hf.
      * apply first_unused_Some in Hf as [Hi Hlt]. apply Hadd; [done|lia].
      * apply first_unused_None in Hf. split; simpl; try done.
        -- by apply sublist_inserts_r.
        -- rewrite length_app. simpl. intros Hle.
           rewrite Hused, size_list_to_set in Hf by done.
           rewrite length_fmap, Hfull in Hf by lia. lia.
Qed.

Lemma sublist_full {A} (l1 l2 : list A) :
  l1 `sublist_of` l2 -> length l1 = length l2 -> l1 = l2.
Proof.
  induction 1 as [|x l1 l2 Hsub IH|x l1 l2 Hsub IH]; simpl; intros Hlen.
  - done.
  - f_equal. apply IH. lia.
  - apply sublist_length in Hsub. lia.
Qed.

Lemma enumerate_ids {A} (l : list A) : (Py.enumerate l).*1 = seq 0 (length l).
Proof.
  unfold Py.enumerate. apply fst_zip. by rewrite length_seq.
Qed.

Lemma enumerate_values {A} (l : list A) : (Py.enumerate l).*2 = l.
Proof.
  unfold Py.enumerate. apply snd_zip. by rewrite length_seq.
Qed.

(** The list comprehension of the reseeding branch. *)
Lemma reseed_ids (l : list Det) :
  assigned_id <$> ((fun '(i, (x, y, c)) => (i, x, y, c)) <$> Py.enumerate l)
  = seq 0 (length l).
Proof.
  rewrite <- enumerate_ids, <- list_fmap_compose.
  apply list_fmap_ext. by intros _ [i [[x y] c]] _.
Qed.

Lemma reseed_points (l : list Det) :
  assigned_point <$> ((fun '(i, (x, y, c)) => (i, x, y, c)) <$> Py.enumerate l)
  = l.
Proof.
  rewrite <- (enumerate_values l) at 2. rewrite <- list_fmap_compose.
  apply list_fmap_ext. by intros _ [i [[x y] c]] _.
Qed.

Lemma video_assign_ids_nodup (detections : list Det) (self : VideoMarker) :
  NoDup (assigned_id <$> (_assign_led_ids detections self).1).
Proof.
  unfold _assign_led_ids. destruct (Py.sorted _ _ _) as [|d ds]; [constructor|].
  assert (Hreseed : NoDup (assigned_id <$>
            ((fun '(i, (x, y, c)) => (i, x, y, c)) <$> Py.enumerate (d :: ds)))).
  { rewrite reseed_ids. apply NoDup_seq. }
  destruct (last_positions self) as [last|]; [|exact Hreseed].
  destruct (negb _); [exact Hreseed|].
  by destruct (assign_fold_inv last (d :: ds)).
Qed.

(** X1: [_assign_led_ids] never gives one id to two detections.  The
    detections it returns are detections of the frame, in ascending-x order,
    and when the frame has any they become [last_positions], in that order;
    on a frame without detections it returns the empty list and leaves the
    marker as it was. *)
Theorem video_assign_ids_distinct (detections : list Det) (self : VideoMarker) :
  let r := _assign_led_ids detections self in
  let sorted := Py.sorted (fun d : Det => d.1.1) false detections in
  NoDup (assigned_id <$> r.1) /\
  assigned_point <$> r.1 `sublist_of` sorted /\
  (detections = [] -> r = ([], self)) /\
  (detections <> [] -> last_positions r.2 = Some (assigned_point <$> r.1)).
Proof.
  intros r sorted. subst r. unfold _assign_led_ids. fold sorted.
  assert (Hnil : detections = [] <-> sorted = []).
  { split; [by intros ->|]. intros Hs.
    apply (f_equal length) in Hs. unfold sorted in Hs.
    rewrite length_sorted in Hs. by destruct detections. }
  destruct sorted as [|d ds] eqn:Hs.
  { simpl. split; [constructor|]. split; [done|]. split; [done|].
    intros Hne. destruct Hne. by apply Hnil. }
  assert (Hreseed :
    let r := ((fun '(i, (x, y, c)) => (i, x, y, c)) <$> Py.enumerate (d :: ds),
              {| led_positions := led_positions self;
                 last_positions := Some (d :: ds);
                 frame_count := frame_count self |}) in
    NoDup (assigned_id <$> r.1) /\
    assigned_point <$> r.1 `sublist_of` d :: ds /\
    (detections = [] -> r = ([], self)) /\
    (detections <> [] -> last_positions r.2 = Some (assigned_point <$> r.1))).
  { intros r. subst r. cbn [fst snd last_positions].
    rewrite reseed_ids, reseed_points.
    split; [apply NoDup_seq|]. split; [done|]. split; [|done].
    intros ?%Hnil. done. }
  destruct (last_positions self) as [last|]; [|exact Hreseed].
  destruct (negb _); [exact Hreseed|].
  destruct (assign_fold_inv last (d :: ds)) as [_ Hnd Hpts _ _].
  cbn [fst snd last_positions]. split; [done|]. split; [done|].
  split; [|done]. by intros ?%Hnil.
Qed.

(** X2: with at most 3 detections in the frame, [_assign_led_ids] returns
    every one of them, each with an id below 3. *)
Theorem video_assign_none_dropped (detections : list Det) (self : VideoMarker) :
  length detections <= 3 ->
  let r := _assign_led_ids detections self in
  assigned_point <$> r.1 = Py.sorted (fun d : Det => d.1.1) false detections /\
  forall a, a ∈ r.1 -> assigned_id a < 3.
Proof.
  intros Hlen r. subst r. unfold _assign_led_ids.
  pose proof (length_sorted (fun d : Det => d.1.1) false detections) as Hs.
  destruct (Py.sorted _ false detections) as [|d ds] eqn:Hsorted.
  { split; [done|]. by intros a ?%elem_of_nil. }
  assert (Hreseed :
    let r := ((fun '(i, (x, y, c)) => (i, x, y, c)) <$> Py.enumerate (d :: ds),
              {| led_positions := led_positions self;
                 last_positions := Some (d :: ds);
                 frame_count := frame_count self |}) in
    assigned_point <$> r.1 = d :: ds /\ forall a, a ∈ r.1 -> assigned_id a < 3).
  { intros r. subst r. cbn [fst snd]. split; [apply reseed_points|].
    intros a Ha.
    assert (Hin : assigned_id a ∈ seq 0 (length (d :: ds))).
    { rewrite <- reseed_ids. apply list_elem_of_fmap. by exists a. }
    apply elem_of_seq in Hin. lia. }
  destruct (last_positions self) as [last|]; [|exact Hreseed].
  destruct (Nat.eqb_spec (length last) (length (d :: ds))) as [Heq|Hne];
    [|exact Hreseed].
  cbn [negb fst snd].
  destruct (assign_fold_inv last (d :: ds)) as [_ _ Hpts Hbound Hfull].
  split.
  - apply sublist_full; [done|].
    rewrite length_fmap. apply Hfull. unfold expected_leds. lia.
  - intros a Ha. apply Hbound in Ha. unfold expected_leds in Ha. lia.
Qed.

(** *** process_video *)

Variable np_std : list float -> float.

Lemma foldlM_app {A B} (f : B -> A -> option B) b l1 l2 :
  Py.foldlM f b (l1 ++ l2) = b' ← Py.foldlM f b l1; Py.foldlM f b' l2.
Proof.
  revert b. induction l1 as [|x l1 IH]; intros b; simpl; [done|].
  destruct (f b x); simpl; [apply IH | done].
Qed.

Lemma recorded_absent k assigned :
  k ∉ assigned_id <$> assigned -> recorded k assigned = [].
Proof.
  unfold recorded. induction assigned as [|a l IH]; simpl; [done|].
  intros Hnotin. apply not_elem_of_cons in Hnotin as [Hne Hnotin].
  rewrite filter_cons. destruct (decide (assigned_id a = k)); [done|].
  by apply IH.
Qed.

Lemma recorded_le_1 k assigned :
  NoDup (assigned_id <$> assigned) -> length (recorded k assigned) <= 1.
Proof.
  induction assigned as [|a l IH]; simpl; [unfold recorded; simpl; lia|].
  intros [Hnotin Hnd]%NoDup_cons. unfold recorded. rewrite filter_cons.
  destruct (decide (assigned_id a = k)) as [<-|Hne]; [|by apply IH].
  pose proof (recorded_absent _ _ Hnotin) as Habs. unfold recorded in Habs.
  rewrite fmap_cons, Habs. simpl. lia.
Qed.

Lemma record_positions_spec assigned positions :
  keys3 positions ->
  exists positions',
    record_positions assigned positions = Some positions' /\
    forall k, k < expected_leds ->
      exists l, positions !! k = Some l /\
                positions' !! k = Some (l ++ recorded k assigned).
Proof.
  intros Hkeys. unfold record_positions.
  induction assigned as [|a assigned IH] using rev_ind.
  - exists positions. split; [done|]. intros k Hk.
    destruct (Hkeys k Hk) as [l Hl]. exists l. by rewrite app_nil_r.
  - destruct IH as (mid & Hmid & Hspec). rewrite foldlM_snoc, Hmid. simpl.
    destruct (Nat.ltb_spec (assigned_id a) expected_leds) as [Hlt|Hge].
    + destruct (Hspec _ Hlt) as (la & Hla & Hla').
      unfold Final.traj_append. rewrite Hla'. simpl. eexists. split; [done|].
      intros k Hk. destruct (Hspec k Hk) as (l & Hl & Hl'). exists l.
      split; [done|]. unfold recorded. rewrite filter_app, fmap_app.
      rewrite filter_cons, filter_nil.
      destruct (decide (assigned_id a = k)) as [<-|Hne].
      * rewrite lookup_insert_eq. simpl. f_equal.
        rewrite Hla in Hl. injection Hl as <-. by rewrite <- app_assoc.
      * rewrite lookup_insert_ne by done. simpl. by rewrite app_nil_r.
    + exists mid. split; [done|]. intros k Hk.
      destruct (Hspec k Hk) as (l & Hl & Hl'). exists l. split; [done|].
      unfold recorded. rewrite filter_app, fmap_app, filter_cons, filter_nil.
      destruct (decide (assigned_id a = k)) as [<-|Hne]; [lia|].
      simpl. by rewrite app_nil_r.
Qed.

Lemma marker_ok_keys3 self : marker_ok self -> keys3 (led_positions self).
Proof. intros H k Hk. destruct (H k Hk) as (l & -> & _). by eexists. Qed.

Lemma marker_ok_init : marker_ok init.
Proof.
  intros k Hk. unfold expected_leds in Hk. exists []. split; [|simpl; lia].
  destruct k as [|[|[|k]]]; [done..|lia].
Qed.

Lemma assign_keeps_histories detections self :
  led_positions (_assign_led_ids detections self).2 = led_positions self /\
  frame_count (_assign_led_ids detections self).2 = frame_count self.
Proof.
  unfold _assign_led_ids. destruct (Py.sorted _ _ _); [done|].
  destruct (last_positions self); [|done]. by destruct (negb _).
Qed.

Lemma process_frame_ok detections self :
  marker_ok self ->
  exists self' ok,
    process_frame detections self = Some (self', ok) /\
    marker_ok self' /\ frame_count self' = frame_count self + 1.
Proof.
  intros Hok. unfold process_frame.
  set (self1 := {| led_positions := led_positions self;
                   last_positions := last_positions self;
                   frame_count := frame_count self + 1 |}).
  pose proof (video_assign_ids_nodup detections self1) as Hnd.
  destruct (assign_keeps_histories detections self1) as [Hpos Hcount].
  destruct (_assign_led_ids detections self1) as [assigned self2].
  simpl in Hnd, Hpos, Hcount.
  destruct (record_positions_spec assigned (led_positions self2))
    as (positions' & -> & Hspec).
  { rewrite Hpos. by apply marker_ok_keys3. }
  simpl. do 2 eexists. split; [done|]. split; [|by rewrite Hcount].
  intros k Hk. simpl. destruct (Hspec k Hk) as (l & Hl & Hl').
  exists (l ++ recorded k assigned). split; [done|].
  rewrite Hpos in Hl. destruct (Hok k Hk) as (l0 & Hl0 & Hlen).
  simpl in Hl. rewrite Hl0 in Hl. injection Hl as <-.
  rewrite length_app, Hcount. simpl.
  pose proof (recorded_le_1 k assigned Hnd). lia.
Qed.

Lemma truediv_Some a b : b <> 0%Z -> is_Some (PyNum.truediv a b).
Proof.
  intros Hb. unfold PyNum.truediv.
  destruct (Z.eqb_spec b 0); [done|by eexists].
Qed.

Lemma truediv_None a : PyNum.truediv a 0 = None.
Proof. done. Qed.

Lemma process_step_ok total_frames n acc detections :
  loop_ok n acc ->
  (total_frames <> 0%Z \/ (S n) mod 30 <> 0) ->
  exists acc', process_step total_frames acc detections = Some acc' /\
               loop_ok (S n) acc'.
Proof.
  destruct acc as [self successful]. intros (Hok & Hn & Hs) Hprog.
  simpl in *. unfold process_step.
  destruct (process_frame_ok detections self Hok)
    as (self' & ok & -> & Hok' & Hcount). simpl.
  set (successful' := if ok then successful + 1 else successful).
  assert (Hs' : successful' <= S n) by (subst successful'; destruct ok; lia).
  assert (Hrep : progress_report total_frames successful' self' = Some ()).
  { unfold progress_report. rewrite Hcount, Hn.
    replace (n + 1) with (S n) by lia.
    destruct (Nat.eqb_spec (S n mod 30) 0) as [Hmod|Hmod]; [|done].
    destruct Hprog as [Ht|Hm]; [|done].
    destruct (truediv_Some (Z.of_nat (S n)) total_frames Ht) as [p ->].
    destruct (truediv_Some (Z.of_nat successful') (Z.of_nat (S n)))
      as [q ->]; [lia|done]. }
  rewrite Hrep. simpl. eexists. split; [done|].
  split; [done|]. simpl. split; [lia|done].
Qed.

Lemma process_loop_ok total_frames frames :
  (total_frames <> 0%Z \/ length frames < 30) ->
  exists acc,
    Py.foldlM (process_step total_frames) (init, 0) frames = Some acc /\
    loop_ok (length frames) acc.
Proof.
  induction frames as [|f frames IH] using rev_ind; intros Hprog.
  - exists (init, 0). split; [done|]. split; [apply marker_ok_init|done].
  - rewrite length_app in *. simpl in *.
    destruct IH as (acc & Hacc & Hloop); [lia|].
    rewrite foldlM_snoc, Hacc. simpl.
    replace (length frames + 1) with (S (length frames)) by lia.
    apply process_step_ok; [done|].
    destruct Hprog as [Ht|Hlen]; [by left|right].
    rewrite Nat.mod_small; lia.
Qed.

Lemma process_loop_raises frames :
  30 <= length frames ->
  Py.foldlM (process_step 0) (init, 0) frames = None.
Proof.
  intros Hlen.
  rewrite <- (take_drop 29 frames), foldlM_app.
  destruct (process_loop_ok 0 (take 29 frames)) as ([self s] & -> & Hloop).
  { right. rewrite length_take. lia. }
  cbn [mbind option_bind]. destruct (drop 29 frames) as [|f rest] eqn:Hdrop.
  { apply (f_equal length) in Hdrop. rewrite length_drop in Hdrop.
    simpl in Hdrop. lia. }
  destruct Hloop as (Hok & Hn & Hs). simpl in Hok, Hn, Hs.
  rewrite length_take in Hn.
  assert (Hstep : process_step 0 (self, s) f = None).
  { unfold process_step.
    destruct (process_frame_ok f self Hok) as (self' & ok & -> & _ & Hcount).
    simpl. unfold progress_report. rewrite Hcount, Hn.
    by replace (29 `min` length frames + 1) with 30 by lia. }
  cbn [mbind option_bind Py.foldlM]. by rewrite Hstep.
Qed.

Lemma final_statistics_ok self :
  marker_ok self ->
  exists stats,
    mapM (fun led_id => _calculate_statistics np_std led_id self)
         (seq 0 expected_leds) = Some stats /\
    length stats = expected_leds /\
    Forall (fun st => count st <= frame_count self) stats.
Proof.
  intros Hok.
  assert (Hone : forall k, k < expected_leds ->
            exists st, _calculate_statistics np_std k self = Some st /\
                       count st <= frame_count self).
  { intros k Hk. destruct (Hok k Hk) as (l & Hl & Hlen).
    unfold _calculate_statistics. rewrite Hl. simpl.
    destruct l as [|p [|q l]]; eexists; (split; [done|]); simpl in *; lia. }
  destruct (Hone 0) as (s0 & H0 & Hc0); [unfold expected_leds; lia|].
  destruct (Hone 1) as (s1 & H1 & Hc1); [unfold expected_leds; lia|].
  destruct (Hone 2) as (s2 & H2 & Hc2); [unfold expected_leds; lia|].
  exists [s0; s1; s2]. simpl. rewrite H0, H1, H2. simpl.
  split; [done|]. split; [done|]. by repeat constructor.
Qed.

(** X3: on a marker fresh from [__init__], and the rendering apart,
    [process_video] raises in exactly two cases, both a
    [ZeroDivisionError]: the video has no frame (the success rate divides
    by the frame count), or the container announces 0 frames and 30 frames
    or more are read (the progress line divides by the announced count).
    No history lookup fails. *)
Theorem video_process_raises_iff (total_frames : Z) (frames : list (list Det)) :
  process_video np_std total_frames frames init = None <->
  frames = [] \/ (total_frames = 0%Z /\ 30 <= length frames).
Proof.
  unfold process_video. split.
  - intros Hnone.
    destruct (decide (frames = [])) as [|Hne]; [by left|right].
    destruct (decide (total_frames <> 0%Z \/ length frames < 30))
      as [Hprog|Hprog]; [|lia].
    exfalso.
    destruct (process_loop_ok total_frames frames Hprog)
      as ([self s] & Hloop & Hok & Hn & Hs).
    rewrite Hloop in Hnone. simpl in Hok, Hn, Hs.
    cbn [mbind option_bind] in Hnone.
    destruct (truediv_Some (Z.of_nat s) (Z.of_nat (frame_count self)))
      as [rate Hrate].
    { rewrite Hn. destruct frames; [done|simpl; lia]. }
    rewrite Hrate in Hnone. cbn [mbind option_bind] in Hnone.
    destruct (final_statistics_ok self Hok) as (stats & Hstats & _).
    rewrite Hstats in Hnone. done.
  - intros [->|[-> Hlen]]; [done|].
    by rewrite process_loop_raises.
Qed.

(** X4: when [process_video] returns on a marker fresh from [__init__],
    the marker has counted every frame, the successful detections are at
    most the frames, and the final statistics are those of the ids 0, 1, 2,
    none of them with more samples than frames. *)
Theorem video_process_report (total_frames : Z) (frames : list (list Det))
    (self : VideoMarker) (report : Report) :
  process_video np_std total_frames frames init = Some (self, report) ->
  frame_count self = length frames /\
  successful_detections report <= length frames /\
  length (final_statistics report) = 3 /\
  Forall (fun st => count st <= length frames) (final_statistics report).
Proof.
  intros Hsome.
  assert (Hprog : total_frames <> 0%Z \/ length frames < 30).
  { destruct (decide (total_frames <> 0%Z \/ length frames < 30));
      [done|].
    assert (total_frames = 0%Z) as -> by lia.
    unfold process_video in Hsome.
    rewrite process_loop_raises in Hsome by lia. done. }
  unfold process_video in Hsome.
  destruct (process_loop_ok total_frames frames Hprog)
    as ([self1 s] & Hloop & Hok & Hn & Hs).
  rewrite Hloop in Hsome. simpl in Hok, Hn, Hs.
  cbn [mbind option_bind] in Hsome.
  destruct (PyNum.truediv _ _) as [rate|]; [|done].
  cbn [mbind option_bind] in Hsome.
  destruct (final_statistics_ok self1 Hok) as (stats & Hstats & Hlen & Hall).
  rewrite Hstats in Hsome. simpl in Hsome. injection Hsome as <- <-.
  simpl. rewrite Hn in Hall. by repeat split.
Qed.

End VideoOutputFacts.

(** ** detect of the strict detector: what a success carries *)

Section StrictDetect.
Import Estricto.
Context {K : Type} `{KalmanTracker K}.
Implicit Types (self : StrictLEDDetector K) (triplet : list Blob).

Lemma smooth_step_spec (trk : gmap nat K) leds i b :
  exists k led,
    smooth_step (trk, leds) (i, b) = (<[i := k]> trk, leds ++ [led]) /\
    led_id led = i /\ confidence led = blob_conf b /\
    (trk !! i = None -> led_point led = blob_point b).
Proof.
  unfold smooth_step. destruct (trk !! i) as [k|] eqn:Hk.
  - destruct (kalman_update k _ _) as [k' [sx sy]]. by eexists _, _.
  - by eexists _, _.
Qed.

(** What the smoothing loop returns on the points [points]. *)
Lemma smooth_spec (trk : gmap nat K) (points : list Blob) :
  exists trk' leds,
    smooth trk points = (trk', leds) /\
    led_id <$> leds = seq 0 (length points) /\
    confidence <$> leds = blob_conf <$> points /\
    (forall j, j < length points -> is_Some (trk' !! j)) /\
    (forall j, length points <= j -> trk' !! j = trk !! j) /\
    ((forall j, j < length points -> trk !! j = None) ->
     led_point <$> leds = blob_point <$> points).
Proof.
  unfold smooth. induction points as [|p points IH] using rev_ind.
  - exists trk, []. repeat split; try done. simpl. lia.
  - destruct IH as (mid & leds & Hmid & Hids & Hconf & Hdom & Hrest & Hraw).
    rewrite enumerate_snoc, foldl_app, Hmid. cbn [foldl].
    destruct (smooth_step_spec mid leds (length points) p)
      as (k & led & -> & Hid & Hc & Hr).
    exists (<[length points := k]> mid), (leds ++ [led]).
    rewrite length_app. simpl. split; [done|].
    split; [by rewrite fmap_app, Hids, seq_app; simpl; rewrite Hid|].
    split; [by rewrite !fmap_app, Hconf; simpl; rewrite Hc|].
    split; [|split].
    + intros j Hj. destruct (decide (j = length points)) as [->|Hne].
      * rewrite lookup_insert_eq. by eexists.
      * rewrite lookup_insert_ne by done. apply Hdom. lia.
    + intros j Hj. rewrite lookup_insert_ne by lia. apply Hrest. lia.
    + intros Hnone. rewrite !fmap_app, Hraw by (intros j Hj; apply Hnone; lia).
      simpl. rewrite Hr; [done|]. rewrite Hrest by lia. apply Hnone. lia.
Qed.


(** [detect] unfolded: either no triplet passed, or the best one did. *)
Lemma detect_cases self blobs :
  (detect blobs self
   = Some (false, [], infinity, infinity,
           {| max_collinearity_error := max_collinearity_error self;
              spacing_tolerance := spacing_tolerance self;
              min_led_distance := min_led_distance self;
              max_led_distance := max_led_distance self;
              trackers := trackers self;
              frame_count := frame_count self + 1;
              last_valid_detection := last_valid_detection self |})) \/
  (exists best col ratio d12 d23 trk leds,
     best ∈ Py.combinations 3 blobs /\
     _validate_triplet self best = Some true /\
     _calculate_geometry best = Some (col, ratio, d12, d23) /\
     smooth (trackers self) (Py.sorted blob_x false best) = (trk, leds) /\
     detect blobs self
     = Some (true, leds, col, ratio,
             {| max_collinearity_error := max_collinearity_error self;
                spacing_tolerance := spacing_tolerance self;
                min_led_distance := min_led_distance self;
                max_led_distance := max_led_distance self;
                trackers := trk;
                frame_count := frame_count self + 1;
                last_valid_detection := Some leds |})).
Proof.
  destruct (find_best_triplet_spec self blobs) as (best & bs & Hf & Hspec).
  unfold detect. rewrite Hf. simpl. destruct best as [best|]; [right|by left].
  destruct Hspec as (Hin & Hv & _). simpl in *.
  pose proof (length_combinations 3 blobs best Hin) as Hlen.
  destruct (calculate_geometry_total best) as [[[[c r] d12] d23] Hg]; [lia|].
  rewrite Hg. simpl.
  destruct (smooth _ _) as [trk leds] eqn:Hs.
  by exists best, c, r, d12, d23, trk, leds.
Qed.


Lemma strict_detect_ids self (blobs : list Blob)
    (detected : list LEDDetection) (col ratio : float)
    (self' : StrictLEDDetector K) :
  detect blobs self = Some (true, detected, col, ratio, self') ->
  led_id <$> detected = [0; 1; 2].
Proof.
  intros Hd. destruct (detect_cases self blobs) as [Hfail|Hok].
  { rewrite Hfail in Hd. done. }
  destruct Hok as (best & c & r & d12 & d23 & trk & leds
                   & Hin & Hv & Hg & Hs & Hdet).
  rewrite Hdet in Hd. injection Hd as <- <- <- <-.
  pose proof (length_combinations 3 blobs best Hin) as Hlen.
  destruct (smooth_spec (trackers self) (Py.sorted blob_x false best))
    as (trk' & leds' & Hs' & Hids & _).
  rewrite Hs in Hs'. injection Hs' as <- <-.
  by rewrite length_sorted, Hlen in Hids.
Qed.

(** X6: when [detect] reports success, the three detections carry the ids
    0, 1, 2 in ascending x of the raw blobs and the confidences of those
    blobs; they become [last_valid_detection]; afterwards the detector has
    a tracker for each of 0, 1, 2; and if it had none before, the positions
    returned are the raw blob centres. *)
Theorem strict_detect_leds self (blobs : list Blob)
    (detected : list LEDDetection) (col ratio : float)
    (self' : StrictLEDDetector K) :
  detect blobs self = Some (true, detected, col, ratio, self') ->
  exists best,
    best ∈ Py.combinations 3 blobs /\
    led_id <$> detected = [0; 1; 2] /\
    confidence <$> detected = blob_conf <$> Py.sorted blob_x false best /\
    last_valid_detection self' = Some detected /\
    (forall i, i < 3 -> is_Some (trackers self' !! i)) /\
    (trackers self = ∅ ->
     led_point <$> detected = blob_point <$> Py.sorted blob_x false best).
Proof.
  intros Hd. destruct (detect_cases self blobs) as [Hfail|Hok].
  { rewrite Hfail in Hd. done. }
  destruct Hok as (best & c & r & d12 & d23 & trk & leds
                   & Hin & Hv & Hg & Hs & Hdet).
  rewrite Hdet in Hd. injection Hd as <- <- <- <-.
  pose proof (length_combinations 3 blobs best Hin) as Hlen.
  destruct (smooth_spec (trackers self) (Py.sorted blob_x false best))
    as (trk' & leds' & Hs' & Hids & Hconf & Hdom & _ & Hraw).
  rewrite Hs in Hs'. injection Hs' as <- <-.
  rewrite length_sorted, Hlen in *.
  exists best. simpl. repeat split; try done.
  intros Hempty. apply Hraw. intros j _. by rewrite Hempty.
Qed.

End StrictDetect.

(** ** VideoProcessor of the strict detector *)

Section StrictVideo.
Import Estricto EstrictoVideo.
Context {K : Type} `{KalmanTracker K}.

Lemma frame_result_ok (fps : float) (idx : nat) (blobs : list Blob)
    (self : StrictLEDDetector K) :
  exists r self',
    frame_result fps idx blobs self = Some (r, self') /\
    frame_idx r = idx /\ result_ok r /\
    frame_count self' = frame_count self + 1.
Proof.
  unfold frame_result. destruct (detect_cases self blobs) as [Hfail|Hok].
  - rewrite Hfail. simpl. eexists _, _. split; [done|]. by repeat split.
  - destruct Hok as (best & c & r & d12 & d23 & trk & detected
                     & Hin & Hv & Hg & Hs & Hdet).
    assert (Hd : detect blobs self = Some (true, detected, c, r,
              {| max_collinearity_error := max_collinearity_error self;
                 spacing_tolerance := spacing_tolerance self;
                 min_led_distance := min_led_distance self;
                 max_led_distance := max_led_distance self;
                 trackers := trk;
                 frame_count := frame_count self + 1;
                 last_valid_detection := Some detected |})) by exact Hdet.
    apply strict_detect_ids in Hd.
    rewrite Hdet. simpl. eexists _, _. split; [done|]. by repeat split.
Qed.

Lemma strict_step_ok fps n acc blobs :
  PrimFloat.eqb fps 0 = false ->
  strict_loop_ok n acc ->
  exists acc', process_step fps acc (n, blobs) = Some acc' /\
               strict_loop_ok (S n) acc'.
Proof.
  destruct acc as [self sc]. intros Hfps (Hidx & Hall & Hcount & Hsc).
  simpl in *. unfold process_step.
  destruct (frame_result_ok fps n blobs (detector self))
    as (r & det & -> & Hr & Hrok & Hfc).
  simpl. unfold PyNum.fdiv. rewrite Hfps. simpl.
  eexists. split; [done|].
  unfold strict_loop_ok. cbn [fst snd results detector].
  split; [|split; [|split]].
  - rewrite fmap_app, Hidx, seq_S, Nat.add_0_l. f_equal. simpl.
    by rewrite Hr.
  - apply Forall_app. split; [done|]. by constructor.
  - lia.
  - rewrite filter_app, length_app, <- Hsc, filter_cons, filter_nil.
    destruct (decide (success r = true)) as [Hs|Hs].
    + rewrite Hs. simpl. lia.
    + apply not_true_is_false in Hs. rewrite Hs. simpl. lia.
Qed.

Lemma strict_loop_total fps frames :
  PrimFloat.eqb fps 0 = false ->
  exists acc,
    Py.foldlM (process_step fps) (new_processor, 0) (Py.enumerate frames)
    = Some acc /\
    strict_loop_ok (length frames) acc.
Proof.
  intros Hfps. induction frames as [|f frames IH] using rev_ind.
  - exists (new_processor, 0). split; [done|]. by repeat split.
  - destruct IH as (acc & Hacc & Hok).
    rewrite enumerate_snoc, foldlM_snoc, Hacc, length_app. simpl.
    replace (length frames + 1) with (S (length frames)) by lia.
    by apply strict_step_ok.
Qed.

Lemma strict_loop_raises fps f frames :
  PrimFloat.eqb fps 0 = true ->
  Py.foldlM (process_step fps) (new_processor, 0) (Py.enumerate (f :: frames))
  = None.
Proof.
  intros Hfps. unfold Py.enumerate. cbn [length seq zip zip_with Py.foldlM].
  replace (process_step fps (new_processor, 0) (0, f))
    with (@None (VideoProcessor (K := K) * nat)); [done|].
  unfold process_step.
  destruct (frame_result_ok fps 0 f (detector new_processor))
    as (r & det & -> & _). simpl. unfold PyNum.fdiv. by rewrite Hfps.
Qed.



Lemma strict_process_valid (fps : float) (max_frames : option nat)
    (frames : list (list Blob)) (self : VideoProcessor (K := K))
    (rate : float) :
  process fps max_frames frames new_processor = Some (self, rate) ->
  length (results self) = length (frames_read max_frames frames) /\
  Forall result_ok (results self).
Proof.
  intros Hp.
  unfold process in Hp. fold (frames_read max_frames frames) in Hp.
  destruct (PrimFloat.eqb fps 0) eqn:Hfps.
  - destruct (frames_read max_frames frames) as [|f rest] eqn:Hread.
    + simpl in Hp. by injection Hp as <- <-.
    + by rewrite strict_loop_raises in Hp.
  - destruct (strict_loop_total fps (frames_read max_frames frames) Hfps)
      as ([self1 sc] & Hloop & Hidx & Hall & _).
    rewrite Hloop in Hp. cbn [mbind option_bind] in Hp.
    destruct (if (0 <? _)%nat then _ else _); [|done].
    injection Hp as <- <-. split; [|done]. simpl in Hidx.
    by rewrite <- (length_fmap frame_idx), Hidx, length_seq.
Qed.

(** X8: when [process] returns on a fresh [VideoProcessor], there is one
    result for each frame read (all of them, or the first [max_frames]), the
    results are numbered 0, 1, 2, ... in order, a successful one carries
    three detections with the ids 0, 1, 2 and a failed one none, with
    infinite errors, and the detector has counted the frames read. *)
Theorem strict_process_results (fps : float) (max_frames : option nat)
    (frames : list (list Blob)) (self : VideoProcessor (K := K))
    (rate : float) :
  process fps max_frames frames new_processor = Some (self, rate) ->
  let n := length (frames_read max_frames frames) in
  frame_idx <$> results self = seq 0 n /\
  Forall result_ok (results self) /\
  frame_count (detector self) = n.
Proof.
  intros Hp n. subst n.
  unfold process in Hp. fold (frames_read max_frames frames) in Hp.
  destruct (PrimFloat.eqb fps 0) eqn:Hfps.
  - destruct (frames_read max_frames frames) as [|f rest] eqn:Hread.
    + simpl in Hp. by injection Hp as <- <-.
    + by rewrite strict_loop_raises in Hp.
  - destruct (strict_loop_total fps (frames_read max_frames frames) Hfps)
      as ([self1 sc] & Hloop & Hidx & Hall & Hcount & _).
    rewrite Hloop in Hp. cbn [mbind option_bind] in Hp.
    destruct (if (0 <? _)%nat then _ else _); [|done].
    by injection Hp as <- <-.
Qed.

(** *** save_results *)

Variables np_mean np_std : list float -> float.

Lemma collect_leds_ok (acc : gmap nat (list (float * float))) r :
  led_id <$> leds r = [0; 1; 2] ->
  (forall k, k < 3 -> is_Some (acc !! k)) ->
  exists acc',
    collect_leds acc r = Some acc' /\
    forall k, k < 3 ->
      exists l p, acc !! k = Some l /\ acc' !! k = Some (l ++ [p]).
Proof.
  intros Hids Hkeys. unfold collect_leds.
  destruct (leds r) as [|l0 [|l1 [|l2 [|l3 rest]]]]; try done.
  injection Hids as Hi0 Hi1 Hi2.
  destruct (Hkeys 0) as [p0 H0]; [lia|].
  destruct (Hkeys 1) as [p1 H1]; [lia|].
  destruct (Hkeys 2) as [p2 H2]; [lia|].
  simpl. unfold Final.traj_append. rewrite Hi0, Hi1, Hi2, H0. simpl.
  rewrite lookup_insert_ne, H1 by done. simpl.
  rewrite !lookup_insert_ne, H2 by done. simpl.
  eexists. split; [done|]. intros [|[|[|k]]] Hk; [| | |lia].
  - eexists _, _. split; [done|].
    by rewrite !lookup_insert_ne, lookup_insert_eq by done.
  - eexists _, _. split; [done|].
    by rewrite lookup_insert_ne, lookup_insert_eq by done.
  - eexists _, _. split; [done|]. by rewrite lookup_insert_eq.
Qed.

Lemma collect_all_ok (valid : list FrameResult) :
  Forall (fun r => led_id <$> leds r = [0; 1; 2]) valid ->
  exists positions,
    Py.foldlM collect_leds
      ({[ 0 := []; 1 := []; 2 := [] ]} : gmap nat (list (float * float)))
      valid = Some positions /\
    (forall k, k < 3 ->
       exists l, positions !! k = Some l /\ length l = length valid) /\
    (forall k, 3 <= k -> positions !! k = None).
Proof.
  induction valid as [|r valid IH] using rev_ind; intros Hall.
  - eexists. split; [done|]. split.
    + intros [|[|[|k]]] Hk; [by exists []..|lia].
    + intros k Hk. by rewrite !lookup_insert_ne, lookup_singleton_ne by lia.
  - apply Forall_app in Hall as [Hall Hr]. apply Forall_inv in Hr.
    destruct (IH Hall) as (mid & Hmid & Hlen & Hout).
    rewrite foldlM_snoc, Hmid. simpl.
    destruct (collect_leds_ok mid r Hr) as (acc' & Hacc & Hspec).
    { intros k Hk. destruct (Hlen k Hk) as (l & -> & _). by eexists. }
    exists acc'. split; [done|]. split.
    + intros k Hk. destruct (Hspec k Hk) as (l & p & Hl & ->).
      destruct (Hlen k Hk) as (l' & Hl' & Hlen').
      rewrite Hl in Hl'. injection Hl' as <-.
      eexists. split; [done|]. rewrite !length_app. simpl. lia.
    + intros k Hk. revert Hacc. unfold collect_leds.
      apply (foldlM_inv (fun m : gmap nat (list (float * float)) =>
               m !! k = None)); [by apply Hout|].
      intros m led m' Hin Hm. unfold Final.traj_append.
      destruct (m !! led_id led) as [l|] eqn:Hl; [|done].
      simpl. intros [= <-]. rewrite lookup_insert_ne; [done|].
      intros <-. congruence.
Qed.

(** X9: [save_results] does not raise on the results of [process] run on a
    fresh [VideoProcessor].  It counts all results and the successful ones;
    the collinearity mean and the deviation of the spacing ratio are [None]
    exactly when no frame succeeded; and the jitter has an entry for an id
    exactly when the id is 0, 1 or 2 and two frames or more succeeded. *)
Theorem strict_save_results_total (fps : float) (max_frames : option nat)
    (frames : list (list Blob)) (self : VideoProcessor (K := K))
    (rate : float) :
  process fps max_frames frames new_processor = Some (self, rate) ->
  exists stats,
    save_results np_mean np_std self = Some stats /\
    total_frames stats = length (frames_read max_frames frames) /\
    valid_frames stats
    = length (filter (fun r => success r = true) (results self)) /\
    valid_frames stats <= total_frames stats /\
    (collinearity_mean stats = None <-> valid_frames stats = 0) /\
    (spacing_ratio_std stats = None <-> valid_frames stats = 0) /\
    forall k, is_Some (jitter stats !! k) <-> k < 3 /\ 2 <= valid_frames stats.
Proof.
  intros Hp.
  destruct (strict_process_valid fps max_frames frames self rate Hp)
    as (Htotal & Hall).
  unfold save_results.
  set (valid := filter (fun r => success r = true) (results self)).
  assert (Hvalid : Forall (fun r => led_id <$> leds r = [0; 1; 2]) valid).
  { apply Forall_forall. intros r [Hs Hin]%list_elem_of_filter.
    rewrite Forall_forall in Hall. specialize (Hall r Hin).
    unfold result_ok in Hall. by rewrite Hs in Hall. }
  assert (Hle : length valid <= length (results self))
    by apply length_filter.
  assert (Hjit : exists jit : gmap nat Jitter,
    match valid return option (gmap nat Jitter) with
    | [] => Some ∅
    | _ => led_positions ← Py.foldlM collect_leds
             ({[ 0 := []; 1 := []; 2 := [] ]} : gmap nat (list (float * float)))
             valid;
           Some (jitter_table np_mean np_std led_positions)
    end = Some jit /\
    forall k, is_Some (jit !! k) <-> k < 3 /\ 2 <= length valid).
  { destruct (collect_all_ok valid Hvalid) as (positions & Hpos & Hin & Hout).
    destruct valid as [|v valid'] eqn:Hv.
    - exists ∅. split; [done|]. intros k. rewrite lookup_empty. simpl.
      split; [by intros [? ?] | lia].
    - rewrite Hpos. simpl. eexists. split; [done|]. intros k.
      unfold jitter_table. rewrite lookup_omap.
      destruct (decide (k < 3)) as [Hk|Hk].
      + destruct (Hin k Hk) as (l & -> & Hlen). simpl. unfold jitter_of.
        simpl in Hlen. rewrite Hlen.
        destruct (Nat.ltb_spec 1 (S (length valid'))).
        * split; [intros _; split; [done|lia] | by eexists].
        * split; [by intros [? ?] | lia].
      + rewrite Hout by lia. simpl. split; [by intros [? ?] | lia]. }
  destruct Hjit as (jit & -> & Hjit). cbn [mbind option_bind].
  assert (Hrate : exists q,
    match results self with
    | [] => Some 0%float
    | _ => PyNum.truediv (Z.of_nat (length valid))
                         (Z.of_nat (length (results self)))
    end = Some q).
  { destruct (results self) as [|r rs] eqn:Hrs; [by eexists|].
    unfold PyNum.truediv. simpl length.
    destruct (Z.eqb_spec (Z.of_nat (S (length rs))) 0); [lia|by eexists]. }
  destruct Hrate as (q & ->). cbn [mbind option_bind].
  eexists. split; [done|]. simpl.
  split; [done|]. split; [done|]. split; [done|].
  split; [|split; [|done]].
  - rewrite <- (length_fmap geometry_error).
    destruct (geometry_error <$> valid); simpl; split; done.
  - rewrite <- (length_fmap spacing_ratio).
    destruct (spacing_ratio <$> valid); simpl; split; done.
Qed.

End StrictVideo.

(** ** The blink generator *)

Section Blink.
Import Parpadeo.
Variable bgr2gray : Pixel -> Z.

Local Open Scope Z_scope.

Lemma patron_equal fps frecuencia_hz frames_on frames_off :
  patron fps frecuencia_hz = Some (frames_on, frames_off) ->
  frames_on = frames_off.
Proof.
  unfold patron. destruct (PyNum.fdiv _ _) as [c|]; [|done]. simpl.
  destruct (PyNum.int_of_float _) as [a|]; [|done]. simpl.
  by intros [= <- <-].
Qed.

Lemma avanzar_posicion frames_on n :
  avanzar frames_on frames_on (posicion frames_on n)
  = posicion frames_on (S n).
Proof.
  unfold avanzar, posicion. destruct (Z.ltb_spec 0 frames_on) as [Hpos|Hneg].
  - set (p := 2 * frames_on). assert (Hp : 0 < p) by lia.
    replace (frames_on + frames_on) with p by lia.
    pose proof (Z.mod_pos_bound (Z.of_nat n) p Hp) as Hr.
    pose proof (Z.div_mod (Z.of_nat n) p ltac:(lia)) as Hdm.
    set (q := Z.of_nat n / p) in *. set (r := Z.of_nat n mod p) in *.
    replace (Z.of_nat (S n)) with (Z.of_nat n + 1) by lia.
    destruct (Z.leb_spec p (r + 1)) as [Hwrap|Hin].
    + apply (Z.mod_unique_pos _ p (q + 1) 0); lia.
    + apply (Z.mod_unique_pos _ p q (r + 1)); lia.
  - destruct (Z.leb_spec (frames_on + frames_on) (0 + 1)); [done|lia].
Qed.

Lemma frame_salida_posicion frames_on k frame :
  frame_salida bgr2gray (estado frames_on (posicion frames_on k)) frame
  = escrito bgr2gray frames_on k frame.
Proof.
  unfold estado, posicion, escrito.
  destruct (Z.ltb_spec 0 frames_on) as [Hpos|Hneg]; simpl.
  - by destruct (_ <? frames_on).
  - destruct (Z.ltb_spec 0 frames_on); [lia|done].
Qed.

Lemma paso_loop total_frames frames_on frames r :
  Py.foldlM (paso bgr2gray total_frames frames_on frames_on)
            ([], 0, 0%nat) frames = Some r ->
  r = (imap (escrito bgr2gray frames_on) frames, posicion frames_on (length frames),
       length frames).
Proof.
  revert r. induction frames as [|f frames IH] using rev_ind; intros r.
  - simpl. intros [= <-]. unfold posicion. simpl.
    by destruct (0 <? frames_on).
  - rewrite foldlM_snoc.
    destruct (Py.foldlM _ _ frames) as [mid|]; [|done]. simpl.
    rewrite (IH mid eq_refl). unfold paso.
    destruct (PyNum.truediv _ _) as [a|]; [|done]. simpl.
    destruct (PyNum.int_of_float _) as [b|]; [|done]. simpl.
    intros [= <-]. rewrite length_app, imap_app. simpl.
    rewrite avanzar_posicion, frame_salida_posicion, Nat.add_0_r.
    by replace (length frames + 1)%nat with (S (length frames)) by lia.
Qed.

(** X10: the frames [simular_parpadeo] writes.  Both halves of the cycle
    have the same length [int(fps / frecuencia_hz / 2)]; when it is
    positive, the frame at index [k] is written unchanged if
    [k mod (2 * frames_on) < frames_on] and darkened otherwise; when it is
    zero or negative (a frequency above half the frame rate, or a negative
    one), every frame is darkened.  One frame is written per frame read. *)
Theorem parpadeo_schedule (fps : float) (total_frames : Z)
    (frames : list Frame) (frecuencia_hz : float) (escritos : list Frame) :
  simular_parpadeo bgr2gray fps total_frames frames frecuencia_hz
  = Some escritos ->
  exists frames_on,
    patron fps frecuencia_hz = Some (frames_on, frames_on) /\
    length escritos = length frames /\
    forall k frame, frames !! k = Some frame ->
      escritos !! k
      = Some (if (0 <? frames_on)
                 && (Z.of_nat k mod (2 * frames_on) <? frames_on)
              then frame else pixel_off bgr2gray <$> frame).
Proof.
  unfold simular_parpadeo.
  destruct (patron fps frecuencia_hz) as [[frames_on frames_off]|] eqn:Hp;
    [|done].
  pose proof (patron_equal _ _ _ _ Hp) as <-. simpl.
  destruct (Py.foldlM _ _ frames) as [[[out pos] n]|] eqn:Hloop; [|done].
  apply paso_loop in Hloop. injection Hloop as -> _ _. simpl.
  intros [= <-]. exists frames_on. split; [done|].
  split; [apply length_imap|].
  intros k frame Hk. rewrite list_lookup_imap.
  apply (f_equal (fmap (escrito bgr2gray frames_on k))) in Hk. exact Hk.
Qed.

(** X11: [simular_parpadeo] raises on a frequency of zero (the
    [ZeroDivisionError] of [fps / frecuencia_hz]) and, when the container
    announces 0 frames, on the first frame read (the [ZeroDivisionError]
    of the progress bar). *)
Theorem parpadeo_raises (fps : float) (total_frames : Z)
    (frames : list Frame) (frecuencia_hz : float) :
  (PrimFloat.eqb frecuencia_hz 0 = true ->
   simular_parpadeo bgr2gray fps total_frames frames frecuencia_hz = None) /\
  (frames <> [] ->
   simular_parpadeo bgr2gray fps 0 frames frecuencia_hz = None).
Proof.
  split.
  - intros Hz. unfold simular_parpadeo, patron, PyNum.fdiv. by rewrite Hz.
  - intros Hne. unfold simular_parpadeo.
    destruct (patron fps frecuencia_hz) as [[frames_on frames_off]|];
      [|done].
    simpl. by destruct frames.
Qed.

Lemma oscurecer_table :
  forallb (fun v => oscurecer (Z.of_nat v) =? Z.of_nat v / 10) (seq 0 256)
  = true.
Proof. vm_compute. reflexivity. Qed.

Lemma oscurecer_div v : 0 <= v <= 255 -> oscurecer v = v / 10.
Proof.
  intros Hv. pose proof oscurecer_table as Ht.
  rewrite forallb_forall in Ht.
  specialize (Ht (Z.to_nat v)). rewrite Z2Nat.id in Ht by lia.
  apply Z.eqb_eq, Ht, in_seq. lia.
Qed.

(** X12: a pixel of an OFF frame whose grey level is at most 200 has each
    [uint8] channel replaced by its tenth, rounded down: the darkened
    channel is at most 25 and never above the original. *)
Theorem parpadeo_pixel_off (p : Pixel) :
  0 <= p.1.1 <= 255 -> 0 <= p.1.2 <= 255 -> 0 <= p.2 <= 255 ->
  bgr2gray p <= 200 ->
  pixel_off bgr2gray p = (p.1.1 / 10, p.1.2 / 10, p.2 / 10) /\
  (0 <= p.1.1 / 10 <= 25 /\ p.1.1 / 10 <= p.1.1) /\
  (0 <= p.1.2 / 10 <= 25 /\ p.1.2 / 10 <= p.1.2) /\
  (0 <= p.2 / 10 <= 25 /\ p.2 / 10 <= p.2).
Proof.
  intros Hb Hg Hr Hgray. unfold pixel_off.
  destruct (Z.ltb_spec 200 (bgr2gray p)); [lia|].
  rewrite !oscurecer_div by done. split; [done|].
  assert (Hdiv : forall v, 0 <= v <= 255 -> 0 <= v / 10 <= 25 /\ v / 10 <= v).
  { intros v Hv. pose proof (Z.div_mod v 10 ltac:(lia)) as Hdm.
    pose proof (Z.mod_pos_bound v 10 ltac:(lia)) as Hm. lia. }
  auto.
Qed.

End Blink.

(** ** The marked-video generator *)

Section MarkedVideo.
Import Estricto Marcado.
Context {K : Type} `{KalmanTracker K}.
Implicit Types (self : VideoMarker (K := K)).

Lemma length_deque_append {A} maxlen (d : list A) a :
  length d <= maxlen ->
  length (deque_append maxlen d a) = Nat.min maxlen (length d + 1).
Proof.
  intros Hlen. unfold deque_append. rewrite length_app. simpl.
  destruct (Nat.ltb_spec maxlen (length d + 1)).
  - rewrite length_drop, length_app. simpl. lia.
  - rewrite length_app. simpl. lia.
Qed.

Lemma registrar_three maxlen n (traj : gmap nat (list (float * float))) leds :
  led_id <$> leds = [0; 1; 2] ->
  (forall k, k < 3 -> exists d, traj !! k = Some d /\
                                length d = Nat.min maxlen n) ->
  exists traj',
    Py.foldlM (registrar maxlen) traj leds = Some traj' /\
    forall k, k < 3 -> exists d, traj' !! k = Some d /\
                                 length d = Nat.min maxlen (n + 1).
Proof.
  intros Hids Hkeys.
  destruct leds as [|l0 [|l1 [|l2 [|l3 rest]]]]; try done.
  injection Hids as Hi0 Hi1 Hi2.
  destruct (Hkeys 0) as (d0 & H0 & Hl0); [lia|].
  destruct (Hkeys 1) as (d1 & H1 & Hl1); [lia|].
  destruct (Hkeys 2) as (d2 & H2 & Hl2); [lia|].
  simpl. unfold registrar. rewrite Hi0, Hi1, Hi2, H0. simpl.
  rewrite lookup_insert_ne, H1 by done. simpl.
  rewrite !lookup_insert_ne, H2 by done. simpl.
  eexists. split; [done|]. intros [|[|[|k]]] Hk; [| | |lia].
  - eexists. split;
      [by rewrite !lookup_insert_ne, lookup_insert_eq by done|].
    rewrite length_deque_append; lia.
  - eexists. split;
      [by rewrite lookup_insert_ne, lookup_insert_eq by done|].
    rewrite length_deque_append; lia.
  - eexists. split; [by rewrite lookup_insert_eq|].
    rewrite length_deque_append; lia.
Qed.

Lemma run_spec max_frames show_preview frames self self' :
  trajectories_ok self ->
  valid_frames self <= total_frames self ->
  run max_frames show_preview frames self = Some self' ->
  trajectories_ok self' /\
  trajectory_length self' = trajectory_length self /\
  valid_frames self' <= total_frames self' + 1 /\
  (show_preview = false ->
   valid_frames self' <= total_frames self' /\
   total_frames self'
   = total_frames self + por_leer max_frames (total_frames self)
                                  (length frames)).
Proof.
  revert self. induction frames as [|[blobs key_q] rest IH]; intros self Hok Hle.
  { simpl. intros [= <-]. repeat split; try done; try lia.
    unfold por_leer. destruct max_frames as [[|m]|]; lia. }
  cbn [run].
  destruct (match max_frames with
            | Some (S m) => (S m <=? total_frames self)%nat
            | _ => false
            end) eqn:Hmax.
  { intros [= <-]. repeat split; try done; try lia.
    unfold por_leer. destruct max_frames as [[|m]|]; try done.
    apply Nat.leb_le in Hmax. lia. }
  assert (Hrest : forall next,
            trajectories_ok next ->
            trajectory_length next = trajectory_length self ->
            total_frames next = total_frames self ->
            valid_frames next <= total_frames self + 1 ->
            (if show_preview && key_q then Some next
             else run max_frames show_preview rest
                    {| detector := detector next;
                       trajectory_length := trajectory_length next;
                       trajectories := trajectories next;
                       total_frames := total_frames next + 1;
                       valid_frames := valid_frames next |}) = Some self' ->
            trajectories_ok self' /\
            trajectory_length self' = trajectory_length self /\
            valid_frames self' <= total_frames self' + 1 /\
            (show_preview = false ->
             valid_frames self' <= total_frames self' /\
             total_frames self'
             = total_frames self + por_leer max_frames (total_frames self)
                                            (length ((blobs, key_q) :: rest)))).
  { intros next Hnext Htl Htot Hval Hrun.
    destruct (show_preview && key_q) eqn:Hq.
    - injection Hrun as <-. split; [done|]. split; [done|].
      split; [lia|]. intros ->. done.
    - apply IH in Hrun; [|done|simpl; lia].
      destruct Hrun as (Hok' & Htl' & Hv & Hnp). simpl in Htl', Hnp.
      split; [done|]. split; [congruence|]. split; [done|].
      intros Hsp. destruct (Hnp Hsp) as [Hle' Htot']. split; [done|].
      rewrite Htot', Htot. unfold por_leer. simpl length.
      destruct max_frames as [[|m]|]; try lia.
      apply Nat.leb_gt in Hmax. lia. }
  destruct (detect_cases (detector self) blobs) as [Hfail|Hsucc].
  - rewrite Hfail. cbn [mbind option_bind]. unfold _draw_detection.
    cbn [andb mbind option_bind]. intros Hrun.
    apply Hrest in Hrun; [done|exact Hok|done|done|simpl; lia].
  - destruct Hsucc as (best & c & r & d12 & d23 & trk & leds
                       & Hin & Hv & Hg & Hs & Hdet).
    pose proof Hdet as Hids. apply strict_detect_ids in Hids.
    rewrite Hdet. cbn [mbind option_bind]. unfold _draw_detection.
    assert (Hlen : length leds = 3).
    { by rewrite <- (length_fmap led_id), Hids. }
    rewrite Hlen. cbn [andb Nat.eqb trajectory_length trajectories
                       valid_frames total_frames detector].
    destruct (registrar_three (trajectory_length self) (valid_frames self)
                (trajectories self) leds Hids Hok) as (traj' & -> & Htraj).
    cbn [mbind option_bind]. intros Hrun.
    apply Hrest in Hrun; [done|exact Htraj|done|done|simpl; lia].
Qed.

Lemma trajectories_ok_init trajectory_length :
  trajectories_ok (init (K := K) trajectory_length).
Proof.
  intros k Hk. exists []. split; [|simpl; lia].
  destruct k as [|[|[|k]]]; [done..|lia].
Qed.

(** X13: when [process_video] returns on a fresh [VideoMarker], each of
    the trajectories 0, 1, 2 holds [min(trajectory_length, valid_frames)]
    positions; [valid_frames] exceeds [total_frames] by at most one; and
    without the preview [valid_frames] is at most [total_frames], which is
    the number of frames read (all of them, or the first [max_frames]). *)
Theorem marcado_counts (trajectory_length : nat) (max_frames : option nat)
    (show_preview : bool) (frames : list (list Blob * bool))
    (self : VideoMarker (K := K)) (rate : float) :
  process_video max_frames show_preview frames (init trajectory_length)
  = Some (self, rate) ->
  (forall k, k < 3 ->
     exists d, trajectories self !! k = Some d /\
               length d = Nat.min trajectory_length (valid_frames self)) /\
  valid_frames self <= total_frames self + 1 /\
  (show_preview = false ->
   valid_frames self <= total_frames self /\
   total_frames self = length (frames_read max_frames frames)).
Proof.
  unfold process_video. simpl.
  destruct (run _ _ _ _) as [self1|] eqn:Hrun; [|done].
  cbn [mbind option_bind].
  destruct (if (0 <? _)%nat then _ else _); [|done].
  intros [= <- <-].
  apply run_spec in Hrun; [|apply trajectories_ok_init|simpl; lia].
  destruct Hrun as (Hok & Htl & Hv & Hnp). simpl in *.
  split; [|split; [done|]].
  - intros k Hk. destruct (Hok k Hk) as (d & Hd & Hlen).
    exists d. split; [done|]. by rewrite <- Htl.
  - intros Hsp. destruct (Hnp Hsp) as [Hle Htot]. split; [done|].
    rewrite Htot. unfold por_leer, frames_read. destruct max_frames as [[|m]|]; try done.
    rewrite length_take. lia.
Qed.

(** X14: with the preview on, a first frame that is detected and on which
    q is read leaves [valid_frames = 1] and [total_frames = 0]: the frame
    is counted as valid but not as processed, and the success rate
    returned is 0. *)
Theorem marcado_cancel_first (maxlen : nat)
    (max_frames : option nat) (blobs : list Blob)
    (rest : list (list Blob * bool))
    (leds : list LEDDetection) (col ratio : float)
    (det : StrictLEDDetector K) :
  detect blobs default = Some (true, leds, col, ratio, det) ->
  exists self,
    process_video max_frames true ((blobs, true) :: rest)
                  (init maxlen)
    = Some (self, 0%float) /\
    valid_frames self = 1 /\ total_frames self = 0.
Proof.
  intros Hdet. unfold process_video. cbn [run init detector total_frames].
  assert (Hmax : match max_frames with
                 | Some (S m) => (S m <=? 0)%nat
                 | _ => false
                 end = false) by (by destruct max_frames as [[|m]|]).
  rewrite Hmax, Hdet. cbn [mbind option_bind].
  pose proof Hdet as Hids. apply strict_detect_ids in Hids.
  unfold _draw_detection.
  assert (Hlen : length leds = 3).
  { by rewrite <- (length_fmap led_id), Hids. }
  rewrite Hlen. cbn [andb Nat.eqb trajectory_length trajectories
                     valid_frames total_frames detector].
  destruct (registrar_three (trajectory_length (init (K := K) maxlen)) 0
              (trajectories (init (K := K) maxlen)) leds Hids)
    as (traj' & -> & _).
  { intros k Hk. exists []. split; [|simpl; lia].
    destruct k as [|[|[|k]]]; [done..|lia]. }
  cbn [mbind option_bind andb]. eexists. split; [done|]. done.
Qed.

End MarkedVideo.

(** ** The robust detector across frames *)

Section RobustFrames.
Import Final.

(** What [_assign_led_ids_robust] leaves in [last_positions]: either what
    was there, or the detections of the call in ascending x. *)
Lemma assign_last_positions self dets r :
  wf self ->
  _assign_led_ids_robust dets self = Some r ->
  last_positions r.2 = last_positions self \/
  last_positions r.2 = Some (Py.sorted det_x false dets).
Proof.
  intros Hwf. pose proof Hwf as (He & _).
  destruct (decide (length dets = 3)) as [Hlen|Hlen].
  - destruct (last_positions self) as [last|] eqn:Hlast.
    + destruct (assign_three self last dets Hwf Hlast Hlen)
        as (ids & traj' & -> & _). intros [= <-]. by right.
    + destruct (assign_first self dets Hwf Hlast Hlen) as (traj' & -> & _).
      intros [= <-]. by right.
  - rewrite assign_other_count by (by rewrite He). intros [= <-]. by left.
Qed.

Lemma detect_last_positions frame self r :
  wf self ->
  detect frame self = Some r ->
  last_positions r.2 = last_positions self \/
  exists dets, last_positions r.2 = Some (Py.sorted det_x false dets).
Proof.
  intros Hwf. unfold detect.
  destruct (_assign_led_ids_robust _ self) as [[[dets ids] self']|] eqn:Ha;
    [|done].
  apply (assign_last_positions _ _ _ Hwf) in Ha. simpl in *.
  destruct (mapM _ dets) as [leds|]; [|done]. simpl. intros [= <-]. simpl.
  destruct Ha as [->| ->]; [by left|right; by eexists].
Qed.

(** X15: in every state a detector built by [RobustLEDDetector()] reaches,
    [last_positions] is either [None] or three detections in ascending x:
    the index of a previous position, which the tracker hands on as the
    id, is the rank in x that position had in its own frame. *)
Theorem robust_last_positions_sorted (self : RobustLEDDetector)
    (last : list Det) :
  reachable self ->
  last_positions self = Some last ->
  length last = 3 /\ ascending det_x last.
Proof.
  intros Hreach Hlast. split.
  { apply reachable_wf in Hreach as (_ & Hl & _). by apply Hl. }
  revert last Hlast.
  induction Hreach as [|frame self r Hreach IH Hd]; [done|].
  intros last Hlast.
  destruct (detect_last_positions frame self r (reachable_wf _ Hreach) Hd)
    as [Hsame|[dets Hnew]].
  - apply IH. by rewrite <- Hsame.
  - rewrite Hnew in Hlast. injection Hlast as <-. apply sorted_ascending.
Qed.

(** [detect] on a detector that satisfies [wf], with what the ids are. *)
Lemma detect_total_ids frame self :
  wf self ->
  exists ok leds ids self',
    detect frame self = Some (ok, leds, ids, self') /\
    wf self' /\
    length ids = length leds /\
    (ok = true <-> length leds = 3) /\
    Forall is_Some ids /\
    (ok = true -> ids ≡ₚ [Some 0; Some 1; Some 2]).
Proof.
  intros Hwf. pose proof Hwf as (He & _).
  destruct (assign_total self (cap 3 (_merge_detections frame)) Hwf)
    as (ids & self' & Ha & Hlen & Hsome & _ & Hperm & Hwf').
  rewrite <- He in Ha. rewrite (detect_assign _ _ _ _ _ Ha).
  apply assign_keeps_expected in Ha. simpl in Ha. rewrite Ha, He.
  eexists _, _, _, _. split; [done|].
  split; [by apply wf_tick|].
  rewrite !length_fmap, length_sorted.
  split; [done|]. split; [apply Nat.eqb_eq|]. split; [done|].
  intros Hok%Nat.eqb_eq. by apply Hperm.
Qed.

End RobustFrames.

(** ** VideoProcessor of the robust detector *)

Section RobustVideo.
Import Final FinalVideo.

Lemma run_total fps max_frames display frames :
  PrimFloat.eqb fps 0 = false ->
  forall self idx successful,
    wf (detector self) ->
    exists self' idx' successful' new,
      run fps max_frames display frames self idx successful
      = Some (self', idx', successful') /\
      wf (detector self') /\
      results self' = results self ++ new /\
      frame_idx <$> new = seq idx (length new) /\
      Forall robust_result_ok new /\
      successful' = successful + length (List.filter success new) /\
      idx <= idx' /\ idx' <= idx + length new <= idx' + 1 /\
      (display = false ->
       idx' = idx + length new /\
       length new = por_leer max_frames idx (length frames)).
Proof.
  intros Hfps. induction frames as [|[frame key_q] rest IH];
    intros self idx successful Hwf.
  { exists self, idx, successful, []. simpl. rewrite app_nil_r.
    do 7 (split; [done || lia|]). split; [lia|]. intros _. split; [lia|].
    unfold por_leer. destruct max_frames as [[|m]|]; lia. }
  cbn [run].
  destruct (match max_frames with
            | Some (S m) => (S m <=? idx)%nat
            | _ => false
            end) eqn:Hmax.
  { exists self, idx, successful, []. simpl. rewrite app_nil_r.
    do 7 (split; [done || lia|]). split; [lia|]. intros _. split; [lia|].
    unfold por_leer. destruct max_frames as [[|m]|]; try done.
    apply Nat.leb_le in Hmax. lia. }
  unfold PyNum.fdiv. rewrite Hfps. cbn [mbind option_bind].
  destruct (detect_total_ids frame (detector self) Hwf)
    as (ok & leds & ids & det & -> & Hwf' & Hlen & Hok & Hsome & Hperm).
  cbn [mbind option_bind].
  set (result := {| frame_idx := idx;
                    timestamp := (Py.float_of_nat idx / fps)%float;
                    leds_detected := leds; success := ok;
                    num_leds := length leds; led_ids := ids |}).
  assert (Hres : robust_result_ok result) by done.
  assert (Hcount : (if ok then successful + 1 else successful)
                   = successful + length (List.filter success [result])).
  { simpl. destruct ok; simpl; lia. }
  destruct (display && key_q) eqn:Hq.
  - eexists _, _, _, [result]. split; [done|]. simpl.
    split; [done|]. split; [done|]. split; [done|].
    split; [by constructor|]. split; [exact Hcount|].
    split; [lia|]. split; [lia|]. intros ->. done.
  - set (self1 := {| detector := det; results := results self ++ [result];
                     vp_frame_count := vp_frame_count self |}).
    destruct (IH self1 (idx + 1) (if ok then successful + 1 else successful))
      as (self' & idx' & successful' & new & -> & Hwf'' & Hr & Hidx & Hall
          & Hs & Hle & Hbound & Hnd); [done|].
    exists self', idx', successful', (result :: new). split; [done|].
    split; [done|]. split; [by rewrite Hr; simpl; rewrite <- app_assoc|].
    split.
    { simpl. f_equal. by replace (S idx) with (idx + 1) by lia. }
    split; [by constructor|]. split.
    { rewrite Hs, Hcount. subst result. simpl. destruct ok; simpl; lia. }
    split; [lia|]. split; [simpl; lia|].
    intros Hd. destruct (Hnd Hd) as [-> Hnew]. split; [simpl; lia|].
    simpl. rewrite Hnew. unfold por_leer.
    destruct max_frames as [[|m]|]; try lia.
    apply Nat.leb_gt in Hmax. lia.
Qed.

(** With the display off, the loop is the fold of [Final.process] over
    the frames read. *)
Lemma run_fold fps max_frames frames self idx successful r :
  run fps max_frames false frames self idx successful = Some r ->
  let n := por_leer max_frames idx (length frames) in
  Py.foldlM (fun self '(i, frame) => process_frame fps i frame self) self
            (zip (seq idx n) (take n frames.*1)) = Some r.1.1 /\
  r.1.2 = idx + n.
Proof.
  revert self idx successful.
  induction frames as [|[frame key_q] rest IH]; intros self idx successful.
  { simpl. intros [= <-]. simpl.
    replace (por_leer max_frames idx 0) with 0
      by (unfold por_leer; destruct max_frames as [[|m]|]; lia).
    split; [done|lia]. }
  cbn [run].
  destruct (match max_frames with
            | Some (S m) => (S m <=? idx)%nat
            | _ => false
            end) eqn:Hmax.
  { intros [= <-]. simpl.
    replace (por_leer max_frames idx (S (length rest))) with 0.
    - split; [done|lia].
    - unfold por_leer. destruct max_frames as [[|m]|]; try done.
      apply Nat.leb_le in Hmax. lia. }
  assert (Hn : por_leer max_frames idx (length ((frame, key_q) :: rest))
               = S (por_leer max_frames (idx + 1) (length rest))).
  { unfold por_leer. simpl. destruct max_frames as [[|m]|]; try done.
    apply Nat.leb_gt in Hmax. lia. }
  unfold PyNum.fdiv. destruct (PrimFloat.eqb fps 0); [done|].
  cbn [mbind option_bind andb].
  destruct (detect frame (detector self)) as [[[[ok leds] ids] det]|] eqn:Hd;
    [|done].
  cbn [mbind option_bind]. intros Hrun. apply IH in Hrun as [Hfold ->].
  rewrite Hn. cbn [fmap list_fmap fst take seq zip zip_with Py.foldlM].
  match type of Hfold with
  | Py.foldlM _ ?s _ = _ =>
      assert (Hpf : process_frame fps idx frame self = Some s)
        by (unfold process_frame; rewrite Hd; reflexivity)
  end.
  rewrite Hpf. cbn [mbind option_bind].
  replace (S idx) with (idx + 1) by lia. split; [exact Hfold|lia].
Qed.

Lemma process_agrees fps max_frames frames self r :
  process fps max_frames false frames self = Some r ->
  Final.process fps max_frames frames.*1 self = Some r.1.
Proof.
  unfold process, Final.process.
  destruct (run fps max_frames false frames self 0 0)
    as [[[self' idx'] successful']|] eqn:Hrun; [|done].
  apply run_fold in Hrun as [Hfold Hidx]. simpl in Hfold, Hidx.
  cbn [mbind option_bind vp_frame_count].
  destruct (PyNum.truediv _ _) as [rate|]; [|done].
  cbn [mbind option_bind]. intros [= <-]. simpl.
  set (n := por_leer max_frames 0 (length frames)) in *.
  set (read := match max_frames with
               | Some (S m) => take (S m) frames.*1
               | _ => frames.*1
               end).
  assert (Hread : take n frames.*1 = read /\ length read = n).
  { subst n read. unfold por_leer.
    destruct max_frames as [[|m]|];
      rewrite ?Nat.sub_0_r, ?length_take, ?length_fmap.
    - split; [by rewrite <- (length_fmap fst), firstn_all | done].
    - split; [|done]. rewrite <- (length_fmap fst frames).
      destruct (Nat.min_spec (S m) (length frames.*1)) as [[_ ->]|[Hle ->]];
        [done|].
      by rewrite firstn_all, take_ge by done.
    - split; [by rewrite <- (length_fmap fst), firstn_all | done]. }
  destruct Hread as [Htake Hlen]. unfold Py.enumerate.
  rewrite Hlen, <- Htake at 1. rewrite Hfold. simpl.
  by rewrite Hidx, Hlen.
Qed.

Lemma wf_new_processor : wf (detector new_processor).
Proof. apply wf_default. Qed.


Lemma robust_process_valid (fps : float) (max_frames : option nat)
    (display : bool) (frames : list (list (list Det) * bool))
    (self : VideoProcessor) (rate : float) :
  process fps max_frames display frames new_processor = Some (self, rate) ->
  Forall robust_result_ok (results self) /\
  vp_frame_count self <= length (results self) <= vp_frame_count self + 1 /\
  1 <= vp_frame_count self /\
  (display = false -> vp_frame_count self = length (results self)).
Proof.
  intros Hp. destruct (PrimFloat.eqb fps 0) eqn:Hfps.
  { destruct frames as [|[frame key_q] rest]; [done|].
    unfold process in Hp. cbn [run] in Hp.
    replace (match max_frames with
             | Some (S m) => (S m <=? 0)%nat
             | _ => false
             end) with false in Hp by (by destruct max_frames as [[|m]|]).
    unfold PyNum.fdiv in Hp. by rewrite Hfps in Hp. }
  unfold process in Hp.
  destruct (run_total fps max_frames display frames Hfps new_processor 0 0
              wf_new_processor)
    as (self' & idx' & successful' & new & Hrun & _ & Hr & _ & Hall
        & _ & _ & Hbound & Hnd).
  rewrite Hrun in Hp. cbn [mbind option_bind vp_frame_count] in Hp.
  unfold PyNum.truediv in Hp.
  destruct (Z.eqb_spec (Z.of_nat idx') 0) as [Hz|Hz]; [done|].
  cbn [mbind option_bind] in Hp. injection Hp as <- _. simpl in *.
  rewrite Hr. split; [done|]. split; [lia|]. split; [lia|].
  intros Hd. by destruct (Hnd Hd) as [-> _].
Qed.

(** X17: when [process] returns on a fresh [VideoProcessor], its results
    are numbered 0, 1, 2, ... in order; a result is successful exactly when
    it carries three detections, and then its ids are 0, 1, 2 in some
    order; [self.frame_count] is at least 1 and is the number of results,
    or one less when the loop was left on the key q; without the display
    it is the number of frames read (all of them, or the first
    [max_frames]). *)
Theorem robust_process_results (fps : float) (max_frames : option nat)
    (display : bool) (frames : list (list (list Det) * bool))
    (self : VideoProcessor) (rate : float) :
  process fps max_frames display frames new_processor = Some (self, rate) ->
  frame_idx <$> results self = seq 0 (length (results self)) /\
  Forall robust_result_ok (results self) /\
  1 <= vp_frame_count self /\
  vp_frame_count self <= length (results self) <= vp_frame_count self + 1 /\
  (display = false ->
   vp_frame_count self = length (results self) /\
   length (results self) = length (frames_read max_frames frames)).
Proof.
  intros Hp. destruct (PrimFloat.eqb fps 0) eqn:Hfps.
  { destruct frames as [|[frame key_q] rest]; [done|].
    unfold process in Hp. cbn [run] in Hp.
    replace (match max_frames with
             | Some (S m) => (S m <=? 0)%nat
             | _ => false
             end) with false in Hp by (by destruct max_frames as [[|m]|]).
    unfold PyNum.fdiv in Hp. by rewrite Hfps in Hp. }
  unfold process in Hp.
  destruct (run_total fps max_frames display frames Hfps new_processor 0 0
              wf_new_processor)
    as (self' & idx' & successful' & new & Hrun & _ & Hr & Hidx & Hall
        & _ & _ & Hbound & Hnd).
  rewrite Hrun in Hp. cbn [mbind option_bind vp_frame_count] in Hp.
  unfold PyNum.truediv in Hp.
  destruct (Z.eqb_spec (Z.of_nat idx') 0) as [Hz|Hz]; [done|].
  cbn [mbind option_bind] in Hp. injection Hp as <- _. simpl in *.
  rewrite Hr. split; [done|]. split; [done|]. split; [lia|]. split; [lia|].
  intros Hd. destruct (Hnd Hd) as [-> Hnew]. split; [done|].
  rewrite Hnew. unfold por_leer, frames_read.
  destruct max_frames as [[|m]|]; try done. rewrite length_take. lia.
Qed.

End RobustVideo.

(** ** calculate_error_statistics on the results of process *)

Section RobustStatistics.
Import Final FinalVideo.
Variable np_percentile : list float -> nat -> float.

Lemma collect_pairs pairs (acc : gmap nat (list (float * float))) :
  keys3 acc -> Forall (fun p => is_Some p.2) pairs ->
  exists acc',
    Py.foldlM collect_step acc pairs = Some acc' /\
    (forall k, k < 3 ->
       exists l, acc !! k = Some l /\
         exists added, acc' !! k = Some (l ++ added) /\
           length added = length (filter (fun p => p.2 = Some k) pairs)) /\
    (forall k, 3 <= k -> acc' !! k = acc !! k).
Proof.
  intros Hkeys. induction pairs as [|[led id] pairs IH] using rev_ind;
    intros Hsome.
  - exists acc. split; [done|]. split; [|done]. intros k Hk.
    destruct (Hkeys k Hk) as [l Hl]. exists l. split; [done|].
    exists []. by rewrite app_nil_r.
  - apply Forall_app in Hsome as [Hsome Hid]. apply Forall_inv in Hid.
    destruct (IH Hsome) as (mid & Hmid & Hin & Hout).
    rewrite foldlM_snoc, Hmid. cbn [mbind option_bind].
    simpl in Hid. destruct Hid as [i ->]. simpl.
    destruct (Nat.ltb_spec i 3) as [Hi|Hi].
    + destruct (Hin i Hi) as (li & Hli & addi & Hmi & Hleni).
      unfold traj_append. rewrite Hmi. simpl. eexists. split; [done|].
      split.
      * intros k Hk. destruct (Hin k Hk) as (l & Hl & added & Hm & Hlen).
        exists l. split; [done|]. rewrite filter_app, filter_cons, filter_nil.
        destruct (decide (i = k)) as [->|Hne].
        -- rewrite lookup_insert_eq. rewrite Hli in Hl. injection Hl as <-.
           exists (addi ++ [(x led, y led)]). rewrite app_assoc.
           split; [done|]. rewrite decide_True by done.
           rewrite !length_app. simpl. lia.
        -- rewrite lookup_insert_ne by done. exists added. split; [done|].
           rewrite decide_False by (simpl; congruence).
           rewrite length_app. simpl. lia.
      * intros k Hk. rewrite lookup_insert_ne by lia. by apply Hout.
    + exists mid. split; [done|]. split; [|done].
      intros k Hk. destruct (Hin k Hk) as (l & Hl & added & Hm & Hlen).
      exists l. split; [done|]. exists added. split; [done|].
      rewrite filter_app, filter_cons, filter_nil.
      rewrite decide_False by (simpl; intros [= ->]; lia).
      rewrite length_app. simpl. lia.
Qed.

Lemma count_ids_zip (leds : list LEDDetection) (ids : list (option nat)) k :
  length ids = length leds ->
  length (filter (fun p : LEDDetection * option nat => p.2 = Some k)
                 (zip leds ids))
  = length (filter (fun i => i = Some k) ids).
Proof.
  revert ids. induction leds as [|led leds IH]; intros [|i ids] Hlen;
    simpl in *; try done.
  rewrite !filter_cons. simpl.
  destruct (decide (i = Some k)); simpl; rewrite IH by lia; done.
Qed.

Lemma count_ids_perm (ids : list (option nat)) k :
  ids ≡ₚ [Some 0; Some 1; Some 2] -> k < 3 ->
  length (filter (fun i => i = Some k) ids) = 1.
Proof.
  intros Hp Hk. rewrite Hp. by destruct k as [|[|[|k]]]; [..|lia].
Qed.

Lemma led_positions_ok (results : list FrameResult) :
  Forall robust_result_ok results ->
  exists positions,
    led_positions results = Some positions /\
    (forall k, k < 3 ->
       exists l, positions !! k = Some l /\
                 length l = length (List.filter success results)) /\
    (forall k, 3 <= k -> positions !! k = None).
Proof.
  unfold led_positions.
  induction results as [|r results IH] using rev_ind; intros Hall.
  - eexists. split; [done|]. split.
    + intros [|[|[|k]]] Hk; [by exists []..|lia].
    + intros k Hk. by rewrite !lookup_insert_ne, lookup_singleton_ne by lia.
  - apply Forall_app in Hall as [Hall Hr]. apply Forall_inv in Hr.
    destruct (IH Hall) as (mid & Hmid & Hin & Hout).
    rewrite foldlM_snoc, Hmid. cbn [mbind option_bind].
    rewrite List.filter_app, length_app. simpl.
    destruct Hr as (_ & Hlen & _ & Hsome & Hperm).
    destruct (success r) eqn:Hs.
    + specialize (Hperm eq_refl).
      destruct (collect_pairs (zip (leds_detected r) (led_ids r)) mid)
        as (acc' & Hacc & Hin' & Hout').
      { intros k Hk. destruct (Hin k Hk) as (l & -> & _). by eexists. }
      { apply Forall_forall. intros [led id] Hp. simpl.
        rewrite Forall_forall in Hsome. apply Hsome.
        apply elem_of_zip_r in Hp. done. }
      exists acc'. split; [exact Hacc|]. split.
      * intros k Hk. destruct (Hin' k Hk) as (l & Hl & added & -> & Hadd).
        destruct (Hin k Hk) as (l' & Hl' & Hlen').
        rewrite Hl in Hl'. injection Hl' as <-.
        eexists. split; [done|].
        rewrite length_app, Hadd, count_ids_zip, (count_ids_perm _ k) by done.
        simpl. lia.
      * intros k Hk. rewrite Hout' by done. by apply Hout.
    + exists mid. split; [done|]. split; [|done].
      intros k Hk. destruct (Hin k Hk) as (l & -> & Hl).
      eexists. split; [done|]. simpl. lia.
Qed.

Lemma detected_frames_length positions :
  detected_frames (led_stats positions) = length positions.
Proof. by destruct positions. Qed.

(** X18: on the processor [process] returns for a fresh
    [VideoProcessor], [calculate_error_statistics] does not raise and does
    not return the empty dictionary.  Its [total_frames] is
    [self.frame_count] and its [successful_frames] counts the successful
    results, so the second exceeds the first by at most one (by one only
    when the loop was left on the key q); it has an entry for each of the
    ids 0, 1, 2 and no other, and no entry counts more frames than were
    successful. *)
Theorem robust_statistics_after_process (fps : float)
    (max_frames : option nat) (display : bool)
    (frames : list (list (list Det) * bool))
    (self : VideoProcessor) (rate : float) :
  process fps max_frames display frames new_processor = Some (self, rate) ->
  exists leds,
    calculate_error_statistics np_percentile self
    = Some (MkStats (vp_frame_count self)
                    (length (List.filter success (results self))) leds) /\
    length (List.filter success (results self)) <= vp_frame_count self + 1 /\
    (display = false ->
     length (List.filter success (results self)) <= vp_frame_count self) /\
    (forall k, is_Some (leds !! k) <-> k < 3) /\
    (forall k st, leds !! k = Some st ->
       detected_frames st <= length (List.filter success (results self))).
Proof.
  intros Hp.
  destruct (robust_process_valid _ _ _ _ _ _ Hp)
    as (Hall & Hbound & Hone & Hnd).
  destruct (led_positions_ok (results self) Hall)
    as (positions & Hpos & Hin & Hout).
  pose proof (filter_length success (results self)) as Hle.
  unfold calculate_error_statistics.
  destruct (results self) as [|r rs] eqn:Hrs; [simpl in Hbound; lia|].
  rewrite Hpos. cbn [mbind option_bind]. eexists. split; [done|].
  split; [lia|]. split.
  { intros Hd. specialize (Hnd Hd). lia. }
  split.
  - intros k. rewrite !lookup_fmap. destruct (decide (k < 3)) as [Hk|Hk].
    + destruct (Hin k Hk) as (l & -> & _). simpl. split; [done|by eexists].
    + rewrite Hout by lia. simpl. split; [by intros [? ?]|done].
  - intros k st. rewrite !lookup_fmap. destruct (decide (k < 3)) as [Hk|Hk].
    + destruct (Hin k Hk) as (l & -> & Hl). intros Hst.
      assert (st = led_stats (filter_outliers np_percentile l)) as ->
        by (simpl in Hst; congruence).
      rewrite detected_frames_length.
      etrans; [apply sublist_length, filter_outliers_sublist|].
      apply Nat.eq_le_incl. exact Hl.
    + rewrite Hout by lia. done.
Qed.

End RobustStatistics.

(** ** The clusters of _merge_detections *)

Section Clusters.
Import Final.






End Clusters.

(** ** The order in which a triplet lists its blobs *)

Section TripletOrder.
Import Estricto.
Context {K : Type} `{KalmanTracker K}.

Lemma sorted_three (b0 b1 b2 : Blob) (triplet : list Blob) :
  Py.lt (blob_x b0) (blob_x b1) = true ->
  Py.lt (blob_x b1) (blob_x b2) = true ->
  triplet ≡ₚ [b0; b1; b2] ->
  Py.sorted blob_x false triplet = [b0; b1; b2].
Proof.
  intros H01 H12 Hperm.
  pose proof (lt_trans _ _ _ H01 H12) as H02.
  pose proof (lt_asym _ _ H01) as H10.
  pose proof (lt_asym _ _ H12) as H21.
  pose proof (lt_asym _ _ H02) as H20.
  symmetry in Hperm. apply permutations_Permutation in Hperm.
  simpl in Hperm.
  repeat (apply elem_of_cons in Hperm as [->|Hperm]);
    [..|by apply elem_of_nil in Hperm];
    unfold Py.sorted; simpl;
    repeat (rewrite ?H01, ?H12, ?H02, ?H10, ?H21, ?H20; simpl);
    reflexivity.
Qed.

(** X20: for three blobs whose x coordinates are strictly ordered, the
    geometry, the verdict of [_validate_triplet] and the score do not
    depend on the order in which the triplet lists them. *)
Theorem strict_triplet_order_irrelevant (self : StrictLEDDetector K)
    (b0 b1 b2 : Blob) (triplet : list Blob) :
  Py.lt (blob_x b0) (blob_x b1) = true ->
  Py.lt (blob_x b1) (blob_x b2) = true ->
  triplet ≡ₚ [b0; b1; b2] ->
  _calculate_geometry triplet = _calculate_geometry [b0; b1; b2] /\
  _validate_triplet self triplet = _validate_triplet self [b0; b1; b2] /\
  score triplet = score [b0; b1; b2].
Proof.
  intros H01 H12 Hperm.
  assert (Hg : _calculate_geometry triplet = _calculate_geometry [b0; b1; b2]).
  { unfold _calculate_geometry.
    rewrite (sorted_three b0 b1 b2 triplet H01 H12 Hperm).
    by rewrite (sorted_three b0 b1 b2 [b0; b1; b2] H01 H12). }
  unfold _validate_triplet, score. by rewrite Hg.
Qed.

(** With equal x coordinates the order does matter: the stable sort keeps
    the blobs of a vertical pattern in the order given. *)
Example vertical_triplet_order :
  _validate_triplet (default (K := K))
    [(100, 100, 1); (100, 200, 1); (100, 300, 1)]%float = Some true /\
  _validate_triplet (default (K := K))
    [(100, 100, 1); (100, 300, 1); (100, 200, 1)]%float = Some false.
Proof. split; vm_compute; reflexivity. Qed.

End TripletOrder.

(** ** The properties above on the videos of [Runs] *)

Section VideoRuns.
Import Estricto Runs.

Lemma video_assign_none_dropped_witness :
  VideoOutput.assigned_point
    <$> (VideoOutput._assign_led_ids Frames.frame_b VideoOutput.init).1
  = Py.sorted (fun d : VideoOutput.Det => d.1.1) false Frames.frame_b /\
  forall a,
    a ∈ (VideoOutput._assign_led_ids Frames.frame_b VideoOutput.init).1 ->
    VideoOutput.assigned_id a < 3.
Proof.
  apply (video_assign_none_dropped Frames.frame_b VideoOutput.init).
  simpl. lia.
Defined.

Lemma video_process_report_witness :
  VideoOutput.frame_count marker_run.1 = length marker_frames /\
  VideoOutput.successful_detections marker_run.2 <= length marker_frames /\
  length (VideoOutput.final_statistics marker_run.2) = 3 /\
  Forall (fun st => VideoOutput.count st <= length marker_frames)
         (VideoOutput.final_statistics marker_run.2).
Proof.
  apply (video_process_report Py.np_std 3 marker_frames
           marker_run.1 marker_run.2).
  vm_compute. reflexivity.
Defined.


Lemma strict_detect_leds_witness :
  exists best,
    best ∈ Py.combinations 3 Blobs.scenario_extra /\
    Estricto.led_id <$> strict_detection.1.1.1.2 = [0; 1; 2] /\
    Estricto.confidence <$> strict_detection.1.1.1.2
    = Estricto.blob_conf <$> Py.sorted Estricto.blob_x false best /\
    Estricto.last_valid_detection strict_detection.2
    = Some strict_detection.1.1.1.2 /\
    (forall i, i < 3 -> is_Some (Estricto.trackers strict_detection.2 !! i)) /\
    (Estricto.trackers (Estricto.default (K := float * float)) = ∅ ->
     led_point <$> strict_detection.1.1.1.2
     = blob_point <$> Py.sorted Estricto.blob_x false best).
Proof.
  apply (strict_detect_leds
           (Estricto.default (K := float * float)) Blobs.scenario_extra
           strict_detection.1.1.1.2 strict_detection.1.1.2
           strict_detection.1.2 strict_detection.2).
  vm_compute. reflexivity.
Defined.

Lemma strict_process_results_witness :
  Estricto.frame_idx <$> EstrictoVideo.results strict_run.1
  = seq 0 (length (frames_read None strict_frames)) /\
  Forall result_ok (EstrictoVideo.results strict_run.1) /\
  Estricto.frame_count (EstrictoVideo.detector strict_run.1)
  = length (frames_read None strict_frames).
Proof.
  apply (strict_process_results 30 None strict_frames
           strict_run.1 strict_run.2).
  vm_compute. reflexivity.
Defined.

Lemma strict_save_results_total_witness :
  exists stats,
    EstrictoVideo.save_results Py.np_mean Py.np_std strict_run.1 = Some stats /\
    EstrictoVideo.total_frames stats = 3 /\
    forall k, is_Some (EstrictoVideo.jitter stats !! k) <->
              k < 3 /\ 2 <= EstrictoVideo.valid_frames stats.
Proof.
  destruct (strict_save_results_total Py.np_mean Py.np_std 30 None
              strict_frames strict_run.1 strict_run.2)
    as (stats & Hs & Ht & _ & _ & _ & _ & Hj).
  - vm_compute. reflexivity.
  - exists stats. split; [exact Hs|]. split; [exact Ht | exact Hj].
Defined.

Lemma parpadeo_schedule_witness :
  exists frames_on,
    Parpadeo.patron 30 10 = Some (frames_on, frames_on) /\
    length blink_run = length blink_frames /\
    forall k frame, blink_frames !! k = Some frame ->
      blink_run !! k
      = Some (if (0 <? frames_on)%Z
                 && (Z.of_nat k mod (2 * frames_on) <? frames_on)%Z
              then frame else Parpadeo.pixel_off blink_gray <$> frame).
Proof.
  apply (parpadeo_schedule blink_gray 30 4 blink_frames 10 blink_run).
  vm_compute. reflexivity.
Defined.

Lemma parpadeo_pixel_off_witness :
  Parpadeo.pixel_off blink_gray (100, 100, 100)%Z = (10, 10, 10)%Z.
Proof.
  destruct (parpadeo_pixel_off blink_gray (100, 100, 100)%Z) as [Hp _].
  - simpl. lia.
  - simpl. lia.
  - simpl. lia.
  - unfold blink_gray. simpl. lia.
  - exact Hp.
Defined.

Lemma marcado_counts_witness :
  (forall k, k < 3 ->
     exists d, Marcado.trajectories marked_run.1 !! k = Some d /\
               length d = Nat.min 1 (Marcado.valid_frames marked_run.1)) /\
  Marcado.valid_frames marked_run.1 <= Marcado.total_frames marked_run.1 + 1 /\
  (false = false ->
   Marcado.valid_frames marked_run.1 <= Marcado.total_frames marked_run.1 /\
   Marcado.total_frames marked_run.1
   = length (frames_read None marked_frames)).
Proof.
  apply (marcado_counts 1 None false marked_frames marked_run.1 marked_run.2).
  vm_compute. reflexivity.
Defined.

Lemma marcado_cancel_first_witness :
  exists self : Marcado.VideoMarker (K := float * float),
    Marcado.process_video None true [(Blobs.scenario_extra, true)]
                          (Marcado.init 30)
    = Some (self, 0%float) /\
    Marcado.valid_frames self = 1 /\ Marcado.total_frames self = 0.
Proof.
  apply (marcado_cancel_first 30 None Blobs.scenario_extra []
           strict_detection.1.1.1.2 strict_detection.1.1.2
           strict_detection.1.2 strict_detection.2).
  vm_compute. reflexivity.
Defined.

Lemma robust_last_positions_sorted_witness :
  length Frames.frame_a = 3 /\ ascending Final.det_x Frames.frame_a.
Proof.
  apply (robust_last_positions_sorted Frames.tracked_a Frames.frame_a).
  - apply reachable_tracked_a.
  - reflexivity.
Defined.

Lemma robust_process_results_witness :
  Final.vp_frame_count robust_run.1 = 2 /\
  length (Final.results robust_run.1) = 3.
Proof.
  destruct (robust_process_results 24 None true robust_frames
              robust_run.1 robust_run.2) as (_ & _ & _ & _ & _).
  - vm_compute. reflexivity.
  - split; vm_compute; reflexivity.
Defined.

Lemma robust_statistics_after_process_witness :
  exists leds,
    Final.calculate_error_statistics Py.percentile_linear robust_run.1
    = Some (Final.MkStats 2 3 leds).
Proof.
  destruct (robust_statistics_after_process Py.percentile_linear 24 None
              true robust_frames robust_run.1 robust_run.2)
    as (leds & Hs & _).
  - vm_compute. reflexivity.
  - exists leds. exact Hs.
Defined.

Lemma strict_triplet_order_irrelevant_witness :
  Estricto._validate_triplet (Estricto.default (K := float * float))
    [(300, 300, 0.88); (100, 300, 0.9); (200, 300, 0.92)]%float
  = Estricto._validate_triplet (Estricto.default (K := float * float))
      Blobs.scenario.
Proof.
  destruct (strict_triplet_order_irrelevant
              (Estricto.default (K := float * float))
              (100, 300, 0.9)%float (200, 300, 0.92)%float
              (300, 300, 0.88)%float
              [(300, 300, 0.88); (100, 300, 0.9); (200, 300, 0.92)]%float)
    as (_ & Hv & _).
  - vm_compute. reflexivity.
  - vm_compute. reflexivity.
  - etrans; [apply Permutation_swap|]. apply perm_skip, Permutation_swap.
  - exact Hv.
Defined.

End VideoRuns.
